(** * IMHSS client scripts: a shallow embedding and its properties

    The development follows the three scripts of the repository:
    - the counselor dashboard (notification poller, badge, permission
      button, password-change form),
    - [registration-form.js] (client-side submit validation),
    - [student_dashboard.js] (breathing and stretching timers, and the
      strength meter of the reset page).

    Part I gives the embedding, one module per subsystem.  Part II states
    and proves the properties. *)

From Stdlib Require Import ZArith Lia Ascii String.
From stdpp Require Import base numbers list strings pretty gmap.

Local Open Scope Z_scope.

(* ===================================================================== *)
(** * Part I: the embedding *)
(* ===================================================================== *)

(** ** JavaScript strings

    A JavaScript string is a sequence of UTF-16 code units; [length] counts
    code units and a regular expression without the [u] flag matches code
    units.  Text that is only displayed (labels, messages) is kept as a
    Rocq [string]. *)
Module Js.

Definition jsstring := list N.

(** An ASCII literal, unit by unit. *)
Fixpoint lit (s : string) : jsstring :=
  match s with
  | EmptyString => []
  | String a s' => N_of_ascii a :: lit s'
  end.

(** [s.length] *)
Definition strlen (s : jsstring) : Z := Z.of_nat (length s).

(** [a === b] on strings. *)
Definition streq (a b : jsstring) : bool := bool_decide (a = b).

Definition in_range (lo hi c : N) : bool := ((lo <=? c) && (c <=? hi))%N.

(** Character classes of the scripts' regular expressions. *)
Definition is_lower (c : N) : bool := in_range 97 122 c.   (* [a-z] *)
Definition is_upper (c : N) : bool := in_range 65 90 c.    (* [A-Z] *)
Definition is_digit (c : N) : bool := in_range 48 57 c.    (* \d    *)
Definition is_other (c : N) : bool :=                      (* [^a-zA-Z\d] *)
  negb (is_lower c || is_upper c || is_digit c).

(** [/[cls]/.test(s)]: some code unit of [s] is in the class. *)
Definition test (cls : N -> bool) (s : jsstring) : bool := existsb cls s.

(** Code units removed by [String.prototype.trim]: WhiteSpace and
    LineTerminator. *)
Definition is_space (c : N) : bool :=
  (in_range 9 13 c || (c =? 32) || (c =? 160) || (c =? 5760)
   || in_range 8192 8202 c || (c =? 8232) || (c =? 8233) || (c =? 8239)
   || (c =? 8287) || (c =? 12288) || (c =? 65279))%N.

Fixpoint trimStart (s : jsstring) : jsstring :=
  match s with
  | [] => []
  | c :: s' => if is_space c then trimStart s' else s
  end.

Definition trimEnd (s : jsstring) : jsstring := rev (trimStart (rev s)).

(** [s.trim()] *)
Definition trim (s : jsstring) : jsstring := trimEnd (trimStart s).

(** [s.trim() === ''] *)
Definition blank (s : jsstring) : bool := streq (trim s) [].

End Js.

(** ** Password strength meters *)
Module Password.
Import Js.

(** The counter shared by both meters: one point per satisfied criterion;
    [b2z] is the [strength++] / [score++] under an [if]. *)
Definition b2z (b : bool) : Z := if b then 1 else 0.

Definition long8 (pw : jsstring) : bool := 8 <=? strlen pw.
Definition long12 (pw : jsstring) : bool := 12 <=? strlen pw.
Definition mixed (pw : jsstring) : bool := test is_lower pw && test is_upper pw.
Definition digit (pw : jsstring) : bool := test is_digit pw.
Definition symbol (pw : jsstring) : bool := test is_other pw.

Definition criteria (pw : jsstring) : Z :=
  b2z (long8 pw) + b2z (long12 pw) + b2z (mixed pw)
  + b2z (digit pw) + b2z (symbol pw).

Record Strength := { level : Z; text : string; color : string }.

(** [checkPasswordStrength] of the dashboard's password-change form.  The
    initial ['Too weak'] is overwritten on every path through the chain of
    tests; the trailing case is the chain falling through. *)
Definition checkPasswordStrength (password : jsstring) : Strength :=
  let strength := criteria password in
  let text0 := "Too weak"%string in
  let color0 := "#f56565"%string in
  if strength <=? 1 then
    {| level := strength; text := "Weak password"; color := "#f56565" |}
  else if strength =? 2 then
    {| level := strength; text := "Fair password"; color := "#ed8936" |}
  else if strength =? 3 then
    {| level := strength; text := "Good password"; color := "#ecc94b" |}
  else if 4 <=? strength then
    {| level := strength; text := "Strong password"; color := "#48bb78" |}
  else
    {| level := strength; text := text0; color := color0 |}.

(** [getStrength] of the reset page. *)
Record Level := { l_text : string; l_color : string }.

Definition levels : list Level :=
  [ {| l_text := "Too short";   l_color := "#e53e3e" |};
    {| l_text := "Weak";        l_color := "#f56565" |};
    {| l_text := "Fair";        l_color := "#ed8936" |};
    {| l_text := "Good";        l_color := "#ecc94b" |};
    {| l_text := "Strong";      l_color := "#48bb78" |};
    {| l_text := "Very strong"; l_color := "#38a169" |} ].

Record Scored := { score : Z; s_level : option Level }.

(** [levels[Math.min(score, 5)]]; an index outside the array reads
    [undefined], here [None]. *)
Definition getStrength (pw : jsstring) : Scored :=
  let score := criteria pw in
  {| score := score; s_level := levels !! Z.to_nat (Z.min score 5) |}.

(** *** Notions used in the statements *)

(** The five criteria, for statements that range over them. *)
Definition allCriteria : list (jsstring -> bool) :=
  [long8; long12; mixed; digit; symbol].

(** The label of the dashboard meter as a function of the score alone. *)
Definition labelOf (strength : Z) : string :=
  if strength <=? 1 then "Weak password"
  else if strength =? 2 then "Fair password"
  else if strength =? 3 then "Good password"
  else "Strong password".

(** The labels the dashboard meter can show. *)
Definition dashboardLabels : list string :=
  ["Weak password"; "Fair password"; "Good password"; "Strong password"].

End Password.

(** ** Client-side submit validation *)
Module Forms.
Import Js.

(** What a submit handler does, in program order.  Elements are named by
    their position in the page. *)
Inductive FormEffect :=
| AddInvalid (el : nat)        (* classList.add('invalid') *)
| RemoveInvalid (el : nat)     (* classList.remove('invalid') *)
| Alert (msg : string)         (* alert(msg) *)
| PreventDefault               (* e.preventDefault() *)
| Focus (el : nat)             (* el.focus() *)
| ScrollIntoView (el : nat)    (* el.scrollIntoView(...) *)
| ShowProcessing.              (* submit button disabled, 'Processing...' *)

#[global] Instance FormEffect_eq_dec : EqDecision FormEffect.
Proof. solve_decision. Defined.

(** The submit event is blocked when [preventDefault] was called on it;
    otherwise the browser sends the form. *)
Definition prevented (effs : list FormEffect) : bool :=
  bool_decide (PreventDefault ∈ effs).

(** *** registration-form.js *)

(** An input of the page: its [id], whether it lies inside
    [.registration-form], whether it carries [required], and its value. *)
Record Input := {
  el_id : string;
  in_form : bool;
  required : bool;
  value : jsstring
}.

Record FormPage := {
  inputs : list Input;        (* the document's inputs, in document order *)
  submitButton : bool         (* form.querySelector('.btn-primary') *)
}.

(** [form.querySelectorAll('[required]')], with positions. *)
Definition requiredFields (p : FormPage) : list (nat * Input) :=
  filter (fun e => in_form e.2 && required e.2 = true) (imap pair (inputs p)).

(** [document.getElementById(id)]: the first element carrying the id. *)
Definition getElementById (id : string) (p : FormPage) : option (nat * Input) :=
  list_find (fun e => el_id e = id) (inputs p).

(** The variables the handler updates: [isValid], [firstInvalidField] and
    the effects performed so far. *)
Record Check := {
  isValid : bool;
  firstInvalidField : option nat;
  done_effects : list FormEffect
}.

(** [if (!firstInvalidField) firstInvalidField = el] *)
Definition orFirst (first : option nat) (el : nat) : option nat :=
  match first with
  | Some f => Some f
  | None => Some el
  end.

(** One turn of [requiredFields.forEach(field => ...)]. *)
Definition checkField (c : Check) (field : nat * Input) : Check :=
  if blank (value field.2) then
    {| isValid := false;
       firstInvalidField := orFirst (firstInvalidField c) field.1;
       done_effects := done_effects c ++ [AddInvalid field.1] |}
  else
    {| isValid := isValid c;
       firstInvalidField := firstInvalidField c;
       done_effects := done_effects c ++ [RemoveInvalid field.1] |}.

Definition checkRequired (p : FormPage) : Check :=
  foldl checkField
    {| isValid := true; firstInvalidField := None; done_effects := [] |}
    (requiredFields p).

(** [if (passwordField && confirmPasswordField) { if (a.value !== b.value) ... }] *)
Definition checkMatch (pw cf : option (nat * Input)) (c : Check) : Check :=
  match pw, cf with
  | Some (_, pwEl), Some (j, cfEl) =>
      if negb (streq (value pwEl) (value cfEl)) then
        {| isValid := false;
           firstInvalidField := orFirst (firstInvalidField c) j;
           done_effects := done_effects c ++
             [AddInvalid j;
              Alert "Passwords do not match. Please check and try again."] |}
      else c
  | _, _ => c
  end.

(** [if (passwordField && passwordField.value.length < 8) ...] *)
Definition checkLength (pw : option (nat * Input)) (c : Check) : Check :=
  match pw with
  | Some (i, pwEl) =>
      if strlen (value pwEl) <? 8 then
        {| isValid := false;
           firstInvalidField := orFirst (firstInvalidField c) i;
           done_effects := done_effects c ++
             [AddInvalid i;
              Alert "Password must be at least 8 characters long."] |}
      else c
  | None => c
  end.

(** The closing test of the invalid branch,
    [!passwordField || (pw.value.length >= 8 && pw.value === confirm.value)].
    [None]: reading [.value] of a missing confirmation field throws. *)
Definition generalAlert (pw cf : option (nat * Input)) : option (list FormEffect) :=
  let general := [Alert "Please fill in all required fields correctly."] in
  match pw with
  | None => Some general
  | Some (_, pwEl) =>
      if 8 <=? strlen (value pwEl) then
        match cf with
        | Some (_, cfEl) =>
            Some (if streq (value pwEl) (value cfEl) then general else [])
        | None => None
        end
      else Some []
  end.

Definition focusFirst (first : option nat) : list FormEffect :=
  match first with
  | Some el => [Focus el; ScrollIntoView el]
  | None => []
  end.

Record Handled := {
  effects : list FormEffect;      (* everything done before returning or throwing *)
  threw : bool                (* the handler ended in a TypeError *)
}.

(** The ids of the two password fields of the counselor form. *)
Definition passwordId : string := "counselor_password".
Definition confirmId : string := "counselor_password_confirm".

(** The [submit] listener of the registration form. *)
Definition onSubmit (p : FormPage) : Handled :=
  let passwordField := getElementById passwordId p in
  let confirmPasswordField := getElementById confirmId p in
  let c := checkLength passwordField
             (checkMatch passwordField confirmPasswordField (checkRequired p)) in
  if negb (isValid c) then
    let pre := done_effects c ++ [PreventDefault] ++ focusFirst (firstInvalidField c) in
    match generalAlert passwordField confirmPasswordField with
    | Some tail => {| effects := pre ++ tail; threw := false |}
    | None => {| effects := pre; threw := true |}
    end
  else
    {| effects := done_effects c ++ (if submitButton p then [ShowProcessing] else []);
       threw := false |}.

(** *** The password-change form of the dashboard *)

(** The two inputs read by the listener, [#new_password] and
    [#confirm_password]; the listener is installed only when both exist. *)
Record PasswordForm := {
  new_password : jsstring;
  confirm_password : jsstring
}.

(** The [submit] listener of [#password-change-form]. *)
Definition onPasswordSubmit (f : PasswordForm) : list FormEffect :=
  if negb (streq (new_password f) (confirm_password f)) then
    [PreventDefault; Alert "Passwords do not match. Please check and try again."]
  else if strlen (new_password f) <? 8 then
    [PreventDefault; Alert "Password must be at least 8 characters long."]
  else [].

(** *** Notions used in the statements *)

(** Some required field of the registration form is empty after trimming. *)
Definition someRequiredBlank (p : FormPage) : Prop :=
  exists fld, fld ∈ requiredFields p /\ blank (value fld.2) = true.

(** Both password fields exist and their values differ. *)
Definition passwordsDiffer (p : FormPage) : Prop :=
  exists i a j b,
    getElementById passwordId p = Some (i, a)
    /\ getElementById confirmId p = Some (j, b)
    /\ value a <> value b.

(** The password field exists and holds fewer than 8 code units. *)
Definition passwordShort (p : FormPage) : Prop :=
  exists i a, getElementById passwordId p = Some (i, a) /\ strlen (value a) < 8.

(** The blocking condition in the words of the specification, read on the
    password-change form: one of its fields is empty after trimming, or the
    two fields differ, or the password has fewer than 8 characters. *)
Definition specBlocks (f : PasswordForm) : Prop :=
  (blank (new_password f) = true \/ blank (confirm_password f) = true)
  \/ new_password f <> confirm_password f
  \/ strlen (new_password f) < 8.

(** Eight spaces typed into both fields of the password-change form. *)
Definition eightSpaces : PasswordForm :=
  {| new_password := lit "        "; confirm_password := lit "        " |}.

End Forms.

(** ** Handlers as computations

    A handler reads and writes the script's variables, performs effects on
    the page, and either returns or throws.  What was written and performed
    before a throw stays. *)
Module Script.

Inductive Exn :=
| NetworkError
| SyntaxError
| TypeError.

#[global] Instance Exn_eq_dec : EqDecision Exn.
Proof. solve_decision. Defined.

Inductive Outcome (A : Type) :=
| Returned (a : A)
| Threw (e : Exn).
Arguments Returned {A} a.
Arguments Threw {A} e.

Section Monad.
Context {S E : Type}.

Definition M (A : Type) : Type := S -> Outcome A * S * list E.

Definition ret {A} (a : A) : M A := fun s => (Returned a, s, []).

Definition bind {A B} (m : M A) (k : A -> M B) : M B :=
  fun s =>
    match m s with
    | (Returned a, s1, e1) =>
        match k a s1 with
        | (o, s2, e2) => (o, s2, e1 ++ e2)
        end
    | (Threw e, s1, e1) => (Threw e, s1, e1)
    end.

Definition throw {A} (e : Exn) : M A := fun s => (Threw e, s, []).

Definition emit (x : E) : M unit := fun s => (Returned tt, s, [x]).

Definition gets {A} (f : S -> A) : M A := fun s => (Returned (f s), s, []).

Definition modify (f : S -> S) : M unit := fun s => (Returned tt, f s, []).

(** [try { m } catch (error) { h error }] *)
Definition try_catch (m : M unit) (h : Exn -> M unit) : M unit :=
  fun s =>
    match m s with
    | (Returned a, s1, e1) => (Returned a, s1, e1)
    | (Threw e, s1, e1) =>
        match h e s1 with
        | (o, s2, e2) => (o, s2, e1 ++ e2)
        end
    end.

(** [if (b) { m }] *)
Definition when (b : bool) (m : M unit) : M unit := if b then m else ret tt.

(** [xs.forEach((x, index) => f x index)] *)
Fixpoint forEachFrom {A} (index : Z) (xs : list A) (f : A -> Z -> M unit) : M unit :=
  match xs with
  | [] => ret tt
  | x :: xs' => bind (f x index) (fun _ => forEachFrom (index + 1) xs' f)
  end.

Definition forEach {A} (xs : list A) (f : A -> Z -> M unit) : M unit :=
  forEachFrom 0 xs f.

(** The variables after the handler, and what it did. *)
Definition vars_of {A} (r : Outcome A * S * list E) : S := r.1.2.
Definition effects_of {A} (r : Outcome A * S * list E) : list E := r.2.
Definition outcome_of {A} (r : Outcome A * S * list E) : Outcome A := r.1.1.

End Monad.

Arguments M : clear implicits.

(** [do x <- m; k] runs [m], then [k] with its result. *)
Notation "'do' x <- m ; k" := (bind m (fun x => k))
  (at level 10, x binder, m at level 100, k at level 200, only parsing).

End Script.

(** ** The notification system of the counselor dashboard *)
Module Notify.
Import Script.

Inductive Permission := Default | Granted | Denied.

#[global] Instance Permission_eq_dec : EqDecision Permission.
Proof. solve_decision. Defined.

Record Flag := {
  student_name : string;
  flagged_at : string;
  keywords : list string
}.

#[global] Instance Flag_eq_dec : EqDecision Flag.
Proof. solve_decision. Defined.

(** The decoded body of [GET /counselor/check-notifications]. *)
Record Data := { count : Z; flags : list Flag }.

(** How [await fetch(...)] followed by [await response.json()] ends. *)
Inductive Fetch :=
| FetchRejected               (* the request failed *)
| JsonRejected                (* the body did not decode *)
| Decoded (data : Data).

(** Functions handed to [setTimeout]. *)
Inductive Callback :=
| CbShowInApp (flag : Flag)   (* () => showInAppNotification(flag) *)
| CbTestToast                 (* the test notification of the enable button *)
| CbToastShow (toast : nat)   (* notification.classList.add('show') *)
| CbToastHide (toast : nat)   (* add 'hide', then remove after 300 ms *)
| CbToastRemove (toast : nat) (* notification.remove() *)
| CbBounce (badge : nat)      (* badge.classList.add('bounce') *)
| CbModalRemove.              (* modal.remove() *)

#[global] Instance Callback_eq_dec : EqDecision Callback.
Proof. solve_decision. Defined.

(** What runs when the promise of [Notification.requestPermission()]
    settles. *)
Inductive PermissionThen :=
| ThenNotify (title : string) (flag : option Flag)  (* .then(...) in showBrowserNotification *)
| ThenEnable.                                       (* the rest of the click listener *)

#[global] Instance PermissionThen_eq_dec : EqDecision PermissionThen.
Proof. solve_decision. Defined.

(** Calls that leave the script, in program order. *)
Inductive Effect :=
| SetTimeout (cb : Callback) (delay : Z)
| NewNotification (title body : string)     (* new Notification(title, {...}) *)
| RequestPermission (k : PermissionThen)    (* Notification.requestPermission() *)
| PlaySound                                 (* the 0.5 s oscillator *)
| ConsoleError (msg : string) (e : Exn)
| LocationReload
| PermissionModal (title message : string) (success : bool).

#[global] Instance Effect_eq_dec : EqDecision Effect.
Proof. solve_decision. Defined.

Record Badge := { badge_id : nat; badge_text : string; bounce : bool }.

Record Toast := { toast_id : nat; toast_flag : Flag; shown : bool; hiding : bool }.

(** The page as the script sees it. *)
Record Page := {
  onDashboard : bool;                (* pathname includes 'counselor/dashboard' *)
  lastNotificationCount : Z;
  notificationApi : bool;            (* "Notification" in window *)
  permission : Permission;           (* Notification.permission *)
  audioContext : bool;               (* window.AudioContext || window.webkitAudioContext *)
  flaggedLink : option (list Badge); (* badges inside [data-tab="flagged"]; None: no link *)
  flaggedTabActive : bool;           (* #flagged-tab exists and is active *)
  enableButton : option bool;        (* #enable-notifications-btn with its click listener, and whether it is displayed *)
  container : option (list Toast);   (* #notification-container *)
  nextNode : nat                     (* names for created elements *)
}.

Definition setLast (n : Z) (p : Page) : Page :=
  {| onDashboard := onDashboard p; lastNotificationCount := n;
     notificationApi := notificationApi p; permission := permission p;
     audioContext := audioContext p; flaggedLink := flaggedLink p;
     flaggedTabActive := flaggedTabActive p; enableButton := enableButton p;
     container := container p; nextNode := nextNode p |}.

Definition setPermission (x : Permission) (p : Page) : Page :=
  {| onDashboard := onDashboard p; lastNotificationCount := lastNotificationCount p;
     notificationApi := notificationApi p; permission := x;
     audioContext := audioContext p; flaggedLink := flaggedLink p;
     flaggedTabActive := flaggedTabActive p; enableButton := enableButton p;
     container := container p; nextNode := nextNode p |}.

Definition setFlaggedLink (l : option (list Badge)) (p : Page) : Page :=
  {| onDashboard := onDashboard p; lastNotificationCount := lastNotificationCount p;
     notificationApi := notificationApi p; permission := permission p;
     audioContext := audioContext p; flaggedLink := l;
     flaggedTabActive := flaggedTabActive p; enableButton := enableButton p;
     container := container p; nextNode := nextNode p |}.

Definition setEnableButton (b : option bool) (p : Page) : Page :=
  {| onDashboard := onDashboard p; lastNotificationCount := lastNotificationCount p;
     notificationApi := notificationApi p; permission := permission p;
     audioContext := audioContext p; flaggedLink := flaggedLink p;
     flaggedTabActive := flaggedTabActive p; enableButton := b;
     container := container p; nextNode := nextNode p |}.

Definition setContainer (c : option (list Toast)) (p : Page) : Page :=
  {| onDashboard := onDashboard p; lastNotificationCount := lastNotificationCount p;
     notificationApi := notificationApi p; permission := permission p;
     audioContext := audioContext p; flaggedLink := flaggedLink p;
     flaggedTabActive := flaggedTabActive p; enableButton := enableButton p;
     container := c; nextNode := nextNode p |}.

Definition setNextNode (n : nat) (p : Page) : Page :=
  {| onDashboard := onDashboard p; lastNotificationCount := lastNotificationCount p;
     notificationApi := notificationApi p; permission := permission p;
     audioContext := audioContext p; flaggedLink := flaggedLink p;
     flaggedTabActive := flaggedTabActive p; enableButton := enableButton p;
     container := container p; nextNode := n |}.

(** Handlers of this page. *)
Abbreviation M := (Script.M Page Effect).

(** [setTimeout(cb, delay)] *)
Definition setTimeout (cb : Callback) (delay : Z) : M unit :=
  emit (SetTimeout cb delay).

(** [document.createElement]: a fresh name for the element. *)
Definition createElement : M nat :=
  do n <- gets nextNode; do _ <- modify (setNextNode (S n)); ret n.

(** [xs.slice(0, n)] for [n >= 0]. *)
Definition slice0 {A} (xs : list A) (n : Z) : list A := take (Z.to_nat n) xs.

(** [ks.join(sep)] *)
Fixpoint join (sep : string) (ks : list string) : string :=
  match ks with
  | [] => ""
  | [k] => k
  | k :: ks' => k +:+ sep +:+ join sep ks'
  end.

Definition newline : string := String (ascii_of_nat 10) EmptyString.

(** *** The handlers *)

(** [createBrowserNotification]: reading [flag.student_name] throws when
    [flag] is [undefined]. *)
Definition createBrowserNotification (title : string) (flag : option Flag) : M unit :=
  match flag with
  | None => throw TypeError
  | Some f =>
      emit (NewNotification title
              ("Student: " +:+ student_name f +:+ newline
               +:+ "Keywords: " +:+ join ", " (keywords f)))
  end.

Definition showBrowserNotification (title : string) (flag : option Flag) : M unit :=
  do api <- gets notificationApi;
  if negb api then ret tt
  else
    do perm <- gets permission;
    match perm with
    | Granted => createBrowserNotification title flag
    | Denied => ret tt
    | Default => emit (RequestPermission (ThenNotify title flag))
    end.

(** [playNotificationSound]: [new (window.AudioContext ||
    window.webkitAudioContext)()] throws when neither constructor exists.
    The tone itself (sweep, envelope) is the single effect [PlaySound]. *)
Definition playNotificationSound : M unit :=
  do ctx <- gets audioContext;
  if ctx then emit PlaySound else throw TypeError.

(** [count > 99 ? '99+' : count], assigned to [textContent]. *)
Definition badgeText (count : Z) : string :=
  if 99 <? count then "99+" else pretty count.

(** [existingBadge.remove()] for the first badge found by [querySelector]. *)
Definition removeFirst (badges : list Badge) : list Badge :=
  match badges with
  | [] => []
  | _ :: rest => rest
  end.

Definition updateNotificationBadge (count : Z) : M unit :=
  do link <- gets flaggedLink;
  match link with
  | None => ret tt
  | Some badges =>
      let kept := removeFirst badges in
      do _ <- modify (setFlaggedLink (Some kept));
      if 0 <? count then
        do b <- createElement;
        do _ <- modify (setFlaggedLink
                     (Some (kept ++ [ {| badge_id := b; badge_text := badgeText count;
                                         bounce := false |} ])));
        setTimeout (CbBounce b) 100
      else ret tt
  end.

(** [data.count > lastNotificationCount && lastNotificationCount > 0] *)
Definition isNew (count last : Z) : bool := (last <? count) && (0 <? last).

(** The toasts of one alert: [data.flags.slice(0, newFlags).forEach(...)]. *)
Definition scheduleToasts (data : Data) (newFlags : Z) : M unit :=
  forEach (slice0 (flags data) newFlags)
    (fun flag index => setTimeout (CbShowInApp flag) (index * 500)).

(** The summary title, [`${newFlags} New High-Risk Alert(s)`]. *)
Definition summaryTitle (newFlags : Z) : string :=
  pretty newFlags +:+ " New High-Risk Alert(s)".

(** The two [await]s at the head of the [try] block. *)
Definition awaitData (r : Fetch) : M Data :=
  match r with
  | FetchRejected => throw NetworkError
  | JsonRejected => throw SyntaxError
  | Decoded data => ret data
  end.

(** The body of the [try] block once the response is there. *)
Definition checkBody (r : Fetch) : M unit :=
  do data <- awaitData r;
  do last <- gets lastNotificationCount;
  do _ <- when (isNew (count data) last)
       (let newFlags := count data - last in
        do _ <- scheduleToasts data newFlags;
        do _ <- showBrowserNotification (summaryTitle newFlags) (flags data !! 0%nat);
        playNotificationSound);
  do _ <- updateNotificationBadge (count data);
  do active <- gets flaggedTabActive;
  do last' <- gets lastNotificationCount;
  do _ <- when (active && isNew (count data) last') (emit LocationReload);
  modify (setLast (count data)).

Definition checkForNewNotifications (r : Fetch) : M unit :=
  try_catch (checkBody r)
            (fun error => emit (ConsoleError "Notification check failed:" error)).

(** [showInAppNotification]: the container is created on first use, the
    toast appended, and its two timers started. *)
Definition showInAppNotification (flag : Flag) : M unit :=
  do c <- gets container;
  do toasts <- match c with
           | Some toasts => ret toasts
           | None => do _ <- createElement; ret []
           end;
  do t <- createElement;
  do _ <- modify (setContainer
               (Some (toasts ++ [ {| toast_id := t; toast_flag := flag;
                                     shown := false; hiding := false |} ])));
  do _ <- setTimeout (CbToastShow t) 100;
  setTimeout (CbToastHide t) 10000.

Definition mapToast (t : nat) (f : Toast -> Toast) (p : Page) : Page :=
  setContainer
    (fmap (M := option)
       (fmap (M := list) (fun x => if decide (toast_id x = t) then f x else x))
       (container p)) p.

Definition dropToast (t : nat) (p : Page) : Page :=
  setContainer
    (fmap (M := option) (filter (fun x => toast_id x ≠ t)) (container p)) p.

Definition bounceBadge (b : nat) (p : Page) : Page :=
  setFlaggedLink
    (fmap (M := option)
       (fmap (M := list)
          (fun x => if decide (badge_id x = b)
                    then {| badge_id := badge_id x; badge_text := badge_text x;
                            bounce := true |}
                    else x))
       (flaggedLink p)) p.

(** A timer fires.  [now] is the clock reading used by the test toast.
    [showInAppNotification] is declared inside the dashboard-only block, so
    the test toast throws elsewhere. *)
Definition runCallback (cb : Callback) (now : string) : M unit :=
  match cb with
  | CbShowInApp flag => showInAppNotification flag
  | CbTestToast =>
      do here <- gets onDashboard;
      if here then
        showInAppNotification
          {| student_name := "Test Student"; flagged_at := now;
             keywords := ["test notification"] |}
      else throw TypeError
  | CbToastShow t =>
      modify (mapToast t (fun x => {| toast_id := toast_id x; toast_flag := toast_flag x;
                                      shown := true; hiding := hiding x |}))
  | CbToastHide t =>
      do _ <- modify (mapToast t (fun x => {| toast_id := toast_id x; toast_flag := toast_flag x;
                                         shown := shown x; hiding := true |}));
      setTimeout (CbToastRemove t) 300
  | CbToastRemove t => modify (dropToast t)
  | CbBounce b => modify (bounceBadge b)
  | CbModalRemove => ret tt
  end.

(** [showPermissionModal] *)
Definition showPermissionModal (title message : string) (success : bool) : M unit :=
  do _ <- emit (PermissionModal title message success);
  setTimeout CbModalRemove 3000.

(** The click listener of [#enable-notifications-btn], up to its [await]. *)
Definition onEnableClick : M unit :=
  do api <- gets notificationApi;
  if negb api then
    showPermissionModal "Not Supported"
      "Your browser doesn't support desktop notifications." false
  else emit (RequestPermission ThenEnable).

(** The click listener after its [await]. *)
Definition afterEnable (answer : Permission) : M unit :=
  match answer with
  | Granted =>
      do _ <- showPermissionModal "Notifications Enabled!"
           "You'll now receive real-time alerts for high-risk messages." true;
      do _ <- modify (setEnableButton (Some false));
      setTimeout CbTestToast 1000
  | _ =>
      showPermissionModal "Notifications Blocked"
        "Please enable notifications in your browser settings to receive alerts."
        false
  end.

(** The browser settles a permission request: a prompt is shown only
    while the permission is still [Default], and [choice] is what the user
    picks there ([Default]: the prompt is dismissed). *)
Definition settlePermission (k : PermissionThen) (choice : Permission) : M unit :=
  do current <- gets permission;
  let answer := match current with Default => choice | _ => current end in
  do _ <- modify (setPermission answer);
  match k with
  | ThenNotify title flag =>
      when (bool_decide (answer = Granted)) (createBrowserNotification title flag)
  | ThenEnable => afterEnable answer
  end.

(** *** The page as an event loop *)

Inductive Event :=
| EvPoll (r : Fetch)          (* the 10 s interval or the 2 s start-up call; the fetch has settled *)
| EvClick                     (* the user clicks the enable-notifications button *)
| EvSettled (k : PermissionThen) (choice : Permission)
| EvTimer (cb : Callback) (now : string).

Definition handle (ev : Event) : M unit :=
  match ev with
  | EvPoll r =>
      do here <- gets onDashboard;
      when here (checkForNewNotifications r)
  | EvClick =>
      do btn <- gets enableButton;
      when (bool_decide (is_Some btn)) onEnableClick
  | EvSettled k choice => settlePermission k choice
  | EvTimer cb now => runCallback cb now
  end.

(** One turn of the event loop: the page afterwards and what was done. *)
Definition step (p : Page) (ev : Event) : Page * list Effect :=
  match handle ev p with
  | (_, p', effs) => (p', effs)
  end.

(** A run: every event with the effects its handler performed. *)
Fixpoint run (p : Page) (evs : list Event) : Page * list (Event * list Effect) :=
  match evs with
  | [] => (p, [])
  | ev :: evs' =>
      let '(p1, effs) := step p ev in
      let '(p2, tr) := run p1 evs' in
      (p2, (ev, effs) :: tr)
  end.

(** The page right after load, from what the browser offers ([api],
    [perm], [audio]) and what the document holds ([link], [tab], [button]):
    the counter is 0.  With an enable button the script reads
    [Notification.permission] before it installs the click listener, which
    throws on a browser without the Notification API; so the listener is
    there only when the API is, and the button is then displayed unless
    permission is already granted. *)
Definition loaded (api : bool) (perm : Permission) (audio : bool)
    (link : option (list Badge)) (tab : bool) (button : bool) : Page :=
  {| onDashboard := true; lastNotificationCount := 0;
     notificationApi := api; permission := perm; audioContext := audio;
     flaggedLink := link; flaggedTabActive := tab;
     enableButton := if button && api then Some (bool_decide (perm <> Granted)) else None;
     container := None; nextNode := 0 |}.

(** *** Notions used in the statements *)

(** The timers [scheduleToasts] starts: one per flag of the slice, the
    flag at position [i] after [i * 500] ms. *)
Definition toastTimers (fl : list Flag) (newFlags : Z) : list Effect :=
  imap (fun i flag => SetTimeout (CbShowInApp flag) (Z.of_nat i * 500))
       (slice0 fl newFlags).

(** The effects that belong to an alert: a toast timer, a desktop
    notification or the request for permission to show one, the sound. *)
Definition isToast (e : Effect) : bool :=
  match e with
  | SetTimeout (CbShowInApp _) _ => true
  | _ => false
  end.

Definition isBrowserNotification (e : Effect) : bool :=
  match e with
  | NewNotification _ _ | RequestPermission _ => true
  | _ => false
  end.

Definition isSound (e : Effect) : bool :=
  match e with
  | PlaySound => true
  | _ => false
  end.

Definition isAlert (e : Effect) : bool :=
  isToast e || isBrowserNotification e || isSound e.

Definition isPermissionRequest (e : Effect) : bool :=
  match e with
  | RequestPermission _ => true
  | _ => false
  end.

(** [showBrowserNotification] in closed form: it throws exactly when it
    has permission but no flag to describe, and these are the calls it
    makes. *)
Definition browserThrows (p : Page) (flag : option Flag) : bool :=
  notificationApi p && bool_decide (permission p = Granted)
  && bool_decide (flag = None).

Definition browserEffects (p : Page) (title : string) (flag : option Flag)
    : list Effect :=
  effects_of (showBrowserNotification title flag p).

(** The page and the effects of a badge update. *)
Definition badgeAfter (n : Z) (p : Page) : Page :=
  vars_of (updateNotificationBadge n p).

Definition badgeEffects (n : Z) (p : Page) : list Effect :=
  effects_of (updateNotificationBadge n p).

(** The badges shown on the flagged link. *)
Definition badges (p : Page) : list Badge := default [] (flaggedLink p).

(** A poll completes when its [try] block runs to the end. *)
Definition completes (r : Fetch) (p : Page) : Prop :=
  outcome_of (checkBody r p) = Returned tt.

(** The effects of a poll on a decoded response, sorted by kind. *)
Record Sorted (effs toasts browser : list Effect) (sound : bool) : Prop := {
  sorted_toasts : filter (fun e => isToast e) effs = toasts;
  sorted_browser : filter (fun e => isBrowserNotification e) effs = browser;
  sorted_sound : PlaySound ∈ effs <-> sound = true
}.

(** Example pages and responses. *)
Definition someFlag : Flag :=
  {| student_name := "A. Student"; flagged_at := "2025-01-01T00:00:00Z";
     keywords := ["k1"; "k2"] |}.

Definition freshPage (perm : Permission) : Page :=
  loaded true perm true (Some []) false true.

Definition response (n : Z) (fl : list Flag) : Fetch :=
  Decoded {| count := n; flags := fl |}.

(** Two polls after load, the count going from 1 to 2, and no click. *)
Definition twoPolls : list Event :=
  [EvPoll (response 1 [someFlag]); EvPoll (response 2 [someFlag; someFlag])].

(** Two polls after load: the count is 1, then 3 with no flag listed. *)
Definition growthWithoutFlags : list Event :=
  [EvPoll (response 1 [someFlag]); EvPoll (response 3 [])].

(** The poll sequence of the specification's example: counts 0, 3, 5. *)
Definition countsZeroThreeFive : list Event :=
  [EvPoll (response 0 []);
   EvPoll (response 3 [someFlag; someFlag; someFlag]);
   EvPoll (response 5 [someFlag; someFlag; someFlag; someFlag; someFlag])].

(** The result of a poll. *)
Definition pollEffects (r : Fetch) (p : Page) : list Effect :=
  effects_of (checkForNewNotifications r p).

Definition afterPoll (r : Fetch) (p : Page) : Page :=
  vars_of (checkForNewNotifications r p).

(** Tactics for unfolding a handler and tidying its list of effects. *)
Ltac run_handler :=
  unfold when, setTimeout; unfold bind, gets, modify, emit, ret, throw;
  cbv beta iota zeta.

Ltac norm_effects :=
  cbn [app]; rewrite ?app_nil_r, <- ?app_assoc; cbn [app]; rewrite ?app_nil_r.

End Notify.

(** ** The exercise timers of the student dashboard *)
Module Exercise.
Import Script.

Record Phase := { p_text : string; duration : Z; scale : string }.

(** A function handed to [setInterval].  [updateBreathing] is a closure:
    each call of [startBreathingExercise] makes a new one owning its
    [phases], [phaseIndex] and [countdown]. *)
Inductive Ticker :=
| UpdateBreathing (phases : list Phase) (phaseIndex : nat) (countdown : Z)
| StretchTick.

(** The script's variables and the browser's table of running intervals. *)
Record Vars := {
  intervals : gmap positive Ticker;     (* running intervals by handle *)
  nextHandle : positive;                (* handles are fresh and non-zero *)
  breathingInterval : option positive;  (* None: null *)
  stretchingInterval : option positive;
  currentStretchIndex : nat;
  stretchSequence : list string;
  stretchCountdown : Z
}.

(** Writes to the page, in program order. *)
Inductive Output :=
| Display (el : string) (v : string)        (* el.style.display = v *)
| Text (el : string) (txt : string)         (* el.textContent = txt *)
| Style (el prop : string) (v : string)     (* el.style[prop] = v *)
| Progress (num den : Z)                    (* bar width: num / den * 100 % *)
| Alert (msg : string).

Abbreviation M := (Script.M Vars Output).

Definition initial : Vars :=
  {| intervals := ∅; nextHandle := 1%positive;
     breathingInterval := None; stretchingInterval := None;
     currentStretchIndex := 0; stretchSequence := []; stretchCountdown := 0 |}.

(** [setInterval(fn, 1000)] *)
Definition setInterval (fn : Ticker) : M positive :=
  do h <- gets nextHandle;
  do _ <- modify (fun v =>
    {| intervals := <[h := fn]> (intervals v); nextHandle := (h + 1)%positive;
       breathingInterval := breathingInterval v;
       stretchingInterval := stretchingInterval v;
       currentStretchIndex := currentStretchIndex v;
       stretchSequence := stretchSequence v;
       stretchCountdown := stretchCountdown v |});
  ret h.

(** [clearInterval(h)]; clearing a handle that is not running does nothing. *)
Definition clearInterval (h : positive) : M unit :=
  modify (fun v =>
    {| intervals := delete h (intervals v); nextHandle := nextHandle v;
       breathingInterval := breathingInterval v;
       stretchingInterval := stretchingInterval v;
       currentStretchIndex := currentStretchIndex v;
       stretchSequence := stretchSequence v;
       stretchCountdown := stretchCountdown v |}).

Definition setBreathingInterval (h : option positive) : M unit :=
  modify (fun v =>
    {| intervals := intervals v; nextHandle := nextHandle v;
       breathingInterval := h;
       stretchingInterval := stretchingInterval v;
       currentStretchIndex := currentStretchIndex v;
       stretchSequence := stretchSequence v;
       stretchCountdown := stretchCountdown v |}).

Definition setStretchingInterval (h : option positive) : M unit :=
  modify (fun v =>
    {| intervals := intervals v; nextHandle := nextHandle v;
       breathingInterval := breathingInterval v;
       stretchingInterval := h;
       currentStretchIndex := currentStretchIndex v;
       stretchSequence := stretchSequence v;
       stretchCountdown := stretchCountdown v |}).

Definition setStretch (index : nat) (sequence : list string) (countdown : Z) : M unit :=
  modify (fun v =>
    {| intervals := intervals v; nextHandle := nextHandle v;
       breathingInterval := breathingInterval v;
       stretchingInterval := stretchingInterval v;
       currentStretchIndex := index;
       stretchSequence := sequence;
       stretchCountdown := countdown |}).

(** *** Breathing *)

Definition breathingTitle (type : string) : string :=
  if bool_decide (type = "box") then "Box Breathing"
  else if bool_decide (type = "478") then "4-7-8 Breathing"
  else "Deep Breathing".

Definition breathingPhases (type : string) : list Phase :=
  if bool_decide (type = "box") then
    [ {| p_text := "Breathe In";  duration := 4; scale := "1.2" |};
      {| p_text := "Hold";        duration := 4; scale := "1.2" |};
      {| p_text := "Breathe Out"; duration := 4; scale := "1" |};
      {| p_text := "Hold";        duration := 4; scale := "1" |} ]
  else if bool_decide (type = "478") then
    [ {| p_text := "Breathe In";  duration := 4; scale := "1.2" |};
      {| p_text := "Hold";        duration := 7; scale := "1.2" |};
      {| p_text := "Breathe Out"; duration := 8; scale := "1" |} ]
  else
    [ {| p_text := "Breathe In";  duration := 5; scale := "1.2" |};
      {| p_text := "Breathe Out"; duration := 5; scale := "1" |} ].

(** [phases[i]]; reading a property of [undefined] throws. *)
Definition phaseAt (phases : list Phase) (i : nat) : M Phase :=
  match phases !! i with
  | Some ph => ret ph
  | None => throw TypeError
  end.

(** One call of the closure [updateBreathing]: the page writes, and the
    closure's [phaseIndex] and [countdown] afterwards. *)
Definition updateBreathing (phases : list Phase) (phaseIndex : nat) (countdown : Z)
    : M (nat * Z) :=
  do currentPhase <- phaseAt phases phaseIndex;
  do _ <- emit (Text "breathing-instruction" (p_text currentPhase));
  do _ <- emit (Text "breathing-timer" (pretty countdown));
  do _ <- emit (Style "breathing-circle" "transform"
                  ("scale(" +:+ scale currentPhase +:+ ")"));
  do _ <- emit (Style "breathing-circle" "transition"
                  ("transform " +:+ pretty countdown +:+ "s ease-in-out"));
  let countdown := countdown - 1 in
  if countdown <? 0 then
    let phaseIndex := ((phaseIndex + 1) mod length phases)%nat in
    do next <- phaseAt phases phaseIndex;
    ret (phaseIndex, duration next)
  else ret (phaseIndex, countdown).

(** [startBreathingExercise(type)] *)
Definition startBreathingExercise (type : string) : M unit :=
  do _ <- emit (Display "breathing-modal" "flex");
  do _ <- emit (Text "exercise-title" (breathingTitle type));
  let phases := breathingPhases type in
  do first <- phaseAt phases 0;
  do st <- updateBreathing phases 0 (duration first);
  do h <- setInterval (UpdateBreathing phases st.1 st.2);
  setBreathingInterval (Some h).

(** [stopBreathingExercise()] *)
Definition stopBreathingExercise : M unit :=
  do h <- gets breathingInterval;
  do _ <- match h with
          | Some h => do _ <- clearInterval h; setBreathingInterval None
          | None => ret tt
          end;
  emit (Display "breathing-modal" "none").

(** *** Stretching *)

Definition stretchSteps (type : string) : list string :=
  if bool_decide (type = "neck") then
    [ "Tilt your head to the right, hold for 30 seconds";
      "Tilt your head to the left, hold for 30 seconds";
      "Look down, bringing chin to chest, hold for 30 seconds";
      "Look up gently, hold for 30 seconds" ]
  else if bool_decide (type = "shoulder") then
    [ "Roll shoulders backward 10 times";
      "Roll shoulders forward 10 times";
      "Raise shoulders to ears, hold 5 seconds, release";
      "Pull shoulders back, squeeze shoulder blades" ]
  else
    [ "Reach arms overhead, stretch tall";
      "Bend forward, touch toes (or as far as comfortable)";
      "Twist torso to the right, hold";
      "Twist torso to the left, hold";
      "Side bend to the right";
      "Side bend to the left" ].

(** [stopStretchingExercise()] *)
Definition stopStretchingExercise : M unit :=
  do h <- gets stretchingInterval;
  do _ <- match h with
          | Some h => do _ <- clearInterval h; setStretchingInterval None
          | None => ret tt
          end;
  emit (Display "stretching-modal" "none").

(** [displayStretch()]; an index past the sequence reads [undefined], which
    [textContent] shows as the empty text. *)
Definition displayStretch : M unit :=
  do index <- gets currentStretchIndex;
  do sequence <- gets stretchSequence;
  do _ <- emit (Text "stretch-instruction" (default "" (sequence !! index)));
  do _ <- setStretch index sequence 30;
  do _ <- emit (Text "stretch-timer" (pretty 30 +:+ "s"));
  do _ <- emit (Progress (Z.of_nat index + 1) (Z.of_nat (length sequence)));
  do old <- gets stretchingInterval;
  do _ <- match old with
          | Some h => clearInterval h
          | None => ret tt
          end;
  do h <- setInterval StretchTick;
  setStretchingInterval (Some h).

(** [nextStretch()] *)
Definition nextStretch : M unit :=
  do index <- gets currentStretchIndex;
  do sequence <- gets stretchSequence;
  do countdown <- gets stretchCountdown;
  do _ <- setStretch (index + 1) sequence countdown;
  if bool_decide (index + 1 < length sequence)%nat then displayStretch
  else
    do _ <- stopStretchingExercise;
    emit (Alert "Great job! Stretching session complete! 🎉").

(** [startStretchingExercise(type)] *)
Definition startStretchingExercise (type : string) : M unit :=
  do _ <- emit (Display "stretching-modal" "flex");
  do countdown <- gets stretchCountdown;
  do _ <- setStretch 0 (stretchSteps type) countdown;
  displayStretch.

(** The arrow function handed to [setInterval] by [displayStretch]. *)
Definition stretchTick : M unit :=
  do index <- gets currentStretchIndex;
  do sequence <- gets stretchSequence;
  do countdown <- gets stretchCountdown;
  let countdown := countdown - 1 in
  do _ <- setStretch index sequence countdown;
  do _ <- emit (Text "stretch-timer" (pretty countdown +:+ "s"));
  if countdown <=? 0 then
    do h <- gets stretchingInterval;
    do _ <- match h with
            | Some h => clearInterval h
            | None => ret tt
            end;
    nextStretch
  else ret tt.

(** Writing back the variables of a breathing closure after it ran. *)
Definition keepClosure (h : positive) (phases : list Phase) (st : nat * Z) : M unit :=
  modify (fun v =>
    {| intervals := <[h := UpdateBreathing phases st.1 st.2]> (intervals v);
       nextHandle := nextHandle v;
       breathingInterval := breathingInterval v;
       stretchingInterval := stretchingInterval v;
       currentStretchIndex := currentStretchIndex v;
       stretchSequence := stretchSequence v;
       stretchCountdown := stretchCountdown v |}).

(** *** The page as an event loop *)

Inductive Stimulus :=
| ClickBreathing (type : string)   (* a .start-exercise-btn[data-exercise] *)
| ClickStopBreathing               (* close or stop button of the breathing modal *)
| ClickStretching (type : string)  (* a .start-exercise-btn[data-stretch] *)
| ClickNextStretch
| ClickStopStretching
| Tick (h : positive).             (* the interval with handle [h] comes due *)

Definition dispatch (ev : Stimulus) : M unit :=
  match ev with
  | ClickBreathing type => startBreathingExercise type
  | ClickStopBreathing => stopBreathingExercise
  | ClickStretching type => startStretchingExercise type
  | ClickNextStretch => nextStretch
  | ClickStopStretching => stopStretchingExercise
  | Tick h =>
      do fn <- gets (fun v => intervals v !! h);
      match fn with
      | None => ret tt
      | Some (UpdateBreathing phases phaseIndex countdown) =>
          do st <- updateBreathing phases phaseIndex countdown;
          keepClosure h phases st
      | Some StretchTick => stretchTick
      end
  end.

Definition advance (v : Vars) (ev : Stimulus) : Vars := vars_of (dispatch ev v).

Definition play (v : Vars) (evs : list Stimulus) : Vars := foldl advance v evs.

(** Which sequencer an interval belongs to. *)
Definition isBreathing (fn : Ticker) : bool :=
  match fn with
  | UpdateBreathing _ _ _ => true
  | StretchTick => false
  end.

(** The handles of the running intervals of a sequencer. *)
Definition running (which : Ticker -> bool) (v : Vars) : list positive :=
  (map_to_list (filter (fun kv => which kv.2 = true) (intervals v))).*1.

(** *** Notions used in the statements *)

Definition isStretching (fn : Ticker) : bool := negb (isBreathing fn).

(** The timer table is well formed: running handles are below the next
    fresh one, and a running stretching interval is the one
    [stretchingInterval] holds. *)
Record TimersOk (v : Vars) : Prop := {
  handles_fresh : forall h fn,
    intervals v !! h = Some fn -> (h < nextHandle v)%positive;
  stretch_owned : forall h,
    intervals v !! h = Some StretchTick -> stretchingInterval v = Some h
}.

(** The table after [if (stretchingInterval) clearInterval(stretchingInterval)]. *)
Definition clearStretching (v : Vars) : gmap positive Ticker :=
  match stretchingInterval v with
  | Some h => delete h (intervals v)
  | None => intervals v
  end.

(** Two clicks on the box-breathing button, and then the stop button. *)
Definition twoStarts : list Stimulus := [ClickBreathing "box"; ClickBreathing "box"].
Definition twoStartsThenStop : list Stimulus := twoStarts ++ [ClickStopBreathing].

End Exercise.

(** ** Regular expressions

    The patterns of the scripts that are anchored at both ends
    ([/^...$/.test(s)]) are written in a small syntax and decided by
    derivatives.  [Matches] is what a pattern means. *)
Module Regex.
Import Js.

Inductive re :=
| Never                        (* no string; only arises in derivatives *)
| Eps                          (* the empty string *)
| Class (cls : N -> bool)      (* one code unit of a class *)
| Seq (r1 r2 : re)             (* r1 r2 *)
| Alt (r1 r2 : re)             (* r1|r2 *)
| Star (r : re).               (* r* *)

(** [r+] *)
Definition Plus (r : re) : re := Seq r (Star r).

(** One given code unit. *)
Definition Chr (c : N) : re := Class (N.eqb c).

(** A literal string. *)
Fixpoint Lit (s : jsstring) : re :=
  match s with
  | [] => Eps
  | c :: s' => Seq (Chr c) (Lit s')
  end.

(** [r{n}] *)
Fixpoint Times (n : nat) (r : re) : re :=
  match n with
  | O => Eps
  | S n' => Seq r (Times n' r)
  end.

Fixpoint nullable (r : re) : bool :=
  match r with
  | Never => false
  | Eps => true
  | Class _ => false
  | Seq r1 r2 => nullable r1 && nullable r2
  | Alt r1 r2 => nullable r1 || nullable r2
  | Star _ => true
  end.

(** What is left of [r] after reading [c]. *)
Fixpoint deriv (c : N) (r : re) : re :=
  match r with
  | Never => Never
  | Eps => Never
  | Class cls => if cls c then Eps else Never
  | Seq r1 r2 =>
      if nullable r1 then Alt (Seq (deriv c r1) r2) (deriv c r2)
      else Seq (deriv c r1) r2
  | Alt r1 r2 => Alt (deriv c r1) (deriv c r2)
  | Star r1 => Seq (deriv c r1) (Star r1)
  end.

(** [/^r$/.test(s)] *)
Fixpoint matchb (r : re) (s : jsstring) : bool :=
  match s with
  | [] => nullable r
  | c :: s' => matchb (deriv c r) s'
  end.

Inductive Matches : re -> jsstring -> Prop :=
| MEps : Matches Eps []
| MClass cls c : cls c = true -> Matches (Class cls) [c]
| MSeq r1 r2 s1 s2 : Matches r1 s1 -> Matches r2 s2 -> Matches (Seq r1 r2) (s1 ++ s2)
| MAltL r1 r2 s : Matches r1 s -> Matches (Alt r1 r2) s
| MAltR r1 r2 s : Matches r2 s -> Matches (Alt r1 r2) s
| MStarNil r : Matches (Star r) []
| MStarApp r s1 s2 : Matches r s1 -> Matches (Star r) s2 -> Matches (Star r) (s1 ++ s2).

End Regex.

(** ** The field listeners of registration-form.js *)
Module Fields.
Import Js Regex.

(** A form control as the listeners see it: its value, the two classes
    they toggle, and the message of [setCustomValidity]. *)
Record Field := {
  value : jsstring;
  invalid : bool;               (* classList contains 'invalid' *)
  valid : bool;                 (* classList contains 'valid' *)
  customValidity : string
}.

Definition setValue (s : jsstring) (f : Field) : Field :=
  {| value := s; invalid := invalid f; valid := valid f;
     customValidity := customValidity f |}.

(** [classList.add('invalid'); classList.remove('valid')] *)
Definition markInvalid (f : Field) : Field :=
  {| value := value f; invalid := true; valid := false;
     customValidity := customValidity f |}.

(** [classList.remove('invalid'); classList.add('valid')] *)
Definition markValid (f : Field) : Field :=
  {| value := value f; invalid := false; valid := true;
     customValidity := customValidity f |}.

Definition setValid (b : bool) (f : Field) : Field :=
  {| value := value f; invalid := invalid f; valid := b;
     customValidity := customValidity f |}.

Definition setCustomValidity (msg : string) (f : Field) : Field :=
  {| value := value f; invalid := invalid f; valid := valid f;
     customValidity := msg |}.

(** [s !== ''] *)
Definition nonEmpty (s : jsstring) : bool := negb (streq s []).

(** *** E-mail *)

(** [[^\s@]] *)
Definition plain (c : N) : bool := negb (is_space c || (c =? 64)%N).

(** [/^[^\s@]+@[^\s@]+\.[^\s@]+$/] *)
Definition emailPattern : re :=
  Seq (Plus (Class plain))
      (Seq (Chr 64) (Seq (Plus (Class plain)) (Seq (Chr 46) (Plus (Class plain))))).

(** The [blur] listener of an e-mail field. *)
Definition onEmailBlur (f : Field) : Field :=
  if negb (matchb emailPattern (value f)) && nonEmpty (value f) then markInvalid f
  else if nonEmpty (value f) then markValid f
  else f.

(** *** Telephone *)

(** [s.replace(/\D/g, '')] *)
Definition digitsOf (s : jsstring) : jsstring := List.filter is_digit s.

(** [s.replace(/\s/g, '')] *)
Definition withoutSpaces (s : jsstring) : jsstring :=
  List.filter (fun c => negb (is_space c)) s.

(** [s.startsWith(p)] *)
Definition startsWith (p s : jsstring) : bool := streq (take (length p) s) p.

(** [s.slice(a, b)] and [s.slice(a)] for [0 <= a <= b]. *)
Definition slice (a b : nat) (s : jsstring) : jsstring := take (b - a) (drop a s).
Definition sliceFrom (a : nat) (s : jsstring) : jsstring := drop a s.

Definition is789 (c : N) : bool := in_range 55 57 c.
Definition is01 (c : N) : bool := in_range 48 49 c.

(** [/^(?:\+234|0)[789][01]\d{8}$/] *)
Definition phonePattern : re :=
  Seq (Alt (Lit (lit "+234")) (Lit (lit "0")))
      (Seq (Class is789) (Seq (Class is01) (Times 8 (Class is_digit)))).

(** The value the [blur] listener writes: the digits regrouped as
    [+234 XXX XXX XXXX] when they are a full number, else the value as it
    was. *)
Definition blurValue (v : jsstring) : jsstring :=
  let raw := digitsOf v in
  let raw := if startsWith (lit "0") raw && bool_decide (length raw = 11%nat)
             then lit "234" ++ sliceFrom 1 raw else raw in
  if startsWith (lit "234") raw && bool_decide (length raw = 13%nat) then
    lit "+" ++ slice 0 3 raw ++ lit " " ++ slice 3 6 raw ++ lit " "
    ++ slice 6 9 raw ++ lit " " ++ sliceFrom 9 raw
  else v.

(** The [blur] listener of a telephone field. *)
Definition onPhoneBlur (f : Field) : Field :=
  let f := setValue (blurValue (value f)) f in
  if negb (matchb phonePattern (withoutSpaces (value f))) && nonEmpty (value f)
  then markInvalid f
  else if nonEmpty (value f) then markValid f
  else f.

(** The value the [input] listener of a telephone field writes while the
    user types. *)
Definition typedValue (v : jsstring) : jsstring :=
  let value := digitsOf v in
  if bool_decide (0 < length value)%nat then
    let value :=
      if startsWith (lit "234") value then lit "+234 " ++ sliceFrom 3 value
      else if startsWith (lit "0") value then lit "+234 " ++ sliceFrom 1 value
      else value in
    let value :=
      if bool_decide (8 < length value)%nat
      then slice 0 8 value ++ lit " " ++ sliceFrom 8 value else value in
    let value :=
      if bool_decide (12 < length value)%nat
      then slice 0 12 value ++ lit " " ++ sliceFrom 12 value else value in
    slice 0 18 value
  else v.

Definition onPhoneInput (f : Field) : Field := setValue (typedValue (value f)) f.

(** *** Text *)

(** [s.replace(/\s+/g, ' ')]: every maximal run of white space becomes one
    space.  [inRun] tells that the unit before was white space. *)
Fixpoint collapseFrom (inRun : bool) (s : jsstring) : jsstring :=
  match s with
  | [] => []
  | c :: s' =>
      if is_space c then
        if inRun then collapseFrom true s' else 32%N :: collapseFrom true s'
      else c :: collapseFrom false s'
  end.

Definition collapse (s : jsstring) : jsstring := collapseFrom false s.

Definition onTextInput (f : Field) : Field := setValue (collapse (value f)) f.

(** The [input] listener of a required field (it is installed twice). *)
Definition onRequiredInput (f : Field) : Field :=
  if blank (value f) then setValid false f else setValid true f.

(** *** The two password fields *)

(** The [input] listener of the confirmation field. *)
Definition onConfirmInput (password : jsstring) (f : Field) : Field :=
  if negb (streq (value f) password) then
    markInvalid (setCustomValidity "Passwords do not match" f)
  else markValid (setCustomValidity "" f).

(** What the markup says about a control. *)
Inductive Kind := KText | KEmail | KTel | KOther.

Record Control := {
  field : Field;
  required : bool;              (* carries [required] *)
  kind : Kind                   (* its [type] *)
}.

Definition withField (f : Field) (c : Control) : Control :=
  {| field := f; required := required c; kind := kind c |}.

(** The listeners every control gets for [input], in the order they are
    installed: the two required-field listeners, the white-space listener
    of text and e-mail inputs, the formatter of telephone inputs. *)
Definition commonInput (c : Control) : Control :=
  let f := field c in
  let f := if required c then onRequiredInput (onRequiredInput f) else f in
  let f := match kind c with
           | KText | KEmail => onTextInput f
           | _ => f
           end in
  let f := match kind c with
           | KTel => onPhoneInput f
           | _ => f
           end in
  withField f c.

(** The counselor form's pair of password controls. *)
Record Passwords := { passwordField : Control; confirmPasswordField : Control }.

(** An [input] event on the confirmation field: its own listener first. *)
Definition confirmInput (p : Passwords) : Passwords :=
  let c := confirmPasswordField p in
  let f := onConfirmInput (value (field (passwordField p))) (field c) in
  {| passwordField := passwordField p;
     confirmPasswordField := commonInput (withField f c) |}.

(** An [input] event on the password field: when the confirmation holds
    something, an [input] event is dispatched on it first. *)
Definition passwordInput (p : Passwords) : Passwords :=
  let p := if nonEmpty (value (field (confirmPasswordField p)))
           then confirmInput p else p in
  {| passwordField := commonInput (passwordField p);
     confirmPasswordField := confirmPasswordField p |}.

(** The user edits one of the two fields. *)
Inductive Edit :=
| TypePassword (s : jsstring)
| TypeConfirm (s : jsstring).

Definition edit (p : Passwords) (e : Edit) : Passwords :=
  match e with
  | TypePassword s =>
      passwordInput
        {| passwordField := withField (setValue s (field (passwordField p)))
                                      (passwordField p);
           confirmPasswordField := confirmPasswordField p |}
  | TypeConfirm s =>
      confirmInput
        {| passwordField := passwordField p;
           confirmPasswordField := withField (setValue s (field (confirmPasswordField p)))
                                             (confirmPasswordField p) |}
  end.

Definition edits (p : Passwords) (es : list Edit) : Passwords := foldl edit p es.

(** *** Notions used in the statements *)

(** A full local number: [0], a digit of 7-9, a digit of 0-1, 8 digits. *)
Definition localNumber (d : jsstring) : Prop :=
  exists d1 d2 rest,
    d = [48%N; d1; d2] ++ rest /\ is789 d1 = true /\ is01 d2 = true
    /\ length rest = 8%nat /\ forallb is_digit rest = true.

(** The shape [+234 XXX XXX XXXX] over ten digits. *)
Definition canonical (d1 d2 : N) (rest : jsstring) : jsstring :=
  lit "+234 " ++ [d1; d2] ++ take 1 rest ++ lit " " ++ slice 1 4 rest
  ++ lit " " ++ sliceFrom 4 rest.

(** A string in groups of [a] units, 3 units and the rest, with one
    space between the groups that are there. *)
Definition grouped (a : nat) (w : jsstring) : jsstring :=
  if bool_decide (length w <= a)%nat then w
  else if bool_decide (length w <= a + 3)%nat then take a w ++ lit " " ++ drop a w
  else take a w ++ lit " " ++ take 3 (drop a w) ++ lit " " ++ drop (a + 3) w.

(** A telephone value in that shape whose digits the pattern accepts. *)
Definition canonicalNumber (s : jsstring) : Prop :=
  exists d1 d2 rest,
    s = canonical d1 d2 rest /\ is789 d1 = true /\ is01 d2 = true
    /\ length rest = 8%nat /\ forallb is_digit rest = true.

(** The confirmation differs from the password. *)
Definition differs (p : Passwords) : bool :=
  negb (streq (value (field (confirmPasswordField p)))
              (value (field (passwordField p)))).

(** The confirmation says what it should: it carries 'invalid' and the
    validity message exactly when it differs from the password. *)
Definition confirmAgrees (p : Passwords) : Prop :=
  invalid (field (confirmPasswordField p)) = differs p
  /\ customValidity (field (confirmPasswordField p))
     = (if differs p then "Passwords do not match" else "")%string.

(** Both controls are inputs of type [password]: neither the white-space
    listener nor the telephone formatter is installed on them. *)
Definition passwordControls (p : Passwords) : Prop :=
  kind (passwordField p) = KOther /\ kind (confirmPasswordField p) = KOther.

(** Two white-space units side by side somewhere in the string. *)
Fixpoint adjacentSpaces (s : jsstring) : bool :=
  match s with
  | [] => false
  | c :: t =>
      match t with
      | [] => false
      | d :: _ => (is_space c && is_space d) || adjacentSpaces t
      end
  end.

(** Every white-space unit of the string is U+0020. *)
Definition onlyPlainSpaces (s : jsstring) : bool :=
  forallb (fun c => negb (is_space c) || (c =? 32)%N) s.

Definition startsWithSpace (s : jsstring) : bool :=
  match s with
  | [] => false
  | c :: _ => is_space c
  end.

(** The units a telephone value is made of once the formatter ran: digits,
    [+] and the plain space. *)
Definition phoneUnit (c : N) : bool := is_digit c || (c =? 43)%N || (c =? 32)%N.

(** A blank page state for examples. *)
Definition emptyField : Field :=
  {| value := []; invalid := false; valid := false; customValidity := "" |}.

Definition passwordPair : Passwords :=
  {| passwordField := {| field := emptyField; required := true; kind := KOther |};
     confirmPasswordField := {| field := emptyField; required := true; kind := KOther |} |}.

(** The user empties the confirmation, then the password. *)
Definition emptied (p : Passwords) : Passwords :=
  edits p [TypeConfirm []; TypePassword []].

(** The pair after the same text was typed in both fields. *)
Definition matchingPair : Passwords :=
  edits passwordPair [TypePassword (lit "abc"); TypeConfirm (lit "abc")].

End Fields.

(** ** Whole exercise sessions of student_dashboard.js *)
Module Sessions.
Import Script Exercise.

(** One second of a stretching session: the interval that
    [stretchingInterval] holds comes due. *)
Definition stretchSecond (v : Vars) : Vars :=
  match stretchingInterval v with
  | Some h => advance v (Tick h)
  | None => v
  end.

Definition stretchSeconds (k : nat) (v : Vars) : Vars := Nat.iter k stretchSecond v.

(** What that second writes to the page. *)
Definition stretchWrites (v : Vars) : list Output :=
  match stretchingInterval v with
  | Some h => effects_of (dispatch (Tick h) v)
  | None => []
  end.

(** A session started after the events [evs]. *)
Definition stretchStart (evs : list Stimulus) (type : string) : Vars :=
  advance (play initial evs) (ClickStretching type).

(** Seconds of a breathing session: the interval with handle [h] comes
    due [k] times. *)
Definition breathSeconds (h : positive) (k : nat) (v : Vars) : Vars :=
  Nat.iter k (fun v => advance v (Tick h)) v.

(** One call of the closure [updateBreathing] seen from outside: its
    variables afterwards and what it wrote.  The closure reads no variable
    of the page, so any state will do to run it. *)
Definition callClosure (phases : list Phase) (st : nat * Z) : nat * Z :=
  match outcome_of (updateBreathing phases st.1 st.2 initial) with
  | Returned st' => st'
  | Threw _ => st
  end.

Definition shownBy (phases : list Phase) (st : nat * Z) : list Output :=
  effects_of (updateBreathing phases st.1 st.2 initial).

(** A breathing session started in state [v] and left for [t] seconds;
    its interval gets the handle that was fresh in [v]. *)
Definition breathing (type : string) (v : Vars) (t : nat) : Vars :=
  breathSeconds (nextHandle v) t (advance v (ClickBreathing type)).

(** *** Notions used in the statements *)

(** The counts a phase of [d] seconds goes through: [d], [d - 1], ..., [0]. *)
Definition countsOf (d : Z) : list Z :=
  (fun j => d - Z.of_nat j) <$> seq 0 (Z.to_nat d + 1).

(** A cycle call by call: each phase in turn with each of its counts. *)
Definition schedule (phases : list Phase) : list (nat * Z) :=
  mjoin (imap (fun i ph => (fun c => (i, c)) <$> countsOf (duration ph)) phases).

(** The entry of the schedule for call number [t], the calls being
    numbered from 0. *)
Definition callAt (phases : list Phase) (t : nat) : nat * Z :=
  default (0%nat, 0) (schedule phases !! (t mod length (schedule phases))%nat).

(** What a call in phase [i] with count [c] writes. *)
Definition display (phases : list Phase) (st : nat * Z) : list Output :=
  match phases !! st.1 with
  | Some ph =>
      [ Text "breathing-instruction" (p_text ph);
        Text "breathing-timer" (pretty st.2);
        Style "breathing-circle" "transform" ("scale(" +:+ scale ph +:+ ")");
        Style "breathing-circle" "transition"
              ("transform " +:+ pretty st.2 +:+ "s ease-in-out") ]
  | None => []
  end.

(** A session under way: step [i] of [sq] is shown with [c] seconds left
    and its interval runs. *)
Record Underway (sq : list string) (i : nat) (c : Z) (v : Vars) : Prop := {
  uw_ok : TimersOk v;
  uw_sequence : stretchSequence v = sq;
  uw_index : currentStretchIndex v = i;
  uw_countdown : stretchCountdown v = c;
  uw_timer : exists h, stretchingInterval v = Some h
                       /\ intervals v !! h = Some StretchTick
}.

(** A call of the closure in state [st] returns (it does not throw). *)
Definition returns (phases : list Phase) (st : nat * Z) : bool :=
  match outcome_of (updateBreathing phases st.1 st.2 initial) with
  | Returned _ => true
  | Threw _ => false
  end.

(** The closure follows the schedule through one whole cycle and back to
    its start; a finite check. *)
Definition followsSchedule (phases : list Phase) : bool :=
  bool_decide (0 < length (schedule phases))%nat
  && forallb (fun t => returns phases (callAt phases t)
                       && bool_decide (callClosure phases (callAt phases t)
                                       = callAt phases (S t)))
             (seq 0 (length (schedule phases))).

(** The seconds a cycle is announced to take: the sum of the durations. *)
Definition announced (phases : list Phase) : Z :=
  foldr (fun ph acc => duration ph + acc) 0 phases.

End Sessions.

(** ** Toasts and the permission state over whole runs *)
Module Toasts.
Import Script Notify.

(** The toasts in [#notification-container]; none while it does not exist. *)
Definition toasts (p : Page) : list Toast := default [] (container p).

(** The element name the next toast gets: the container is created first
    when it is not there yet. *)
Definition freshToast (p : Page) : nat :=
  match container p with
  | Some _ => nextNode p
  | None => S (nextNode p)
  end.

(** A toast in each stage of its life. *)
Definition inserted (t : nat) (flag : Flag) : Toast :=
  {| toast_id := t; toast_flag := flag; shown := false; hiding := false |}.

Definition visible (t : nat) (flag : Flag) : Toast :=
  {| toast_id := t; toast_flag := flag; shown := true; hiding := false |}.

Definition leaving (t : nat) (flag : Flag) : Toast :=
  {| toast_id := t; toast_flag := flag; shown := true; hiding := true |}.

(** The timers of one toast come due, in the order of their delays. *)
Definition lifecycle (flag : Flag) (t : nat) (now : string) : list Event :=
  [ EvTimer (CbShowInApp flag) now; EvTimer (CbToastShow t) now;
    EvTimer (CbToastHide t) now; EvTimer (CbToastRemove t) now ].

(** The names of the toasts on the page are names already handed out. *)
Definition ToastsFresh (p : Page) : Prop :=
  Forall (fun x => (toast_id x < nextNode p)%nat) (toasts p).

(** A page reached from load by the events [evs]. *)
Definition reached (api : bool) (perm : Permission) (audio : bool)
    (link : option (list Badge)) (tab button : bool) (evs : list Event) : Page :=
  (run (loaded api perm audio link tab button) evs).1.

(** The events of a trace whose handler asked for permission. *)
Definition askers (tr : list (Event * list Effect)) : list Event :=
  (filter (fun x => existsb isPermissionRequest x.2 = true) tr).*1.

(** The permission is granted by the prompt that a poll opened, and the
    user then clicks the enable button. *)
Definition grantedByPoll : list Event :=
  twoPolls
  ++ [ EvSettled (ThenNotify (summaryTitle 1) (Some someFlag)) Granted; EvClick ].

End Toasts.

(** ** Relative times: [getTimeAgo] of dashboard.js and [formatTime] of
    student_dashboard.js *)
Module TimeLabels.

(** A [Date] is its time value in milliseconds, or the invalid date that
    [new Date(s)] gives for a string it cannot read ([None]); subtracting
    one from [new Date()] gives the elapsed milliseconds or [NaN].  With
    [NaN] every comparison is false. *)
Definition getTimeAgo (now : Z) (date : option Z) : string :=
  match date with
  | None => "NaN days ago"
  | Some d =>
      let seconds := (now - d) / 1000 in
      if seconds <? 60 then "Just now"
      else if seconds <? 3600 then pretty (seconds / 60) +:+ " min ago"
      else if seconds <? 86400 then pretty (seconds / 3600) +:+ " hours ago"
      else pretty (seconds / 86400) +:+ " days ago"
  end.

(** [formatTime]; [toLocaleTimeString] is the browser's, taken as a
    parameter, and answers ['Invalid Date'] on the invalid date. *)
Definition formatTime (toLocaleTimeString : Z -> string) (now : Z) (date : option Z)
    : string :=
  match date with
  | None => "Invalid Date"
  | Some d =>
      let diff := (now - d) / 1000 in
      if diff <? 60 then "Just now"
      else if diff <? 3600 then pretty (diff / 60) +:+ " min ago"
      else if diff <? 86400 then pretty (diff / 3600) +:+ " hr ago"
      else toLocaleTimeString d
  end.

(** *** Notions used in the statements *)

Definition minute : Z := 60000.
Definition hour : Z := 3600000.
Definition day : Z := 86400000.

End TimeLabels.

(** ** The chat of student_dashboard.js *)
Module Chat.
Import Js Script.

(** The [timestamp] a message is displayed with: the default [new Date()]
    or [new Date(msg.timestamp)] of a stored message. *)
Inductive Stamp :=
| Fresh
| Stored (timestamp : string).

(** A child of [#chat-messages]: what the markup put there (the welcome
    message) or a message the script appended. *)
Inductive Shown :=
| Markup
| UserMessage (content : jsstring) (timestamp : Stamp)
| AIMessage (content : jsstring) (timestamp : Stamp).

(** A stored exchange as [/student/chat/history] lists it. *)
Record Past := { content : jsstring; ai_response : jsstring; timestamp : string }.

(** The decoded body of [/student/chat/send]: [null], or a value read
    through its [success] (as a truth value) and [ai_response] (missing:
    [None]). *)
Inductive SendBody :=
| SendNull
| SendReply (success : bool) (ai_response : option jsstring).

(** The decoded body of [/student/chat/history], read through [success]
    and [messages]. *)
Inductive HistoryBody :=
| HistoryNull
| HistoryReply (success : bool) (messages : option (list Past)).

(** How a request ends: the fetch fails, the body does not decode, or it
    decodes; [ok] is [response.ok]. *)
Inductive Settled (Body : Type) :=
| Rejected
| Undecodable (ok : bool)
| Answered (ok : bool) (body : Body).
Arguments Rejected {Body}.
Arguments Undecodable {Body} ok.
Arguments Answered {Body} ok body.

Inductive ChatEffect :=
| PostSend (message : jsstring) (session_id : string)  (* fetch('/student/chat/send', ...) *)
| GetHistory                                           (* fetch('/student/chat/history', ...) *)
| ChatError (msg : string) (error : option Exn).       (* console.error *)

Record ChatPage := {
  currentSessionId : string;
  chatHistoryLoaded : bool;
  chatInput : jsstring;              (* #chat-input.value *)
  chatMessages : list Shown;         (* children of #chat-messages *)
  typingIndicator : bool             (* #typing-indicator is displayed *)
}.

Abbreviation M := (Script.M ChatPage ChatEffect).

Definition setInput (s : jsstring) (p : ChatPage) : ChatPage :=
  {| currentSessionId := currentSessionId p; chatHistoryLoaded := chatHistoryLoaded p;
     chatInput := s; chatMessages := chatMessages p;
     typingIndicator := typingIndicator p |}.

Definition setMessages (ms : list Shown) (p : ChatPage) : ChatPage :=
  {| currentSessionId := currentSessionId p; chatHistoryLoaded := chatHistoryLoaded p;
     chatInput := chatInput p; chatMessages := ms;
     typingIndicator := typingIndicator p |}.

Definition setTyping (b : bool) (p : ChatPage) : ChatPage :=
  {| currentSessionId := currentSessionId p; chatHistoryLoaded := chatHistoryLoaded p;
     chatInput := chatInput p; chatMessages := chatMessages p;
     typingIndicator := b |}.

Definition setLoaded (b : bool) (p : ChatPage) : ChatPage :=
  {| currentSessionId := currentSessionId p; chatHistoryLoaded := b;
     chatInput := chatInput p; chatMessages := chatMessages p;
     typingIndicator := typingIndicator p |}.

(** [chatMessages.appendChild(messageDiv)] *)
Definition appendChild (m : Shown) : M unit :=
  modify (fun p => setMessages (chatMessages p ++ [m]) p).

Definition displayUserMessage (content : jsstring) (timestamp : Stamp) : M unit :=
  appendChild (UserMessage content timestamp).

Definition displayAIMessage (content : jsstring) (timestamp : Stamp) : M unit :=
  appendChild (AIMessage content timestamp).

Definition showTypingIndicator : M unit := modify (setTyping true).
Definition hideTypingIndicator : M unit := modify (setTyping false).

Definition troubleResponding : jsstring :=
  lit "I'm sorry, I'm having trouble responding right now. Please try again.".

Definition troubleConnecting : jsstring :=
  lit "I'm sorry, I'm having trouble connecting right now. Please try again.".

(** [sendMessage] up to its first [await]. *)
Definition sendMessage : M unit :=
  do input <- gets chatInput;
  let message := trim input in
  if streq message [] then ret tt
  else
    do _ <- displayUserMessage message Fresh;
    do _ <- modify (setInput []);
    do _ <- showTypingIndicator;
    do session <- gets currentSessionId;
    emit (PostSend message session).

(** The two [await]s of [sendMessage]: the fetch, then [response.json()]. *)
Definition awaitBody {Body} (r : Settled Body) : M Body :=
  match r with
  | Rejected => throw NetworkError
  | Undecodable _ => throw SyntaxError
  | Answered _ body => ret body
  end.

(** [sendMessage] from the first [await] on.  Reading [data.success] of
    [null] throws. *)
Definition sendSettled (r : Settled SendBody) : M unit :=
  try_catch
    (do data <- awaitBody r;
     do _ <- hideTypingIndicator;
     match data with
     | SendNull => throw TypeError
     | SendReply success ai_response =>
         match ai_response with
         | Some text =>
             if success && negb (streq text []) then displayAIMessage text Fresh
             else displayAIMessage troubleResponding Fresh
         | None => displayAIMessage troubleResponding Fresh
         end
     end)
    (fun error =>
       do _ <- hideTypingIndicator;
       do _ <- displayAIMessage troubleConnecting Fresh;
       emit (ChatError "Chat error:" (Some error))).

(** [loadChatHistory] up to its first [await]. *)
Definition loadChatHistory : M unit := emit GetHistory.

(** The [forEach] over the stored exchanges. *)
Fixpoint displayHistory (messages : list Past) : M unit :=
  match messages with
  | [] => ret tt
  | msg :: rest =>
      do _ <- displayUserMessage (content msg) (Stored (timestamp msg));
      do _ <- displayAIMessage (ai_response msg) (Stored (timestamp msg));
      displayHistory rest
  end.

(** [loadChatHistory] from the first [await] on. *)
Definition historySettled (r : Settled HistoryBody) : M unit :=
  try_catch
    (match r with
     | Rejected => throw NetworkError
     | Undecodable false | Answered false _ =>
         emit (ChatError "Failed to load chat history" None)
     | Undecodable true => throw SyntaxError
     | Answered true HistoryNull => throw TypeError
     | Answered true (HistoryReply success messages) =>
         match messages with
         | Some (msg :: rest) =>
             if success then
               do _ <- modify (setMessages []);
               do _ <- displayHistory (msg :: rest);
               modify (setLoaded true)
             else ret tt
         | _ => ret tt
         end
     end)
    (fun error => emit (ChatError "Error loading chat history:" (Some error))).

(** *** The chat as an event loop *)

Inductive ChatEvent :=
| Typed (text : jsstring)                 (* the user changes the text of #chat-input *)
| SendPressed                             (* the send button, or Enter without Shift *)
| SendSettled (r : Settled SendBody)      (* a send request settles *)
| ChatOpened                              (* page load, or the sidebar link of the chat section *)
| HistorySettled (r : Settled HistoryBody).

(** The sidebar link loads the history only while [chatHistoryLoaded] is
    false; the call at page load is made with the flag still false. *)
Definition chatHandle (ev : ChatEvent) : M unit :=
  match ev with
  | Typed text => modify (setInput text)
  | SendPressed => sendMessage
  | SendSettled r => sendSettled r
  | ChatOpened =>
      do loaded <- gets chatHistoryLoaded;
      when (negb loaded) loadChatHistory
  | HistorySettled r => historySettled r
  end.

Definition chatStep (p : ChatPage) (ev : ChatEvent) : ChatPage * list ChatEffect :=
  match chatHandle ev p with
  | (_, p', effs) => (p', effs)
  end.

Fixpoint chatRun (p : ChatPage) (evs : list ChatEvent) : ChatPage * list ChatEffect :=
  match evs with
  | [] => (p, [])
  | ev :: evs' =>
      let '(p1, effs) := chatStep p ev in
      let '(p2, effs') := chatRun p1 evs' in
      (p2, effs ++ effs')
  end.

(** *** Notions used in the statements *)

(** The text of the answer that a settled send request puts on the page. *)
Definition answerText (r : Settled SendBody) : jsstring :=
  match r with
  | Answered _ (SendReply true (Some text)) =>
      if streq text [] then troubleResponding else text
  | Answered _ (SendReply _ _) => troubleResponding
  | _ => troubleConnecting
  end.

(** The stored exchanges as the page shows them. *)
Definition exchanges (messages : list Past) : list Shown :=
  messages ≫= (fun msg => [ UserMessage (content msg) (Stored (timestamp msg));
                            AIMessage (ai_response msg) (Stored (timestamp msg)) ]).

(** The history request brought at least one exchange. *)
Definition brings (r : Settled HistoryBody) : option (list Past) :=
  match r with
  | Answered true (HistoryReply true (Some (msg :: rest))) => Some (msg :: rest)
  | _ => None
  end.

(** Two messages are sent before the first answer arrives, then one
    request settles. *)
Definition twoInFlight (t1 t2 : jsstring) (r : Settled SendBody) : list ChatEvent :=
  [Typed t1; SendPressed; Typed t2; SendPressed; SendSettled r].

Definition isPost (e : ChatEffect) : bool :=
  match e with
  | PostSend _ _ => true
  | _ => false
  end.

Definition isGet (e : ChatEffect) : bool :=
  match e with
  | GetHistory => true
  | _ => false
  end.

(** An example page: the welcome message, nothing typed. *)
Definition welcome : ChatPage :=
  {| currentSessionId := "session_1_abc"; chatHistoryLoaded := false;
     chatInput := []; chatMessages := [Markup]; typingIndicator := false |}.

End Chat.

(** ** The password listeners of the password-change form (dashboard.js)
    and of the reset page (reset_password.js) *)
Module Meters.
Import Js Password Script.

(** What a strength meter shows: the background of its four bars and the
    line of text under them with its colour. *)
Record Meter := { bars : list string; caption : string; captionColor : string }.

Definition grey : string := "#e2e8f0".

(** *** The reset page *)

(** [s.color] and [s.text] of [getStrength]'s result; a level that is not
    in the array would leave both [undefined]. *)
Definition colorOf (s : Scored) : string :=
  match s_level s with Some l => l_color l | None => "undefined" end.

Definition textOf (s : Scored) : string :=
  match s_level s with Some l => l_text l | None => "undefined" end.

(** [renderStrength]: the new content of [#password-strength], [None]
    for the empty content. *)
Definition renderStrength (pw : jsstring) : option Meter :=
  if streq pw [] then None
  else
    let s := getStrength pw in
    Some {| bars := (fun i => if i <=? score s then colorOf s else grey) <$> [1; 2; 3; 4];
            caption := textOf s; captionColor := colorOf s |}.

Record ResetPage := {
  newValue : jsstring;            (* #new_password.value *)
  confirmValue : jsstring;        (* #confirm_password.value *)
  strength : option Meter;            (* content of #password-strength *)
  matchText : string;                 (* #password-match-msg.textContent *)
  matchColor : string;                (* ... .style.color *)
  resetDisabled : bool                (* #reset-btn.disabled *)
}.

(** [checkMatch] of the reset page. *)
Definition checkMatchReset (p : ResetPage) : ResetPage :=
  let pw := newValue p in
  let cfm := confirmValue p in
  if streq cfm [] then
    {| newValue := pw; confirmValue := cfm; strength := strength p;
       matchText := ""; matchColor := matchColor p; resetDisabled := false |}
  else if streq pw cfm then
    {| newValue := pw; confirmValue := cfm; strength := strength p;
       matchText := "✓ Passwords match"; matchColor := "#38a169";
       resetDisabled := false |}
  else
    {| newValue := pw; confirmValue := cfm; strength := strength p;
       matchText := "✗ Passwords do not match"; matchColor := "#e53e3e";
       resetDisabled := true |}.

(** The user edits one of the two inputs; the value changes, then the
    [input] listener of that field runs. *)
Inductive PwEdit :=
| TypedNew (s : jsstring)
| TypedConfirm (s : jsstring).

Definition resetEdit (p : ResetPage) (e : PwEdit) : ResetPage :=
  match e with
  | TypedNew s =>
      checkMatchReset
        {| newValue := s; confirmValue := confirmValue p;
           strength := renderStrength s;
           matchText := matchText p; matchColor := matchColor p;
           resetDisabled := resetDisabled p |}
  | TypedConfirm s =>
      checkMatchReset
        {| newValue := newValue p; confirmValue := s;
           strength := strength p;
           matchText := matchText p; matchColor := matchColor p;
           resetDisabled := resetDisabled p |}
  end.

Definition resetEdits (p : ResetPage) (es : list PwEdit) : ResetPage := foldl resetEdit p es.

(** *** The password-change form of the dashboard *)

(** The strength indicator, the match message and the submit button may
    each be missing from the page ([None]). *)
Record ChangeForm := {
  newPasswordInput : jsstring;
  confirmPasswordInput : jsstring;
  strengthIndicator : option Meter;
  matchMessage : option (string * string);   (* textContent and style.color *)
  submitBtn : option bool                    (* disabled *)
}.

Abbreviation M := (Script.M ChangeForm unit).

Definition setMatchMessage (m : option (string * string)) (f : ChangeForm) : ChangeForm :=
  {| newPasswordInput := newPasswordInput f; confirmPasswordInput := confirmPasswordInput f;
     strengthIndicator := strengthIndicator f; matchMessage := m;
     submitBtn := submitBtn f |}.

Definition setSubmitBtn (b : option bool) (f : ChangeForm) : ChangeForm :=
  {| newPasswordInput := newPasswordInput f; confirmPasswordInput := confirmPasswordInput f;
     strengthIndicator := strengthIndicator f; matchMessage := matchMessage f;
     submitBtn := b |}.

Definition setStrengthIndicator (m : option Meter) (f : ChangeForm) : ChangeForm :=
  {| newPasswordInput := newPasswordInput f; confirmPasswordInput := confirmPasswordInput f;
     strengthIndicator := m; matchMessage := matchMessage f;
     submitBtn := submitBtn f |}.

(** [if (submitBtn) submitBtn.disabled = b] *)
Definition setDisabled (b : bool) : M unit :=
  modify (fun f => setSubmitBtn (match submitBtn f with
                                 | Some _ => Some b
                                 | None => None
                                 end) f).

(** [checkPasswordMatch]; writing a property of the missing match message
    throws. *)
Definition checkPasswordMatch : M unit :=
  do newPassword <- gets newPasswordInput;
  do confirmPassword <- gets confirmPasswordInput;
  do message <- gets matchMessage;
  match message with
  | None => throw TypeError
  | Some _ =>
      if streq confirmPassword [] then modify (setMatchMessage (Some ("", "")))
      else if streq newPassword confirmPassword then
        do _ <- modify (setMatchMessage (Some ("âœ“ Passwords match", "#48bb78")));
        setDisabled false
      else
        do _ <- modify (setMatchMessage (Some ("âœ— Passwords do not match", "#f56565")));
        setDisabled true
  end.

(** The content the strength listener writes. *)
Definition renderIndicator (password : jsstring) : Meter :=
  let strength := checkPasswordStrength password in
  {| bars := (fun i => if i <=? level strength then color strength else grey)
             <$> [1; 2; 3; 4];
     caption := text strength; captionColor := color strength |}.

(** The listeners of an [input] event, each run to its end or to its
    exception; the next one runs all the same. *)
Definition listener (m : M unit) (f : ChangeForm) : ChangeForm := vars_of (m f).

(** [input] on the new password: the strength listener when the indicator
    exists, then the match listener when the match message exists. *)
Definition onNewPassword (f : ChangeForm) : ChangeForm :=
  let f := match strengthIndicator f with
           | Some _ =>
               listener (do password <- gets newPasswordInput;
                         do _ <- modify (setStrengthIndicator
                                           (Some (renderIndicator password)));
                         checkPasswordMatch) f
           | None => f
           end in
  match matchMessage f with
  | Some _ => listener checkPasswordMatch f
  | None => f
  end.

Definition onConfirmPassword (f : ChangeForm) : ChangeForm :=
  match matchMessage f with
  | Some _ => listener checkPasswordMatch f
  | None => f
  end.

Definition changeEdit (f : ChangeForm) (e : PwEdit) : ChangeForm :=
  match e with
  | TypedNew s =>
      onNewPassword
        {| newPasswordInput := s; confirmPasswordInput := confirmPasswordInput f;
           strengthIndicator := strengthIndicator f; matchMessage := matchMessage f;
           submitBtn := submitBtn f |}
  | TypedConfirm s =>
      onConfirmPassword
        {| newPasswordInput := newPasswordInput f; confirmPasswordInput := s;
           strengthIndicator := strengthIndicator f; matchMessage := matchMessage f;
           submitBtn := submitBtn f |}
  end.

Definition changeEdits (f : ChangeForm) (es : list PwEdit) : ChangeForm :=
  foldl changeEdit f es.

(** *** Notions used in the statements *)

(** [n] bars in [c], the rest of the four grey. *)
Definition lit_bars (n : Z) (c : string) : list string :=
  replicate (Z.to_nat n) c ++ replicate (4 - Z.to_nat n) grey.

(** The confirmation is typed wrongly and then emptied. *)
Definition emptiedAfterMismatch (wrong : jsstring) : list PwEdit :=
  [TypedConfirm wrong; TypedConfirm []].

(** Example pages. *)
Definition blankReset : ResetPage :=
  {| newValue := []; confirmValue := []; strength := None;
     matchText := ""; matchColor := ""; resetDisabled := false |}.

Definition blankChange : ChangeForm :=
  {| newPasswordInput := []; confirmPasswordInput := []; strengthIndicator := Some
       {| bars := []; caption := ""; captionColor := "" |};
     matchMessage := Some ("", ""); submitBtn := Some false |}.

End Meters.

(** ** Tabs and the mobile menu of dashboard.js *)
Module Nav.

(** A [.sidebar-link] with its [data-tab], and a [.tab-content] with its
    [id]; [active] is the class. *)
Record Link := { data_tab : string; link_active : bool }.
Record Tab := { tab_id : string; tab_active : bool }.

(** The sidebar, the overlay and the page behind them; the sidebar or the
    overlay may be missing. *)
Record Dashboard := {
  sidebarLinks : list Link;
  tabContents : list Tab;
  sidebar : option bool;          (* .sidebar-left, and whether it is active *)
  overlay : option bool;          (* .sidebar-overlay, and whether it is active *)
  overflowHidden : bool           (* document.body.style.overflow is 'hidden' *)
}.














(** *** Notions used in the statements *)





(** An example page. *)
Definition examplePage : Dashboard :=
  {| sidebarLinks := [ {| data_tab := "overview"; link_active := true |};
                       {| data_tab := "flagged"; link_active := false |} ];
     tabContents := [ {| tab_id := "overview-tab"; tab_active := true |};
                      {| tab_id := "flagged-tab"; tab_active := false |} ];
     sidebar := Some false; overlay := Some false; overflowHidden := false |}.

End Nav.

(* ===================================================================== *)
(** * Part II: properties *)
(* ===================================================================== *)

(** ** Strings *)
Module JsFacts.
Import Js.

Lemma test_app (cls : N -> bool) (s t : jsstring) :
  test cls (s ++ t) = test cls s || test cls t.
Proof. unfold test. apply existsb_app. Qed.

Lemma strlen_app (s t : jsstring) : strlen (s ++ t) = strlen s + strlen t.
Proof. unfold strlen. rewrite length_app. lia. Qed.

Lemma strlen_nonneg (s : jsstring) : 0 <= strlen s.
Proof. unfold strlen. lia. Qed.

Lemma streq_true (a b : jsstring) : streq a b = true <-> a = b.
Proof. unfold streq. apply bool_decide_eq_true. Qed.

Lemma streq_false (a b : jsstring) : streq a b = false <-> a <> b.
Proof. unfold streq. apply bool_decide_eq_false. Qed.

Lemma trimStart_nil_iff (s : jsstring) :
  trimStart s = [] <-> forallb is_space s = true.
Proof.
  induction s as [|c s IH]; simpl; [done|].
  destruct (is_space c); simpl; [exact IH|].
  split; intros H; discriminate H.
Qed.

Lemma trimStart_head (s : jsstring) (c : N) (t : jsstring) :
  trimStart s = c :: t -> is_space c = false.
Proof.
  induction s as [|d s IH]; simpl; [done|].
  destruct (is_space d) eqn:Ed; [exact IH|].
  intros [= <- _]. exact Ed.
Qed.

(** A string trims to the empty string exactly when it consists of
    white space only. *)
Lemma blank_iff (s : jsstring) : blank s = true <-> forallb is_space s = true.
Proof.
  unfold blank, trim, trimEnd. rewrite streq_true. split.
  - intros H. apply trimStart_nil_iff.
    apply (f_equal (@rev N)) in H. rewrite rev_involutive in H. simpl in H.
    apply trimStart_nil_iff in H.
    destruct (trimStart s) as [|c t] eqn:E; [done|].
    pose proof (trimStart_head _ _ _ E) as Hc.
    rewrite forallb_forall in H. specialize (H c).
    rewrite H in Hc; [discriminate Hc|].
    apply in_rev. rewrite rev_involutive. by left.
  - intros H. apply trimStart_nil_iff in H. by rewrite H.
Qed.

End JsFacts.

(** ** Password strength *)
Module PasswordFacts.
Import Js JsFacts Password.

Lemma b2z_range (b : bool) : 0 <= b2z b <= 1.
Proof. destruct b; simpl; lia. Qed.

Lemma b2z_mono (a b : bool) : (a = true -> b = true) -> b2z a <= b2z b.
Proof. destruct a, b; simpl; intros H; try lia; by specialize (H eq_refl). Qed.

Lemma b2z_strict (a b : bool) : a = false -> b = true -> b2z a < b2z b.
Proof. intros -> ->. simpl. lia. Qed.

(** Each criterion, once met, stays met when characters are appended. *)
Lemma long8_app pw s : long8 pw = true -> long8 (pw ++ s) = true.
Proof. unfold long8. rewrite strlen_app. pose proof (strlen_nonneg s). lia. Qed.

Lemma long12_app pw s : long12 pw = true -> long12 (pw ++ s) = true.
Proof. unfold long12. rewrite strlen_app. pose proof (strlen_nonneg s). lia. Qed.

Lemma mixed_app pw s : mixed pw = true -> mixed (pw ++ s) = true.
Proof.
  unfold mixed. rewrite !test_app. intros [-> ->]%andb_true_iff. done.
Qed.

Lemma digit_app pw s : digit pw = true -> digit (pw ++ s) = true.
Proof. unfold digit. rewrite test_app. by intros ->. Qed.

Lemma symbol_app pw s : symbol pw = true -> symbol (pw ++ s) = true.
Proof. unfold symbol. rewrite test_app. by intros ->. Qed.

Lemma criteria_range pw : 0 <= criteria pw <= 5.
Proof.
  unfold criteria.
  pose proof (b2z_range (long8 pw)). pose proof (b2z_range (long12 pw)).
  pose proof (b2z_range (mixed pw)). pose proof (b2z_range (digit pw)).
  pose proof (b2z_range (symbol pw)). lia.
Qed.

Lemma criteria_app pw s : criteria pw <= criteria (pw ++ s).
Proof.
  unfold criteria.
  pose proof (b2z_mono _ _ (long8_app pw s)).
  pose proof (b2z_mono _ _ (long12_app pw s)).
  pose proof (b2z_mono _ _ (mixed_app pw s)).
  pose proof (b2z_mono _ _ (digit_app pw s)).
  pose proof (b2z_mono _ _ (symbol_app pw s)). lia.
Qed.

(** Appended characters that satisfy a criterion unmet so far raise the
    count. *)
Lemma criteria_app_strict pw s crit :
  crit ∈ allCriteria -> crit pw = false -> crit (pw ++ s) = true ->
  criteria pw < criteria (pw ++ s).
Proof.
  intros Hin Hf Ht. unfold criteria.
  pose proof (b2z_mono _ _ (long8_app pw s)).
  pose proof (b2z_mono _ _ (long12_app pw s)).
  pose proof (b2z_mono _ _ (mixed_app pw s)).
  pose proof (b2z_mono _ _ (digit_app pw s)).
  pose proof (b2z_mono _ _ (symbol_app pw s)).
  unfold allCriteria in Hin.
  repeat (apply elem_of_cons in Hin as [->|Hin]);
    [..|by apply elem_of_nil in Hin];
    pose proof (b2z_strict _ _ Hf Ht); lia.
Qed.

Lemma level_criteria pw : level (checkPasswordStrength pw) = criteria pw.
Proof. unfold checkPasswordStrength. by repeat case_match. Qed.

Lemma text_labelOf pw :
  text (checkPasswordStrength pw) = labelOf (level (checkPasswordStrength pw)).
Proof.
  pose proof (criteria_range pw) as Hr. rewrite level_criteria.
  unfold checkPasswordStrength, labelOf.
  repeat case_match; simpl; try done; lia.
Qed.

Lemma labelOf_defined s : labelOf s ∈ dashboardLabels.
Proof.
  unfold labelOf, dashboardLabels. repeat case_match; set_solver.
Qed.

Lemma getStrength_level pw :
  s_level (getStrength pw) = levels !! Z.to_nat (score (getStrength pw)).
Proof.
  pose proof (criteria_range pw). unfold getStrength. simpl.
  f_equal. lia.
Qed.

Lemma getStrength_defined pw :
  exists l, s_level (getStrength pw) = Some l /\ l ∈ levels.
Proof.
  pose proof (criteria_range pw) as Hr. rewrite getStrength_level.
  simpl. destruct (levels !! Z.to_nat (criteria pw)) as [l|] eqn:E.
  - exists l. split; [done|]. by eapply list_elem_of_lookup_2.
  - apply lookup_ge_None in E. simpl in E. lia.
Qed.

(** C6. Appending characters (one code unit or several, so any character)
    never lowers the score of either meter ([checkPasswordStrength] of the
    dashboard, [getStrength] of the reset page), whether or not they meet
    a new criterion, and raises it when they meet a criterion unmet so
    far; the score lies between 0 and 5; and the label is a function of
    the score that always lands in the meter's list of labels. *)
Theorem strength_score_monotone_bounded (pw s : Js.jsstring) :
  level (checkPasswordStrength pw) <= level (checkPasswordStrength (pw ++ s))
  /\ score (getStrength pw) <= score (getStrength (pw ++ s))
  /\ (forall crit, crit ∈ allCriteria -> crit pw = false -> crit (pw ++ s) = true ->
      level (checkPasswordStrength pw) < level (checkPasswordStrength (pw ++ s))
      /\ score (getStrength pw) < score (getStrength (pw ++ s)))
  /\ 0 <= level (checkPasswordStrength pw) <= 5
  /\ 0 <= score (getStrength pw) <= 5
  /\ text (checkPasswordStrength pw) = labelOf (level (checkPasswordStrength pw))
  /\ text (checkPasswordStrength pw) ∈ dashboardLabels
  /\ s_level (getStrength pw) = levels !! Z.to_nat (score (getStrength pw))
  /\ (exists l, s_level (getStrength pw) = Some l /\ l ∈ levels).
Proof.
  rewrite !level_criteria. cbn [score getStrength].
  pose proof (criteria_range pw). pose proof (criteria_app pw s).
  split; [lia|]. split; [lia|]. split.
  { intros crit Hin Hf Ht. pose proof (criteria_app_strict pw s crit Hin Hf Ht). lia. }
  split; [lia|]. split; [lia|]. split.
  { rewrite <- level_criteria. apply text_labelOf. }
  split.
  { rewrite text_labelOf. apply labelOf_defined. }
  split.
  { exact (getStrength_level pw). }
  apply getStrength_defined.
Qed.

(** C7. [checkPasswordStrength("abc")] has score 0 and the weakest label,
    'Weak password'; [checkPasswordStrength("Abcdef12!")] meets the
    length-8, mixed-case, digit and symbol criteria (not length-12), has
    score 4 and the label of the Strong tier, 'Strong password'. *)
Theorem strength_examples :
  checkPasswordStrength (lit "abc")
    = {| level := 0; text := "Weak password"; color := "#f56565" |}
  /\ long8 (lit "Abcdef12!") = true
  /\ long12 (lit "Abcdef12!") = false
  /\ mixed (lit "Abcdef12!") = true
  /\ digit (lit "Abcdef12!") = true
  /\ symbol (lit "Abcdef12!") = true
  /\ checkPasswordStrength (lit "Abcdef12!")
    = {| level := 4; text := "Strong password"; color := "#48bb78" |}
  /\ labelOf 4 = "Strong password"
  /\ l_text <$> s_level (getStrength (lit "Abcdef12!")) = Some "Strong"%string.
Proof. repeat split; vm_compute; reflexivity. Qed.

End PasswordFacts.

(** ** Submit validation *)
Module FormsFacts.
Import Js JsFacts Forms.

Lemma prevented_app (a b : list FormEffect) :
  prevented (a ++ b) = prevented a || prevented b.
Proof.
  unfold prevented. apply eq_true_iff_eq.
  rewrite orb_true_iff, !bool_decide_eq_true. apply elem_of_app.
Qed.

(** The checks never block by themselves: they only record. *)
Lemma checkField_prevented c fld :
  prevented (done_effects (checkField c fld)) = prevented (done_effects c).
Proof.
  unfold checkField. destruct (blank _); simpl;
    rewrite prevented_app; simpl; apply orb_false_r.
Qed.

Lemma foldl_checkField_prevented flds c :
  prevented (done_effects (foldl checkField c flds)) = prevented (done_effects c).
Proof.
  revert c. induction flds as [|fld flds IH]; intros c; simpl; [done|].
  rewrite IH. apply checkField_prevented.
Qed.

Lemma checkRequired_prevented p : prevented (done_effects (checkRequired p)) = false.
Proof. unfold checkRequired. by rewrite foldl_checkField_prevented. Qed.

Lemma checkMatch_prevented pw cf c :
  prevented (done_effects (checkMatch pw cf c)) = prevented (done_effects c).
Proof.
  unfold checkMatch. destruct pw as [[i a]|], cf as [[j b]|]; try done.
  destruct (negb _); [|done]. simpl. rewrite prevented_app. apply orb_false_r.
Qed.

Lemma checkLength_prevented pw c :
  prevented (done_effects (checkLength pw c)) = prevented (done_effects c).
Proof.
  unfold checkLength. destruct pw as [[i a]|]; [|done].
  destruct (_ <? _); [|done]. simpl. rewrite prevented_app. apply orb_false_r.
Qed.

(** [isValid] after the loop over the required fields. *)
Lemma foldl_checkField_invalid flds c :
  isValid (foldl checkField c flds) = false <->
  isValid c = false \/ exists fld, fld ∈ flds /\ blank (value fld.2) = true.
Proof.
  revert c. induction flds as [|fld flds IH]; intros c; simpl.
  - split; [by left|]. intros [H|(fld & H0 & _)]; [done|].
    by apply elem_of_nil in H0.
  - rewrite IH. unfold checkField at 1. destruct (blank (value fld.2)) eqn:E; simpl.
    + split; [|by left]. intros _. right. exists fld. split; [left|done].
    + split.
      * intros [H|(x & Hx & Hb)]; [by left|]. right. exists x. split; [by right|done].
      * intros [H|(x & Hx & Hb)]; [by left|]. right. exists x. split; [|done].
        apply elem_of_cons in Hx as [->|Hx]; [congruence|done].
Qed.

Lemma checkRequired_invalid p :
  isValid (checkRequired p) = false <-> someRequiredBlank p.
Proof.
  unfold someRequiredBlank, checkRequired.
  rewrite foldl_checkField_invalid. simpl. split; [|by right].
  by intros [H|H].
Qed.

Lemma checkMatch_invalid pw cf c :
  isValid (checkMatch pw cf c) = false <->
  isValid c = false
  \/ exists i a j b, pw = Some (i, a) /\ cf = Some (j, b) /\ value a <> value b.
Proof.
  unfold checkMatch. destruct pw as [[i a]|], cf as [[j b]|];
    try (split; [by left|intros [H|(?&?&?&?&?&?&?)]; [done|discriminate]]).
  destruct (streq (value a) (value b)) eqn:E; simpl.
  - apply streq_true in E. split; [by left|].
    intros [H|(?&?&?&?&[= <- <-]&[= <- <-]&Hne)]; [done|]. by destruct Hne.
  - apply streq_false in E. split; [|done]. intros _. right. by exists i, a, j, b.
Qed.

Lemma checkLength_invalid pw c :
  isValid (checkLength pw c) = false <->
  isValid c = false \/ exists i a, pw = Some (i, a) /\ strlen (value a) < 8.
Proof.
  unfold checkLength. destruct pw as [[i a]|];
    [|split; [by left|intros [H|(?&?&?&?)]; [done|discriminate]]].
  destruct (strlen (value a) <? 8) eqn:E; simpl.
  - split; [|done]. intros _. right. exists i, a. split; [done|lia].
  - split; [by left|]. intros [H|(?&?&[= <- <-]&Hlt)]; [done|lia].
Qed.

(** The submit event of the registration form is blocked exactly when the
    handler's [isValid] ended up false. *)
Lemma onSubmit_prevented p :
  prevented (effects (onSubmit p))
  = negb (isValid (checkLength (getElementById passwordId p)
                     (checkMatch (getElementById passwordId p)
                        (getElementById confirmId p) (checkRequired p)))).
Proof.
  unfold onSubmit.
  set (c := checkLength _ _).
  assert (Hc : prevented (done_effects c) = false).
  { subst c. by rewrite checkLength_prevented, checkMatch_prevented,
      checkRequired_prevented. }
  destruct (isValid c); simpl.
  - rewrite prevented_app, Hc. by destruct (submitButton p).
  - destruct (generalAlert _ _); simpl;
      rewrite ?prevented_app, Hc; reflexivity.
Qed.

Lemma onPasswordSubmit_prevented f :
  prevented (onPasswordSubmit f) = true <->
  new_password f <> confirm_password f \/ strlen (new_password f) < 8.
Proof.
  unfold onPasswordSubmit.
  destruct (streq (new_password f) (confirm_password f)) eqn:E; simpl.
  - apply streq_true in E.
    destruct (strlen (new_password f) <? 8) eqn:L; simpl.
    + split; [|done]. intros _. right. lia.
    + split; [done|]. intros [H|H]; [done|lia].
  - apply streq_false in E. split; [|done]. by left.
Qed.

(** C8, as the code has it.  The registration form is blocked exactly when
    a required field is empty after trimming, or both password fields are
    there and differ, or the password field is there with fewer than 8
    characters; otherwise the handler neither blocks nor throws.  The
    password-change form is blocked exactly when its two fields differ or
    the new password has fewer than 8 characters: that handler makes no
    trimmed-emptiness test. *)
Theorem submit_blocked_exactly (p : Forms.FormPage) (f : Forms.PasswordForm) :
  (prevented (effects (onSubmit p)) = true <->
     someRequiredBlank p \/ passwordsDiffer p \/ passwordShort p)
  /\ (~ (someRequiredBlank p \/ passwordsDiffer p \/ passwordShort p) ->
       prevented (effects (onSubmit p)) = false /\ threw (onSubmit p) = false)
  /\ (prevented (onPasswordSubmit f) = true <->
       new_password f <> confirm_password f \/ strlen (new_password f) < 8).
Proof.
  assert (H : prevented (effects (onSubmit p)) = true <->
     someRequiredBlank p \/ passwordsDiffer p \/ passwordShort p).
  { rewrite onSubmit_prevented, negb_true_iff, checkLength_invalid,
      checkMatch_invalid, checkRequired_invalid.
    unfold passwordsDiffer, passwordShort. tauto. }
  split; [exact H|]. split; [|apply onPasswordSubmit_prevented].
  intros Hn. assert (Hp : prevented (effects (onSubmit p)) = false).
  { apply not_true_iff_false. by rewrite H. }
  split; [done|]. rewrite onSubmit_prevented in Hp.
  apply negb_false_iff in Hp. unfold onSubmit.
  by rewrite Hp.
Qed.

(** C8 as stated fails on the password-change form: with eight spaces in
    both fields a field is empty after trimming, yet nothing is blocked. *)
Lemma blank_password_not_blocked :
  specBlocks eightSpaces /\ prevented (onPasswordSubmit eightSpaces) = false
  /\ ~ (prevented (onPasswordSubmit eightSpaces) = true <-> specBlocks eightSpaces).
Proof.
  assert (Hb : specBlocks eightSpaces).
  { left. left. vm_compute. reflexivity. }
  assert (Hp : prevented (onPasswordSubmit eightSpaces) = false).
  { vm_compute. reflexivity. }
  split; [exact Hb|]. split; [exact Hp|].
  intros [_ H]. specialize (H Hb). congruence.
Qed.

End FormsFacts.

(** ** The notification system *)
Module NotifyFacts.
Import Script Notify.

(** *** The handlers in closed form *)

Lemma forEachFrom_timers (k : Z) (fl : list Flag) (p : Page) :
  forEachFrom k fl (fun flag index => setTimeout (CbShowInApp flag) (index * 500)) p
  = (Returned tt, p,
     imap (fun i flag => SetTimeout (CbShowInApp flag) ((k + Z.of_nat i) * 500)) fl).
Proof.
  revert k. induction fl as [|flag fl IH]; intros k; [done|].
  cbn [forEachFrom]. unfold bind at 1. unfold setTimeout at 1, emit at 1.
  rewrite IH. cbn [imap app]. rewrite Z.add_0_r. do 2 f_equal.
  apply imap_ext. intros i x _. simpl. f_equal. lia.
Qed.

Lemma scheduleToasts_run (data : Data) (n : Z) (p : Page) :
  scheduleToasts data n p = (Returned tt, p, toastTimers (flags data) n).
Proof.
  unfold scheduleToasts, forEach, toastTimers. rewrite forEachFrom_timers.
  do 2 f_equal.
Qed.

Lemma showBrowserNotification_run title flag p :
  showBrowserNotification title flag p
  = (if browserThrows p flag then Threw TypeError else Returned tt, p,
     browserEffects p title flag).
Proof.
  destruct p as [dash last api perm audio link tab btn cont nn].
  destruct api, perm, flag; reflexivity.
Qed.

Lemma browserEffects_cases p title flag :
  browserEffects p title flag =
  if notificationApi p then
    match permission p, flag with
    | Granted, Some f =>
        [NewNotification title
           ("Student: " +:+ student_name f +:+ newline
            +:+ "Keywords: " +:+ join ", " (keywords f))]
    | Granted, None => []
    | Denied, _ => []
    | Default, _ => [RequestPermission (ThenNotify title flag)]
    end
  else [].
Proof.
  destruct p as [dash last api perm audio link tab btn cont nn].
  destruct api, perm, flag; reflexivity.
Qed.

Lemma playNotificationSound_run p :
  playNotificationSound p
  = (if audioContext p then Returned tt else Threw TypeError, p,
     if audioContext p then [PlaySound] else []).
Proof. destruct p as [dash last api perm [] link tab btn cont nn]; reflexivity. Qed.

Lemma updateNotificationBadge_run n p :
  updateNotificationBadge n p = (Returned tt, badgeAfter n p, badgeEffects n p).
Proof.
  unfold badgeAfter, badgeEffects.
  destruct p as [dash last api perm audio [bs|] tab btn cont nn]; [|done].
  unfold updateNotificationBadge, createElement. run_handler. cbn.
  by destruct (0 <? n).
Qed.

(** A badge update touches the flagged link and the element counter only. *)
Lemma badgeAfter_fields n p :
  lastNotificationCount (badgeAfter n p) = lastNotificationCount p
  /\ flaggedTabActive (badgeAfter n p) = flaggedTabActive p
  /\ permission (badgeAfter n p) = permission p
  /\ notificationApi (badgeAfter n p) = notificationApi p.
Proof.
  unfold badgeAfter.
  destruct p as [dash last api perm audio [bs|] tab btn cont nn]; [|done].
  unfold updateNotificationBadge, createElement. run_handler. cbn.
  by destruct (0 <? n).
Qed.

Lemma badgeEffects_cases n p :
  badgeEffects n p = [] \/ exists b, badgeEffects n p = [SetTimeout (CbBounce b) 100].
Proof.
  unfold badgeEffects.
  destruct p as [dash last api perm audio [bs|] tab btn cont nn]; [|by left].
  unfold updateNotificationBadge, createElement. run_handler. cbn.
  destruct (0 <? n); [right; by eexists|by left].
Qed.

(** The [try] block on a decoded response, case by case. *)
Lemma checkBody_decoded data p :
  checkBody (Decoded data) p =
  let last := lastNotificationCount p in
  let n := count data - last in
  let alert := toastTimers (flags data) n
               ++ browserEffects p (summaryTitle n) (flags data !! 0%nat) in
  let after := setLast (count data) (badgeAfter (count data) p) in
  if isNew (count data) last then
    if browserThrows p (flags data !! 0%nat) then (Threw TypeError, p, alert)
    else if audioContext p then
      (Returned tt, after,
       alert ++ [PlaySound] ++ badgeEffects (count data) p
       ++ (if flaggedTabActive p then [LocationReload] else []))
    else (Threw TypeError, p, alert)
  else (Returned tt, after, badgeEffects (count data) p).
Proof.
  cbv zeta. unfold checkBody, awaitData.
  destruct (badgeAfter_fields (count data) p) as (Hl & Ht & _).
  run_handler.
  destruct (isNew (count data) (lastNotificationCount p)) eqn:Hnew.
  - rewrite scheduleToasts_run. cbv beta iota. rewrite showBrowserNotification_run.
    destruct (browserThrows _ _); cbv beta iota; [norm_effects; reflexivity|].
    rewrite playNotificationSound_run.
    destruct (audioContext p); cbv beta iota; [|norm_effects; reflexivity].
    rewrite updateNotificationBadge_run. cbv beta iota.
    rewrite Hl, Ht, Hnew.
    destruct (flaggedTabActive p); cbn [andb]; cbv beta iota;
      norm_effects; reflexivity.
  - rewrite updateNotificationBadge_run. cbv beta iota.
    rewrite Hl, Ht, Hnew, andb_false_r. norm_effects. reflexivity.
Qed.

Lemma isNew_true count last : isNew count last = true <-> last < count /\ 0 < last.
Proof. unfold isNew. rewrite andb_true_iff. lia. Qed.

Lemma isNew_false count last : isNew count last = false <-> ~ (last < count /\ 0 < last).
Proof. rewrite <- isNew_true. symmetry. apply not_true_iff_false. Qed.

(** The whole poll, [catch] included. *)
Lemma poll_decoded data p :
  checkForNewNotifications (Decoded data) p =
  match checkBody (Decoded data) p with
  | (Returned _, p', effs) => (Returned tt, p', effs)
  | (Threw e, p', effs) =>
      (Returned tt, p', effs ++ [ConsoleError "Notification check failed:" e])
  end.
Proof.
  unfold checkForNewNotifications, try_catch.
  destruct (checkBody (Decoded data) p) as [[[[]|e] p'] effs]; reflexivity.
Qed.

Lemma poll_rejected r p :
  r = FetchRejected \/ r = JsonRejected ->
  exists e, checkForNewNotifications r p
            = (Returned tt, p, [ConsoleError "Notification check failed:" e]).
Proof. intros [-> | ->]; eexists; reflexivity. Qed.

(** *** Sorting effects by kind *)

Lemma filter_keep {A} (P : A -> bool) (l : list A) :
  Forall (fun x => P x = true) l -> filter (fun x => P x) l = l.
Proof.
  induction 1 as [|x l Hx _ IH]; [done|].
  rewrite filter_cons_True; [by rewrite IH|]. rewrite Hx. exact I.
Qed.

Lemma filter_drop {A} (P : A -> bool) (l : list A) :
  Forall (fun x => P x = false) l -> filter (fun x => P x) l = [].
Proof.
  induction 1 as [|x l Hx _ IH]; [done|].
  rewrite filter_cons_False; [exact IH|]. rewrite Hx. exact id.
Qed.

Lemma toastTimers_lookup fl n (i : nat) :
  toastTimers fl n !! i
  = (fun flag => SetTimeout (CbShowInApp flag) (Z.of_nat i * 500)) <$> slice0 fl n !! i.
Proof. unfold toastTimers. apply list_lookup_imap. Qed.

Lemma toastTimers_toasts fl n :
  Forall (fun e => isToast e = true /\ isBrowserNotification e = false /\ isSound e = false)
         (toastTimers fl n).
Proof.
  apply Forall_lookup. intros i e. rewrite toastTimers_lookup.
  destruct (slice0 fl n !! i); simpl; [|done]. by intros [= <-].
Qed.

Lemma browserEffects_browser p title flag :
  Forall (fun e => isToast e = false /\ isBrowserNotification e = true /\ isSound e = false)
         (browserEffects p title flag).
Proof.
  rewrite browserEffects_cases.
  destruct (notificationApi p), (permission p), flag; repeat constructor.
Qed.

Lemma badgeEffects_quiet n p :
  Forall (fun e => isToast e = false /\ isBrowserNotification e = false /\ isSound e = false)
         (badgeEffects n p).
Proof.
  destruct (badgeEffects_cases n p) as [-> | [b ->]]; repeat constructor.
Qed.

Lemma reload_quiet (b : bool) :
  Forall (fun e => isToast e = false /\ isBrowserNotification e = false /\ isSound e = false)
         (if b then [LocationReload] else []).
Proof. destruct b; repeat constructor. Qed.

Lemma sorted_nil : Sorted [] [] [] false.
Proof. split; [done|done|]. split; [by intros ?%elem_of_nil|done]. Qed.

Lemma sorted_app e1 t1 b1 s1 e2 t2 b2 s2 :
  Sorted e1 t1 b1 s1 -> Sorted e2 t2 b2 s2 ->
  Sorted (e1 ++ e2) (t1 ++ t2) (b1 ++ b2) (s1 || s2).
Proof.
  intros [T1 B1 S1] [T2 B2 S2]. split.
  - by rewrite filter_app, T1, T2.
  - by rewrite filter_app, B1, B2.
  - rewrite elem_of_app, S1, S2, orb_true_iff. done.
Qed.

Lemma sorted_toastTimers fl n : Sorted (toastTimers fl n) (toastTimers fl n) [] false.
Proof.
  pose proof (toastTimers_toasts fl n) as H. split.
  - apply filter_keep. eapply Forall_impl; [exact H|]. by intros e (?&?&?).
  - apply filter_drop. eapply Forall_impl; [exact H|]. by intros e (?&?&?).
  - split; [|done]. intros Hin. rewrite Forall_forall in H.
    by destruct (H _ Hin) as (_&_&?).
Qed.

Lemma sorted_browserEffects p title flag :
  Sorted (browserEffects p title flag) [] (browserEffects p title flag) false.
Proof.
  pose proof (browserEffects_browser p title flag) as H. split.
  - apply filter_drop. eapply Forall_impl; [exact H|]. by intros e (?&?&?).
  - apply filter_keep. eapply Forall_impl; [exact H|]. by intros e (?&?&?).
  - split; [|done]. intros Hin. rewrite Forall_forall in H.
    by destruct (H _ Hin) as (_&_&?).
Qed.

Lemma sorted_quiet effs :
  Forall (fun e => isToast e = false /\ isBrowserNotification e = false /\ isSound e = false)
         effs ->
  Sorted effs [] [] false.
Proof.
  intros H. split.
  - apply filter_drop. eapply Forall_impl; [exact H|]. by intros e (?&?&?).
  - apply filter_drop. eapply Forall_impl; [exact H|]. by intros e (?&?&?).
  - split; [|done]. intros Hin. rewrite Forall_forall in H.
    by destruct (H _ Hin) as (_&_&?).
Qed.

Lemma sorted_sound_only : Sorted [PlaySound] [] [] true.
Proof. split; [done|done|]. split; [done|]. intros _. apply list_elem_of_here. Qed.

Lemma sorted_error msg e : Sorted [ConsoleError msg e] [] [] false.
Proof. apply sorted_quiet. repeat constructor. Qed.

(** What a poll on a decoded response does, in every case: without a new
    count only the badge; with one, the toasts and the browser channel, and
    the sound unless the alert threw on the way. *)
Lemma poll_sorted data p :
  let last := lastNotificationCount p in
  let n := count data - last in
  let effs := pollEffects (Decoded data) p in
  if isNew (count data) last then
    exists sound,
      Sorted effs (toastTimers (flags data) n)
             (browserEffects p (summaryTitle n) (flags data !! 0%nat)) sound
      /\ (sound = true <-> completes (Decoded data) p)
  else
    effs = badgeEffects (count data) p /\ Sorted effs [] [] false
    /\ completes (Decoded data) p.
Proof.
  cbv zeta. unfold pollEffects, completes. rewrite poll_decoded, checkBody_decoded.
  cbv zeta.
  pose proof (sorted_toastTimers (flags data) (count data - lastNotificationCount p)) as HT.
  pose proof (sorted_browserEffects p (summaryTitle (count data - lastNotificationCount p))
                (flags data !! 0%nat)) as HB.
  pose proof (sorted_quiet _ (badgeEffects_quiet (count data) p)) as HQ.
  pose proof (sorted_quiet _ (reload_quiet (flaggedTabActive p))) as HR.
  pose proof (sorted_app _ _ _ _ _ _ _ _ HT HB) as HA.
  rewrite app_nil_l, app_nil_r in HA. cbn [orb] in HA.
  destruct (isNew _ _).
  - destruct (browserThrows _ _); [|destruct (audioContext p)]; unfold effects_of, outcome_of;
      cbn [fst snd].
    + exists false. split; [|done].
      pose proof (sorted_app _ _ _ _ _ _ _ _ HA
                    (sorted_error "Notification check failed:" TypeError)) as H.
      by rewrite !app_nil_r in H.
    + exists true. split; [|done].
      pose proof (sorted_app _ _ _ _ _ _ _ _ HA
                    (sorted_app _ _ _ _ _ _ _ _ sorted_sound_only
                       (sorted_app _ _ _ _ _ _ _ _ HQ HR))) as H.
      by rewrite !app_nil_r in H.
    + exists false. split; [|done].
      pose proof (sorted_app _ _ _ _ _ _ _ _ HA
                    (sorted_error "Notification check failed:" TypeError)) as H.
      by rewrite !app_nil_r in H.
  - unfold effects_of, outcome_of. cbn [fst snd]. done.
Qed.

(** *** Polling *)

Lemma isAlert_sorted effs toasts browser sound :
  Sorted effs toasts browser sound ->
  (exists e, e ∈ effs /\ isAlert e = true)
  <-> toasts <> [] \/ browser <> [] \/ sound = true.
Proof.
  intros [HT HB HS]. split.
  - intros (e & Hin & Ha). unfold isAlert in Ha.
    apply orb_true_iff in Ha as [Ha|Ha]; [apply orb_true_iff in Ha as [Ha|Ha]|].
    + left. intros E. rewrite <- HT in E.
      assert (e ∈ filter (fun e => isToast e) effs) as Hf
        by (apply list_elem_of_filter; split; [by rewrite Ha|done]).
      rewrite E in Hf. by apply elem_of_nil in Hf.
    + right. left. intros E. rewrite <- HB in E.
      assert (e ∈ filter (fun e => isBrowserNotification e) effs) as Hf
        by (apply list_elem_of_filter; split; [by rewrite Ha|done]).
      rewrite E in Hf. by apply elem_of_nil in Hf.
    + right. right. apply HS. by destruct e.
  - intros [H|[H|H]].
    + destruct toasts as [|e t]; [done|]. exists e.
      assert (e ∈ filter (fun e => isToast e) effs) as Hf
        by (rewrite HT; apply list_elem_of_here).
      apply list_elem_of_filter in Hf as [Hp Hin]. split; [done|].
      unfold isAlert. by destruct (isToast e).
    + destruct browser as [|e t]; [done|]. exists e.
      assert (e ∈ filter (fun e => isBrowserNotification e) effs) as Hf
        by (rewrite HB; apply list_elem_of_here).
      apply list_elem_of_filter in Hf as [Hp Hin]. split; [done|].
      unfold isAlert. destruct (isBrowserNotification e); [|done].
      by rewrite orb_true_r.
    + exists PlaySound. split; [by apply HS|done].
Qed.

(** Without a new count a poll changes the page by the badge update and
    the stored count, nothing else. *)
Lemma poll_quiet_page data p :
  ~ (lastNotificationCount p < count data /\ 0 < lastNotificationCount p) ->
  afterPoll (Decoded data) p
  = setLast (count data) (vars_of (updateNotificationBadge (count data) p)).
Proof.
  intros H%isNew_false. unfold afterPoll.
  rewrite poll_decoded, checkBody_decoded. cbv zeta. by rewrite H.
Qed.

(** What holds of every decoded poll, thrown or not: an alert effect
    (toast timer, browser notification or permission request, sound)
    occurs only if the new count is above the previous one and the previous
    one is above 0; otherwise the effects are exactly those of the badge
    update and the page changes by the badge and the stored count only;
    and when the count grew and the response lists a flag, a toast timer is
    started. *)
Lemma alerts_only_if_count_grew (data : Notify.Data) (p : Notify.Page) :
  ((exists e, e ∈ pollEffects (Decoded data) p /\ isAlert e = true)
     -> lastNotificationCount p < count data /\ 0 < lastNotificationCount p)
  /\ (lastNotificationCount p = 0 \/ count data <= lastNotificationCount p ->
      pollEffects (Decoded data) p = badgeEffects (count data) p
      /\ afterPoll (Decoded data) p = setLast (count data) (badgeAfter (count data) p)
      /\ forall e, e ∈ pollEffects (Decoded data) p -> isAlert e = false)
  /\ (lastNotificationCount p < count data /\ 0 < lastNotificationCount p ->
      flags data <> [] ->
      exists e, e ∈ pollEffects (Decoded data) p /\ isToast e = true).
Proof.
  pose proof (poll_sorted data p) as H. cbv zeta in H.
  pose proof (poll_quiet_page data p) as Hpage.
  destruct (isNew (count data) (lastNotificationCount p)) eqn:Hnew.
  - apply isNew_true in Hnew. destruct H as (sound & HS & _).
    split; [done|]. split; [lia|]. intros _ Hf.
    destruct (flags data) as [|f fl] eqn:Ef; [done|].
    exists (SetTimeout (CbShowInApp f) (Z.of_nat 0 * 500)).
    assert (Hin : SetTimeout (CbShowInApp f) (Z.of_nat 0 * 500)
                  ∈ filter (fun e => isToast e) (pollEffects (Decoded data) p)).
    { rewrite (sorted_toasts _ _ _ _ HS). apply list_elem_of_lookup. exists 0%nat.
      rewrite toastTimers_lookup. unfold slice0.
      rewrite lookup_take_lt by lia. done. }
    apply list_elem_of_filter in Hin as [_ Hin]. done.
  - apply isNew_false in Hnew. destruct H as (He & HS & _).
    assert (Hquiet : ~ exists e, e ∈ pollEffects (Decoded data) p /\ isAlert e = true).
    { intros Ha. apply (isAlert_sorted _ _ _ _ HS) in Ha. by destruct Ha as [?|[?|?]]. }
    split; [by intros ?|]. split; [|tauto].
    intros _. split; [exact He|]. split; [apply Hpage; tauto|].
    intros e Hin. apply not_true_iff_false.
    intros Ha. apply Hquiet. eauto.
Qed.

(** When the [try] block runs to its end, the sound is played exactly when
    the count grew from a previous count above 0. *)
Lemma sound_iff_count_grew (data : Notify.Data) (p : Notify.Page) :
  completes (Decoded data) p ->
  (PlaySound ∈ pollEffects (Decoded data) p
   <-> lastNotificationCount p < count data /\ 0 < lastNotificationCount p).
Proof.
  intros Hc. pose proof (poll_sorted data p) as H. cbv zeta in H.
  destruct (isNew (count data) (lastNotificationCount p)) eqn:Hnew.
  - apply isNew_true in Hnew. destruct H as (sound & HS & Hsound).
    apply Hsound in Hc. subst sound.
    split; [done|]. intros _. by apply (sorted_sound _ _ _ _ HS).
  - apply isNew_false in Hnew. destruct H as (He & HS & _).
    split; [|tauto]. intros Ha. by apply (sorted_sound _ _ _ _ HS) in Ha.
Qed.

(** C1, at the failing input: the previous count is 1, permission is
    granted, and the decoded response announces 3 flags but lists none.
    The count grew from a previous count above 0, so an alert is due;
    but no toast timer is started (there is no flag to show),
    the desktop notification throws on the missing first flag, the sound
    and the badge update are skipped, and the only effect is the logged
    error.  The same page reaches this from load by two polls.  With one
    flag listed the same poll starts the toast timer, shows the desktop
    notification, plays the sound and updates the badge. *)
Theorem grown_count_fires_no_alert :
  (lastNotificationCount (setLast 1 (freshPage Granted)) < 3
   /\ 0 < lastNotificationCount (setLast 1 (freshPage Granted)))
  /\ pollEffects (response 3 []) (setLast 1 (freshPage Granted))
     = [ConsoleError "Notification check failed:" TypeError]
  /\ (forall e, e ∈ pollEffects (response 3 []) (setLast 1 (freshPage Granted)) ->
                isAlert e = false)
  /\ ~ ((exists e, e ∈ pollEffects (response 3 []) (setLast 1 (freshPage Granted))
                   /\ isAlert e = true)
        <-> lastNotificationCount (setLast 1 (freshPage Granted)) < 3
            /\ 0 < lastNotificationCount (setLast 1 (freshPage Granted)))
  /\ (run (freshPage Granted) growthWithoutFlags).2.*2
     = [ [SetTimeout (CbBounce 0) 100];
         [ConsoleError "Notification check failed:" TypeError] ]
  /\ pollEffects (response 3 [someFlag]) (setLast 1 (freshPage Granted))
     = [ SetTimeout (CbShowInApp someFlag) 0;
         NewNotification "2 New High-Risk Alert(s)"
           ("Student: A. Student" +:+ newline +:+ "Keywords: k1, k2");
         PlaySound;
         SetTimeout (CbBounce 0) 100 ]
  /\ badge_text <$> badges (afterPoll (response 3 [someFlag]) (setLast 1 (freshPage Granted)))
     = ["3"%string].
Proof.
  assert (He : pollEffects (response 3 []) (setLast 1 (freshPage Granted))
               = [ConsoleError "Notification check failed:" TypeError])
    by (vm_compute; reflexivity).
  assert (Hq : forall e, e ∈ pollEffects (response 3 []) (setLast 1 (freshPage Granted)) ->
                         isAlert e = false).
  { intros e. rewrite He. by intros ->%list_elem_of_singleton. }
  split; [split; vm_compute; reflexivity|].
  split; [exact He|]. split; [exact Hq|]. split.
  - intros [_ H]. destruct H as (e & Hin & Ha).
    + split; vm_compute; reflexivity.
    + apply Hq in Hin. congruence.
  - split; [|split]; vm_compute; reflexivity.
Qed.

(** The example sequence, with permission granted: nothing on the cold
    start, only the badge when the count goes from 0 to 3, and from 3 to 5
    two toasts at 0 and 500 ms, one summary notification, the sound and the
    badge; the count ends at 5 with the badge reading 5. *)
Example poll_sequence_0_3_5 :
  (run (freshPage Granted) countsZeroThreeFive).2.*2
  = [ [];
      [SetTimeout (CbBounce 0) 100];
      [SetTimeout (CbShowInApp someFlag) 0;
       SetTimeout (CbShowInApp someFlag) 500;
       NewNotification "2 New High-Risk Alert(s)"
         ("Student: A. Student" +:+ newline +:+ "Keywords: k1, k2");
       PlaySound;
       SetTimeout (CbBounce 1) 100] ]
  /\ lastNotificationCount (run (freshPage Granted) countsZeroThreeFive).1 = 5
  /\ badge_text <$> badges (run (freshPage Granted) countsZeroThreeFive).1
     = ["5"%string].
Proof. repeat split; vm_compute; reflexivity. Qed.

(** A poll that completes stores the new count, alert or not. *)
Lemma poll_stores_count data p :
  completes (Decoded data) p ->
  lastNotificationCount (afterPoll (Decoded data) p) = count data.
Proof.
  unfold completes, afterPoll. rewrite poll_decoded, checkBody_decoded. cbv zeta.
  destruct (isNew _ _); [destruct (browserThrows _ _); [|destruct (audioContext p)]|];
    unfold outcome_of, vars_of; cbn [fst snd]; done.
Qed.

(** A poll whose fetch or decoding fails logs the error and changes nothing. *)
Lemma poll_failure_is_noop r p :
  r = FetchRejected \/ r = JsonRejected ->
  afterPoll r p = p
  /\ exists e, pollEffects r p = [ConsoleError "Notification check failed:" e].
Proof.
  intros H. destruct (poll_rejected r p H) as [e He].
  unfold afterPoll, pollEffects. rewrite He. split; [done|by exists e].
Qed.

(** A decoded response completes the poll when no alert is due, and also
    when one is due, the response carries a flag and the page can make
    sound. *)
Lemma poll_completes data p :
  isNew (count data) (lastNotificationCount p) = false
  \/ (flags data <> [] /\ audioContext p = true) ->
  completes (Decoded data) p.
Proof.
  unfold completes. rewrite checkBody_decoded. cbv zeta.
  intros [-> | [Hf Ha]]; [done|].
  destruct (isNew _ _); [|done]. unfold browserThrows.
  destruct (flags data) as [|f fl]; [done|]. simpl.
  rewrite andb_false_r, Ha. done.
Qed.

(** C4, at the failing input: the previous count is 1, permission is
    granted, and the decoded response announces 3 flags but lists none.
    The alert throws while building the desktop notification; the error is
    logged, the count stays 1 and the badge is not touched. *)
Theorem poll_keeps_count_when_alert_throws :
  afterPoll (response 3 []) (setLast 1 (freshPage Granted))
    = setLast 1 (freshPage Granted)
  /\ lastNotificationCount (afterPoll (response 3 []) (setLast 1 (freshPage Granted))) = 1
  /\ pollEffects (response 3 []) (setLast 1 (freshPage Granted))
    = [ConsoleError "Notification check failed:" TypeError].
Proof. repeat split; vm_compute; reflexivity. Qed.

(** C5. When a poll finds the count grown from a previous count above 0,
    the toast timers it starts are one per flag of the first [delta] flags
    of the response, and the flag at index [i] gets the delay [500 * i]. *)
Theorem toasts_staggered (data : Notify.Data) (p : Notify.Page) :
  lastNotificationCount p < count data -> 0 < lastNotificationCount p ->
  length (filter (fun e => isToast e) (pollEffects (Decoded data) p))
    = Nat.min (Z.to_nat (count data - lastNotificationCount p)) (length (flags data))
  /\ forall (i : nat) (flag : Flag),
      Z.of_nat i < count data - lastNotificationCount p ->
      flags data !! i = Some flag ->
      filter (fun e => isToast e) (pollEffects (Decoded data) p) !! i
        = Some (SetTimeout (CbShowInApp flag) (500 * Z.of_nat i)).
Proof.
  intros H1 H2. pose proof (poll_sorted data p) as H. cbv zeta in H.
  rewrite (proj2 (isNew_true _ _) (conj H1 H2)) in H.
  destruct H as (sound & HS & _). rewrite (sorted_toasts _ _ _ _ HS). split.
  - unfold toastTimers, slice0. by rewrite length_imap, length_take.
  - intros i flag Hi Hf. rewrite toastTimers_lookup. unfold slice0.
    rewrite lookup_take_lt by lia. rewrite Hf. simpl. do 2 f_equal. lia.
Qed.

Lemma toasts_staggered_witness :
  filter (fun e => isToast e)
         (pollEffects (response 5 [someFlag; someFlag; someFlag])
                      (setLast 3 (freshPage Default))) !! 1%nat
  = Some (SetTimeout (CbShowInApp someFlag) (500 * Z.of_nat 1)).
Proof.
  apply (proj2 (toasts_staggered
                  {| count := 5; flags := [someFlag; someFlag; someFlag] |}
                  (setLast 3 (freshPage Default))
                  eq_refl eq_refl) 1%nat someFlag eq_refl eq_refl).
Defined.

(** C9, at the failing input: the count grew by 2 and the response lists
    no flag.  No toast is scheduled, which is min(2, 0), but with
    permission granted the poll does not complete: the summary
    notification reads the missing first flag and throws. *)
Theorem short_flag_list_can_throw :
  length (filter (fun e => isToast e)
            (pollEffects (response 3 []) (setLast 1 (freshPage Granted))))
    = Nat.min 2 0
  /\ outcome_of (checkBody (response 3 []) (setLast 1 (freshPage Granted)))
    = Threw TypeError
  /\ ConsoleError "Notification check failed:" TypeError
      ∈ pollEffects (response 3 []) (setLast 1 (freshPage Granted)).
Proof.
  split; [|split]; [vm_compute; reflexivity..|].
  vm_compute. apply list_elem_of_here.
Qed.

(** *** The badge *)

Lemma badge_no_link n p :
  flaggedLink p = None -> updateNotificationBadge n p = (Returned tt, p, []).
Proof.
  destruct p as [dash last api perm audio [bs|] tab btn cont nn]; [done|]. reflexivity.
Qed.

Lemma badges_closed_form n p bs :
  flaggedLink p = Some bs ->
  badges (vars_of (updateNotificationBadge n p))
  = removeFirst bs ++ (if 0 <? n then [ {| badge_id := nextNode p; badge_text := badgeText n; bounce := false |} ] else []).
Proof.
  destruct p as [dash last api perm audio link tab btn cont nn]. simpl. intros ->.
  unfold updateNotificationBadge, createElement. run_handler. cbn.
  destruct (0 <? n); cbn; by rewrite ?app_nil_r.
Qed.

(** C10. On a flagged link that shows at most one badge, a badge update
    with count [n] leaves no badge when [n = 0], one badge reading the
    decimal numeral of [n] when [0 < n <= 99], one badge reading "99+" when
    [n > 99]; in every case at most one badge is left, the earlier one
    having been removed first. *)
Theorem badge_after_update (n : Z) (p : Notify.Page) (bs : list Notify.Badge) :
  flaggedLink p = Some bs -> (length bs <= 1)%nat ->
  (n = 0 -> badges (vars_of (updateNotificationBadge n p)) = [])
  /\ (0 < n <= 99 ->
      badge_text <$> badges (vars_of (updateNotificationBadge n p)) = [pretty n])
  /\ (99 < n ->
      badge_text <$> badges (vars_of (updateNotificationBadge n p)) = ["99+"%string])
  /\ (length (badges (vars_of (updateNotificationBadge n p))) <= 1)%nat.
Proof.
  intros Hl Hb. rewrite (badges_closed_form n p bs Hl).
  assert (removeFirst bs = []) as -> by (destruct bs as [|b [|b' bs]]; simpl in *; [done|done|lia]).
  cbn [app]. unfold badgeText. split; [|split; [|split]].
  - intros ->. done.
  - intros H. destruct (0 <? n) eqn:E1; [|lia]. destruct (99 <? n) eqn:E2; [lia|]. done.
  - intros H. destruct (0 <? n) eqn:E1; [|lia]. destruct (99 <? n) eqn:E2; [|lia]. done.
  - destruct (0 <? n); simpl; lia.
Qed.

Lemma badge_after_update_witness :
  badge_text <$> badges (vars_of (updateNotificationBadge 7
                                     (setFlaggedLink
                                        (Some [ {| badge_id := 0; badge_text := "3";
                                                   bounce := true |} ])
                                        (freshPage Default))))
  = [pretty 7].
Proof.
  apply (proj1 (proj2 (badge_after_update 7
           (setFlaggedLink
              (Some [ {| badge_id := 0; badge_text := "3"; bounce := true |} ])
              (freshPage Default))
           [ {| badge_id := 0; badge_text := "3"; bounce := true |} ]
           eq_refl (le_n 1)))).
  lia.
Defined.

(** The numerals the badge shows. *)
Lemma badgeText_examples :
  badgeText 1 = "1"%string /\ badgeText 42 = "42"%string
  /\ badgeText 99 = "99"%string /\ badgeText 100 = "99+"%string.
Proof. repeat split; vm_compute; reflexivity. Qed.

Lemma badgeAfter_at_most_one n p :
  (length (badges p) <= 1)%nat -> (length (badges (badgeAfter n p)) <= 1)%nat.
Proof.
  intros H. unfold badgeAfter. destruct (flaggedLink p) as [bs|] eqn:E.
  - rewrite (badges_closed_form n p bs E). unfold badges in H. rewrite E in H.
    destruct bs as [|b [|b' bs]]; simpl in *; [destruct (0 <? n); simpl; lia..|lia].
  - by rewrite (badge_no_link n p E).
Qed.

(** No handler of the page ever leaves more than one badge. *)
Lemma step_badges ev p :
  (length (badges p) <= 1)%nat -> (length (badges (step p ev).1) <= 1)%nat.
Proof.
  intros H. unfold step. destruct ev as [r| |k choice|cb now].
  - unfold handle. run_handler. destruct (onDashboard p) eqn:E; [|done]. cbv beta iota.
    destruct r as [| |data]; [by destruct p..|].
    rewrite poll_decoded, checkBody_decoded. cbv zeta.
    pose proof (badgeAfter_at_most_one (count data) p H) as H'.
    destruct (isNew _ _); [destruct (browserThrows _ _); [|destruct (audioContext p)]|];
      cbn [fst snd]; done.
  - destruct p as [dash last api perm audio link tab [b|] cont nn]; destruct api; exact H.
  - destruct p as [dash last api perm audio link tab btn cont nn].
    destruct k as [title [f|]|], choice, perm; exact H.
  - destruct p as [dash last api perm audio link tab btn [c|] nn].
    all: destruct cb; try destruct dash; try exact H.
    all: unfold badges in *; cbn in *; destruct link; cbn in *; by rewrite ?length_fmap.
Qed.

Lemma run_badges evs p :
  (length (badges p) <= 1)%nat -> (length (badges (run p evs).1) <= 1)%nat.
Proof.
  revert p. induction evs as [|ev evs IH]; intros p H; [done|].
  simpl. pose proof (step_badges ev p H) as H1.
  destruct (step p ev) as [p1 effs]. specialize (IH p1 H1).
  by destruct (run p1 evs).
Qed.

(** *** The permission request *)

Lemma request_found (effs : list Effect) k :
  RequestPermission k ∈ effs -> existsb isPermissionRequest effs = true.
Proof.
  intros H. apply existsb_exists. exists (RequestPermission k).
  split; [by apply list_elem_of_In|done].
Qed.

Lemma request_in_browserEffects p title flag k :
  RequestPermission k ∈ browserEffects p title flag <->
  notificationApi p = true /\ permission p = Default /\ k = ThenNotify title flag.
Proof.
  rewrite browserEffects_cases.
  destruct (notificationApi p), (permission p), flag;
    rewrite ?list_elem_of_singleton, ?elem_of_nil;
    (split; [intros H|intros (H1 & H2 & H3)]); try done; try congruence.
  all: by injection H as ->.
Qed.

Lemma request_in_poll data p k :
  RequestPermission k ∈ pollEffects (Decoded data) p <->
  isNew (count data) (lastNotificationCount p) = true
  /\ notificationApi p = true /\ permission p = Default
  /\ k = ThenNotify (summaryTitle (count data - lastNotificationCount p))
                    (flags data !! 0%nat).
Proof.
  pose proof (poll_sorted data p) as H. cbv zeta in H.
  assert (Hf : forall effs : list Effect, RequestPermission k ∈ effs <->
             RequestPermission k ∈ filter (fun e => isBrowserNotification e) effs).
  { intros effs. rewrite list_elem_of_filter. simpl. tauto. }
  rewrite Hf. destruct (isNew _ _).
  - destruct H as (sound & HS & _). rewrite (sorted_browser _ _ _ _ HS).
    rewrite request_in_browserEffects. tauto.
  - destruct H as (_ & HS & _). rewrite (sorted_browser _ _ _ _ HS).
    split; [by intros ?%elem_of_nil|]. by intros [? _].
Qed.

Lemma step_poll p r :
  (step p (EvPoll r)).2 = if onDashboard p then pollEffects r p else [].
Proof.
  unfold step, handle, pollEffects. run_handler.
  destruct (onDashboard p); cbv beta iota; [|done].
  by destruct (checkForNewNotifications r p) as [[o p'] effs].
Qed.

Lemma step_click p :
  (step p EvClick).2 =
  match enableButton p with
  | Some _ =>
      if notificationApi p then [RequestPermission ThenEnable]
      else [PermissionModal "Not Supported"
              "Your browser doesn't support desktop notifications." false;
            SetTimeout CbModalRemove 3000]
  | None => []
  end.
Proof.
  destruct p as [dash last api perm audio link tab [b|] cont nn]; [|done].
  by destruct api.
Qed.

Lemma step_settled_quiet p k choice :
  existsb isPermissionRequest (step p (EvSettled k choice)).2 = false.
Proof.
  destruct p as [dash last api perm audio link tab btn cont nn].
  destruct k as [title [f|]|], choice, perm; reflexivity.
Qed.

Lemma step_timer_quiet p cb now :
  existsb isPermissionRequest (step p (EvTimer cb now)).2 = false.
Proof.
  destruct p as [dash last api perm audio link tab btn [c|] nn].
  all: destruct cb; try destruct dash; reflexivity.
Qed.

(** The handlers that request permission, step by step. *)
Lemma request_in_step (p : Page) (ev : Event) (k : PermissionThen) :
  RequestPermission k ∈ (step p ev).2 <->
    (ev = EvClick /\ is_Some (enableButton p) /\ notificationApi p = true
     /\ k = ThenEnable)
    \/ (exists data, ev = EvPoll (Decoded data)
          /\ onDashboard p = true
          /\ lastNotificationCount p < count data /\ 0 < lastNotificationCount p
          /\ notificationApi p = true /\ permission p = Default
          /\ k = ThenNotify (summaryTitle (count data - lastNotificationCount p))
                            (flags data !! 0%nat)).
Proof.
  destruct ev as [r| |k' choice|cb now].
  - rewrite step_poll. split.
    + destruct (onDashboard p) eqn:Hd; [|by intros ?%elem_of_nil].
      destruct r as [| |data].
      * intros H%request_found. by destruct p.
      * intros H%request_found. by destruct p.
      * rewrite request_in_poll, isNew_true. intros (?&?&?&?).
        right. exists data. tauto.
    + intros [(?&_)|(d&[= ->]&Hd&?&?&?&?&?)]; [done|]. rewrite Hd.
      apply request_in_poll. rewrite isNew_true. tauto.
  - rewrite step_click. split.
    + destruct (enableButton p) as [b|]; [|by intros ?%elem_of_nil].
      destruct (notificationApi p).
      * intros [= ->]%list_elem_of_singleton. left. repeat split; by eauto.
      * by intros H%request_found.
    + intros [(_&[b Hb]&Ha&->)|(d&?&_)]; [|done]. rewrite Hb, Ha.
      apply list_elem_of_here.
  - split.
    + intros H%request_found. by rewrite step_settled_quiet in H.
    + intros [(?&_)|(d&?&_)]; done.
  - split.
    + intros H%request_found. by rewrite step_timer_quiet in H.
    + intros [(?&_)|(d&?&_)]; done.
Qed.

(** Every entry of a run's trace is a step from some page. *)
Lemma run_trace p evs ev effs :
  (ev, effs) ∈ (run p evs).2 -> exists p', effs = (step p' ev).2.
Proof.
  revert p. induction evs as [|ev' evs IH]; intros p; simpl.
  - by intros ?%elem_of_nil.
  - destruct (step p ev') as [p1 effs1] eqn:E1.
    specialize (IH p1). destruct (run p1 evs) as [p2 tr]. simpl in *.
    intros [[= -> ->]|H]%elem_of_cons; [|by apply IH].
    exists p. by rewrite E1.
Qed.

(** C2, as the code has it.  A handler calls
    [Notification.requestPermission()] in exactly two situations: the user
    clicks the enable-notifications button on a browser that has the
    Notification API; or a poll finds the count grown from a previous count
    above 0 while the API is there and the permission is still undecided,
    in which case [showBrowserNotification] asks by itself.  A poll never
    asks once the permission is granted or denied, and no other event
    asks: in every run, each request in the trace belongs to a click or to
    a poll that decoded a response. *)
Theorem permission_requested_iff (p : Notify.Page) (ev : Notify.Event)
    (k : Notify.PermissionThen) :
  (RequestPermission k ∈ (step p ev).2 <->
    (ev = EvClick /\ is_Some (enableButton p) /\ notificationApi p = true
     /\ k = ThenEnable)
    \/ (exists data, ev = EvPoll (Decoded data)
          /\ onDashboard p = true
          /\ lastNotificationCount p < count data /\ 0 < lastNotificationCount p
          /\ notificationApi p = true /\ permission p = Default
          /\ k = ThenNotify (summaryTitle (count data - lastNotificationCount p))
                            (flags data !! 0%nat)))
  /\ (forall evs ev' effs k',
        (ev', effs) ∈ (run p evs).2 -> RequestPermission k' ∈ effs ->
        ev' = EvClick \/ exists data, ev' = EvPoll (Decoded data)).
Proof.
  split; [apply request_in_step|].
  intros evs ev' effs k' [p' ->]%run_trace H.
  apply request_in_step in H as [(-> & _)|(data & -> & _)]; eauto.
Qed.

(** C2 as stated fails: in a run of two polls and no click, on a page
    whose permission is undecided, the second poll requests permission. *)
Lemma poll_requests_permission_unasked :
  (EvClick ∉ twoPolls)
  /\ exists effs k,
      (EvPoll (response 2 [someFlag; someFlag]), effs)
        ∈ (run (freshPage Default) twoPolls).2
      /\ RequestPermission k ∈ effs.
Proof.
  split.
  - intros H. apply elem_of_cons in H as [H|H]; [discriminate H|].
    apply list_elem_of_singleton in H. discriminate H.
  - eexists _, _. split.
    + vm_compute. apply list_elem_of_further, list_elem_of_here.
    + apply list_elem_of_further, list_elem_of_here.
Qed.
End NotifyFacts.

(** ** The exercise timers *)
Module ExerciseFacts.
Import Script Exercise.

(** *** The timer table stays well formed *)

Lemma ok_initial : TimersOk initial.
Proof. split; intros h; cbn; rewrite lookup_empty; done. Qed.

Lemma ok_same v v' :
  intervals v' = intervals v -> nextHandle v' = nextHandle v ->
  stretchingInterval v' = stretchingInterval v ->
  TimersOk v -> TimersOk v'.
Proof. intros E1 E2 E3 [H1 H2]. split; rewrite ?E1, ?E2, ?E3; auto. Qed.

Lemma ok_drop v v' h :
  intervals v' = delete h (intervals v) -> nextHandle v' = nextHandle v ->
  stretchingInterval v' = stretchingInterval v ->
  TimersOk v -> TimersOk v'.
Proof.
  intros E1 E2 E3 [H1 H2]. split; rewrite ?E1, ?E2, ?E3.
  - intros h' fn [_ H]%lookup_delete_Some. eauto.
  - intros h' [_ H]%lookup_delete_Some. eauto.
Qed.

Lemma ok_stop v v' :
  intervals v' = clearStretching v -> nextHandle v' = nextHandle v ->
  stretchingInterval v' = None ->
  TimersOk v -> TimersOk v'.
Proof.
  intros E1 E2 E3 [H1 H2]. unfold clearStretching in E1.
  split; rewrite ?E1, ?E2, ?E3.
  - intros h' fn. destruct (stretchingInterval v); [intros [_ H]%lookup_delete_Some|]; eauto.
  - intros h' H. destruct (stretchingInterval v) as [h|] eqn:E.
    + apply lookup_delete_Some in H as [Hne H]. apply H2 in H. congruence.
    + apply H2 in H. congruence.
Qed.

Lemma ok_restart v v' :
  intervals v' = <[nextHandle v := StretchTick]> (clearStretching v) ->
  nextHandle v' = (nextHandle v + 1)%positive ->
  stretchingInterval v' = Some (nextHandle v) ->
  TimersOk v -> TimersOk v'.
Proof.
  intros E1 E2 E3 Hok. pose proof (ok_stop v
    {| intervals := clearStretching v; nextHandle := nextHandle v;
       breathingInterval := breathingInterval v; stretchingInterval := None;
       currentStretchIndex := currentStretchIndex v;
       stretchSequence := stretchSequence v; stretchCountdown := stretchCountdown v |}
    eq_refl eq_refl eq_refl Hok) as [H1 H2]. cbn in H1, H2.
  split; rewrite ?E1, ?E2, ?E3.
  - intros h fn [[<- _]|[_ H]]%lookup_insert_Some; [lia|]. apply H1 in H. lia.
  - intros h [[<- _]|[_ H]]%lookup_insert_Some; [done|]. apply H2 in H. done.
Qed.

Lemma ok_add_breathing v v' fn :
  isBreathing fn = true ->
  intervals v' = <[nextHandle v := fn]> (intervals v) ->
  nextHandle v' = (nextHandle v + 1)%positive ->
  stretchingInterval v' = stretchingInterval v ->
  TimersOk v -> TimersOk v'.
Proof.
  intros Hb E1 E2 E3 [H1 H2]. split; rewrite ?E1, ?E2, ?E3.
  - intros h fn' [[<- _]|[_ H]]%lookup_insert_Some; [lia|]. apply H1 in H. lia.
  - intros h [[<- Hfn]|[_ H]]%lookup_insert_Some; [subst fn; discriminate Hb|]. auto.
Qed.

Lemma ok_keep_breathing v v' h fn old :
  isBreathing fn = true -> intervals v !! h = Some old ->
  intervals v' = <[h := fn]> (intervals v) ->
  nextHandle v' = nextHandle v ->
  stretchingInterval v' = stretchingInterval v ->
  TimersOk v -> TimersOk v'.
Proof.
  intros Hb Ho E1 E2 E3 [H1 H2]. split; rewrite ?E1, ?E2, ?E3.
  - intros h' fn' [[<- _]|[_ H]]%lookup_insert_Some; eauto.
  - intros h' [[<- Hfn]|[_ H]]%lookup_insert_Some; [subst fn; discriminate Hb|]. auto.
Qed.

Lemma ok_displayStretch v : TimersOk v -> TimersOk (vars_of (displayStretch v)).
Proof.
  apply ok_restart; destruct v as [m n hb [hs|] i sq cd]; reflexivity.
Qed.

Lemma ok_stopStretching v : TimersOk v -> TimersOk (vars_of (stopStretchingExercise v)).
Proof.
  apply ok_stop; destruct v as [m n hb [hs|] i sq cd]; reflexivity.
Qed.

Lemma ok_nextStretch v : TimersOk v -> TimersOk (vars_of (nextStretch v)).
Proof.
  destruct v as [m n hb hs i sq cd]. intros Hok.
  destruct (bool_decide (i + 1 < length sq)%nat) eqn:E.
  - assert (vars_of (nextStretch (Build_Vars m n hb hs i sq cd))
            = vars_of (displayStretch (Build_Vars m n hb hs (i + 1) sq cd))) as ->.
    { unfold nextStretch, bind, gets, vars_of. cbn. rewrite E. by destruct hs. }
    apply ok_displayStretch. revert Hok. by apply ok_same.
  - assert (vars_of (nextStretch (Build_Vars m n hb hs i sq cd))
            = vars_of (stopStretchingExercise (Build_Vars m n hb hs (i + 1) sq cd))) as ->.
    { unfold nextStretch, bind, gets, vars_of. cbn. rewrite E. by destruct hs. }
    apply ok_stopStretching. revert Hok. by apply ok_same.
Qed.
Lemma ok_startStretching type v :
  TimersOk v -> TimersOk (vars_of (startStretchingExercise type v)).
Proof.
  destruct v as [m n hb hs i sq cd]. intros Hok.
  assert (vars_of (startStretchingExercise type (Build_Vars m n hb hs i sq cd))
          = vars_of (displayStretch (Build_Vars m n hb hs 0 (stretchSteps type) cd))) as ->.
  { unfold startStretchingExercise, bind, gets, vars_of. cbn. by destruct hs. }
  apply ok_displayStretch. revert Hok. by apply ok_same.
Qed.

Lemma ok_stretchTick v : TimersOk v -> TimersOk (vars_of (stretchTick v)).
Proof.
  destruct v as [m n hb hs i sq cd]. intros Hok.
  destruct (cd - 1 <=? 0) eqn:E.
  - assert (vars_of (stretchTick (Build_Vars m n hb hs i sq cd))
            = vars_of (nextStretch
                         (Build_Vars (match hs with Some h => delete h m | None => m end)
                                     n hb hs i sq (cd - 1)))) as ->.
    { unfold stretchTick, bind, gets, vars_of. cbn. rewrite E.
      destruct hs; cbn; by destruct (bool_decide _). }
    apply ok_nextStretch. revert Hok. destruct hs as [h|].
    + by apply (ok_drop _ _ h).
    + by apply ok_same.
  - assert (vars_of (stretchTick (Build_Vars m n hb hs i sq cd))
            = Build_Vars m n hb hs i sq (cd - 1)) as ->.
    { unfold stretchTick, bind, gets, vars_of. cbn. by rewrite E. }
    revert Hok. by apply ok_same.
Qed.

Lemma ok_stopBreathing v :
  TimersOk v -> TimersOk (vars_of (stopBreathingExercise v)).
Proof.
  destruct v as [m n [hb|] hs i sq cd].
  - by apply (ok_drop _ _ hb).
  - by apply ok_same.
Qed.

(** [updateBreathing] changes no variable of the page. *)
Lemma updateBreathing_vars phases phaseIndex countdown v :
  vars_of (updateBreathing phases phaseIndex countdown v) = v.
Proof.
  unfold updateBreathing, phaseAt, bind, emit, ret, throw, vars_of.
  destruct (phases !! phaseIndex); [|done]. cbn.
  destruct (countdown - 1 <? 0); [|done].
  by destruct (phases !! _).
Qed.

Lemma ok_startBreathing type v :
  TimersOk v -> TimersOk (vars_of (startBreathingExercise type v)).
Proof.
  intros Hok. unfold startBreathingExercise.
  unfold bind at 1. unfold emit at 1. cbv beta iota.
  unfold bind at 1. unfold emit at 1. cbv beta iota zeta.
  unfold bind at 1. unfold phaseAt at 1.
  destruct (breathingPhases type !! 0%nat) as [first|]; [|exact Hok].
  unfold ret at 1. cbv beta iota.
  unfold bind at 1.
  pose proof (updateBreathing_vars (breathingPhases type) 0 (duration first) v) as Hv.
  destruct (updateBreathing _ _ _ v) as [[[st|e] v1] effs]; unfold vars_of in Hv;
    cbn [fst snd] in Hv; subst v1; [|exact Hok].
  revert Hok. apply (ok_add_breathing _ _ (UpdateBreathing (breathingPhases type) st.1 st.2));
    destruct v as [m n hb hs i sq cd]; reflexivity.
Qed.

Lemma ok_tick h v : TimersOk v -> TimersOk (vars_of (dispatch (Tick h) v)).
Proof.
  intros Hok. unfold dispatch. unfold bind at 1, gets at 1. cbv beta iota.
  destruct (intervals v !! h) as [[phases phaseIndex countdown|]|] eqn:E.
  - unfold bind at 1.
    pose proof (updateBreathing_vars phases phaseIndex countdown v) as Hv.
    destruct (updateBreathing _ _ _ v) as [[[st|e] v1] effs]; unfold vars_of in Hv;
      cbn [fst snd] in Hv; subst v1; [|exact Hok].
    revert Hok.
    apply (ok_keep_breathing _ _ h (UpdateBreathing phases st.1 st.2) _ eq_refl E);
      destruct v as [m n hb hs i sq cd]; reflexivity.
  - pose proof (ok_stretchTick v Hok) as H.
    by destruct (stretchTick v) as [[o v1] effs].
  - exact Hok.
Qed.

Lemma ok_step ev v : TimersOk v -> TimersOk (advance v ev).
Proof.
  unfold advance. destruct ev.
  - apply ok_startBreathing.
  - apply ok_stopBreathing.
  - apply ok_startStretching.
  - apply ok_nextStretch.
  - apply ok_stopStretching.
  - apply ok_tick.
Qed.

Lemma ok_run evs v : TimersOk v -> TimersOk (play v evs).
Proof.
  revert v. induction evs as [|ev evs IH]; intros v H; [done|].
  apply IH, ok_step, H.
Qed.

Lemma running_stretch_owned v h :
  TimersOk v -> h ∈ running isStretching v -> stretchingInterval v = Some h.
Proof.
  intros [_ H2] Hin. unfold running in Hin.
  apply list_elem_of_fmap in Hin as [[h' fn] [-> Hin]].
  apply elem_of_map_to_list in Hin.
  apply map_lookup_filter_Some in Hin as [Hl Hs]. cbn in Hs.
  destruct fn; [discriminate Hs|]. by apply H2.
Qed.

(** The stretching sequencer does keep the property: whatever the user
    does and whichever intervals come due, at most one stretching interval
    runs, because [displayStretch] clears the old handle first. *)
Lemma at_most_one_stretch_timer evs :
  (length (running isStretching (play initial evs)) <= 1)%nat.
Proof.
  pose proof (ok_run evs initial ok_initial) as Hok.
  assert (Hnd : NoDup (running isStretching (play initial evs))).
  { unfold running. apply NoDup_fst_map_to_list. }
  destruct (running isStretching (play initial evs)) as [|h1 [|h2 l]] eqn:E; simpl; [lia..|].
  exfalso.
  assert (H1 : stretchingInterval (play initial evs) = Some h1).
  { apply running_stretch_owned; [done|]. rewrite E. apply list_elem_of_here. }
  assert (H2 : stretchingInterval (play initial evs) = Some h2).
  { apply running_stretch_owned; [done|]. rewrite E.
    apply list_elem_of_further, list_elem_of_here. }
  rewrite H1 in H2. injection H2 as ->.
  apply NoDup_cons in Hnd as [Hn _]. apply Hn, list_elem_of_here.
Qed.

(** C3, at the failing input: two clicks on a breathing exercise button
    with no stop in between.  [startBreathingExercise] installs the second
    interval without clearing the first, so two breathing intervals run;
    the stop button then clears only the second handle and the first
    interval keeps running with no handle left to clear it. *)
Theorem breathing_restart_leaves_two_timers :
  length (running isBreathing (play initial twoStarts)) = 2%nat
  /\ running isBreathing
       (play initial twoStartsThenStop)
     = [1%positive]
  /\ breathingInterval
       (play initial twoStartsThenStop)
     = None.
Proof. repeat split; vm_compute; reflexivity. Qed.
End ExerciseFacts.

(** ** Regular expressions *)
Module RegexFacts.
Import Js Regex.

Lemma nullable_spec r : nullable r = true <-> Matches r [].
Proof.
  induction r as [| |cls|r1 IH1 r2 IH2|r1 IH1 r2 IH2|r IH]; simpl.
  - split; [done|]. inversion 1.
  - split; [constructor|done].
  - split; [done|]. inversion 1.
  - rewrite andb_true_iff, IH1, IH2. split.
    + intros [H1 H2]. exact (MSeq _ _ [] [] H1 H2).
    + inversion 1 as [| |? ? s1 s2 H1 H2 E1 E2| | | |]; subst.
      apply app_eq_nil in E2 as [-> ->]. done.
  - rewrite orb_true_iff, IH1, IH2. split.
    + intros [H|H]; [by apply MAltL|by apply MAltR].
    + inversion 1; subst; tauto.
  - split; [constructor|done].
Qed.

Lemma matches_class cls s : Matches (Class cls) s <-> exists c, s = [c] /\ cls c = true.
Proof.
  split; [inversion 1; subst; eauto|]. intros (c & -> & H). by constructor.
Qed.

Lemma matches_chr c s : Matches (Chr c) s <-> s = [c].
Proof.
  unfold Chr. rewrite matches_class. split.
  - intros (c' & -> & H%N.eqb_eq). by subst.
  - intros ->. exists c. split; [done|]. apply N.eqb_refl.
Qed.

Lemma matches_seq r1 r2 s :
  Matches (Seq r1 r2) s <-> exists s1 s2, s = s1 ++ s2 /\ Matches r1 s1 /\ Matches r2 s2.
Proof.
  split; [inversion 1; subst; eauto|]. intros (s1 & s2 & -> & H1 & H2). by constructor.
Qed.

Lemma matches_alt r1 r2 s : Matches (Alt r1 r2) s <-> Matches r1 s \/ Matches r2 s.
Proof.
  split; [inversion 1; subst; tauto|]. intros [H|H]; [by apply MAltL|by apply MAltR].
Qed.

Lemma matches_eps s : Matches Eps s <-> s = [].
Proof. split; [by inversion 1|]. intros ->. constructor. Qed.

(** A match of [r*] on a non-empty string starts with a non-empty match
    of [r]. *)
Lemma star_cons r c s :
  Matches (Star r) (c :: s) ->
  exists s1 s2, s = s1 ++ s2 /\ Matches r (c :: s1) /\ Matches (Star r) s2.
Proof.
  intros H. remember (Star r) as r' eqn:Er. remember (c :: s) as t eqn:Et.
  revert c s Et. induction H as [| | | | | |r0 s1 s2 H1 _ H2 IH2]; intros d t0 Et;
    try discriminate Er; try discriminate Et.
  injection Er as ->. destruct s1 as [|c' s1]; simpl in Et.
  - apply IH2; done.
  - injection Et as <- <-. by exists s1, s2.
Qed.

Lemma deriv_spec r c s : Matches (deriv c r) s <-> Matches r (c :: s).
Proof.
  revert s. induction r as [| |cls|r1 IH1 r2 IH2|r1 IH1 r2 IH2|r IH]; intros s; simpl.
  - split; inversion 1.
  - split; inversion 1.
  - destruct (cls c) eqn:E.
    + rewrite matches_eps, matches_class. split.
      * intros ->. eauto.
      * by intros (c' & [= <- ->] & _).
    + split; [inversion 1|].
      intros (c' & [= <- _] & H)%matches_class. congruence.
  - assert (Hseq : Matches (Seq (deriv c r1) r2) s <->
                   exists s1 s2, s = s1 ++ s2 /\ Matches r1 (c :: s1) /\ Matches r2 s2).
    { split.
      - inversion 1; subst. eexists _, _. split; [done|]. by rewrite <- IH1.
      - intros (s1 & s2 & -> & H1 & H2). constructor; [by apply IH1|done]. }
    assert (Hgoal : Matches (Seq r1 r2) (c :: s) <->
              (exists s1 s2, s = s1 ++ s2 /\ Matches r1 (c :: s1) /\ Matches r2 s2)
              \/ (Matches r1 [] /\ Matches r2 (c :: s))).
    { split.
      - inversion 1 as [| |? ? s1 s2 H1 H2 E1 E2| | | |]; subst.
        destruct s1 as [|c' s1]; simpl in E2.
        + right. subst. done.
        + injection E2 as <- <-. left. by exists s1, s2.
      - intros [(s1 & s2 & -> & H1 & H2)|[H1 H2]].
        + exact (MSeq _ _ (c :: s1) s2 H1 H2).
        + exact (MSeq _ _ [] (c :: s) H1 H2). }
    rewrite Hgoal. destruct (nullable r1) eqn:En.
    + apply nullable_spec in En. split.
      * inversion 1; subst; [left; by apply Hseq|right; split; [done|by apply IH2]].
      * intros [H|[_ H]]; [apply MAltL; by apply Hseq|apply MAltR; by apply IH2].
    + rewrite Hseq. split; [by left|]. intros [H|[H _]]; [done|].
      apply nullable_spec in H. congruence.
  - split.
    + inversion 1; subst; [apply MAltL; by apply IH1|apply MAltR; by apply IH2].
    + inversion 1; subst; [apply MAltL; by apply IH1|apply MAltR; by apply IH2].
  - split.
    + inversion 1; subst. apply (MStarApp _ (c :: _)); [by apply IH|done].
    + intros (s1 & s2 & -> & H1 & H2)%star_cons. constructor; [by apply IH|done].
Qed.

(** The decision procedure decides the meaning. *)
Lemma matchb_spec r s : matchb r s = true <-> Matches r s.
Proof.
  revert r. induction s as [|c s IH]; intros r; simpl.
  - apply nullable_spec.
  - rewrite IH. apply deriv_spec.
Qed.

Lemma matches_lit l s : Matches (Lit l) s <-> s = l.
Proof.
  revert s. induction l as [|c l IH]; intros s; simpl.
  - apply matches_eps.
  - rewrite matches_seq. split.
    + intros (s1 & s2 & -> & ->%matches_chr & ->%IH). done.
    + intros ->. exists [c], l. split; [done|]. split; [by apply matches_chr|by apply IH].
Qed.

(** [cls*] and [cls+] match the strings made of the class. *)
Lemma matches_star_class cls s :
  Matches (Star (Class cls)) s <-> forallb cls s = true.
Proof.
  split.
  - intros H. remember (Star (Class cls)) as r eqn:Er.
    induction H as [| | | | | |r0 s1 s2 H1 _ H2 IH2]; try discriminate Er; [done|].
    injection Er as ->. apply matches_class in H1 as (c & -> & Hc).
    simpl. rewrite Hc. by apply IH2.
  - induction s as [|c s IH]; simpl; [constructor|].
    intros [Hc Hs]%andb_true_iff.
    apply (MStarApp _ [c] s); [by constructor|by apply IH].
Qed.

Lemma matches_plus_class cls s :
  Matches (Plus (Class cls)) s <-> s <> [] /\ forallb cls s = true.
Proof.
  unfold Plus. rewrite matches_seq. split.
  - intros (s1 & s2 & -> & (c & -> & Hc)%matches_class & H2%matches_star_class).
    split; [done|]. simpl. by rewrite Hc.
  - intros [Hne H]. destruct s as [|c s]; [done|]. simpl in H.
    apply andb_true_iff in H as [Hc Hs]. exists [c], s.
    split; [done|]. split; [by constructor|by apply matches_star_class].
Qed.

(** [cls{n}] matches the strings of [n] units of the class. *)
Lemma matches_times_class cls n s :
  Matches (Times n (Class cls)) s <-> length s = n /\ forallb cls s = true.
Proof.
  revert s. induction n as [|n IH]; intros s; simpl.
  - rewrite matches_eps. split; [by intros ->|]. intros [H _]. by destruct s.
  - rewrite matches_seq. split.
    + intros (s1 & s2 & -> & (c & -> & Hc)%matches_class & [Hl Hs]%IH).
      simpl. rewrite Hc, Hl. done.
    + intros [Hl H]. destruct s as [|c s]; [done|]. simpl in *.
      apply andb_true_iff in H as [Hc Hs]. exists [c], s.
      split; [done|]. split; [by constructor|]. apply IH. split; [lia|done].
Qed.

End RegexFacts.

(** ** The field listeners of the registration form *)
Module FieldsFacts.
Import Js JsFacts Regex RegexFacts Fields.

(** *** E-mail *)

Lemma plain_not_at c : plain c = true -> c <> 64%N.
Proof.
  unfold plain. intros H%negb_true_iff%orb_false_iff. destruct H as [_ H].
  by apply N.eqb_neq in H.
Qed.

Lemma plain_not_space c : plain c = true -> is_space c = false.
Proof.
  unfold plain. intros H%negb_true_iff%orb_false_iff. by destruct H.
Qed.

Lemma plain_dot : plain 46 = true.
Proof. reflexivity. Qed.

(** What the e-mail pattern accepts. *)
Lemma emailPattern_shape s :
  matchb emailPattern s = true <->
  exists a b c,
    s = a ++ [64%N] ++ b ++ [46%N] ++ c
    /\ a <> [] /\ b <> [] /\ c <> []
    /\ forallb plain a = true /\ forallb plain b = true /\ forallb plain c = true.
Proof.
  rewrite matchb_spec. unfold emailPattern.
  rewrite matches_seq. split.
  - intros (a & t1 & -> & [Ha1 Ha2]%matches_plus_class & H).
    apply matches_seq in H as (x & t2 & -> & ->%matches_chr & H).
    apply matches_seq in H as (b & t3 & -> & [Hb1 Hb2]%matches_plus_class & H).
    apply matches_seq in H as (y & c & -> & ->%matches_chr & [Hc1 Hc2]%matches_plus_class).
    by exists a, b, c.
  - intros (a & b & c & -> & Ha & Hb & Hc & Fa & Fb & Fc).
    exists a, ([64%N] ++ b ++ [46%N] ++ c). split; [done|].
    split; [by apply matches_plus_class|].
    apply matches_seq. exists [64%N], (b ++ [46%N] ++ c). split; [done|].
    split; [by apply matches_chr|].
    apply matches_seq. exists b, ([46%N] ++ c). split; [done|].
    split; [by apply matches_plus_class|].
    apply matches_seq. exists [46%N], c. split; [done|].
    split; [by apply matches_chr|by apply matches_plus_class].
Qed.

Lemma count_at_plain s :
  forallb plain s = true -> List.filter (N.eqb 64) s = [].
Proof.
  induction s as [|c s IH]; [done|]. cbn [List.filter forallb].
  intros [Hc Hs]%andb_true_iff. apply plain_not_at in Hc.
  destruct (N.eqb_spec 64 c) as [E|_]; [by subst|]. by apply IH.
Qed.

Lemma no_space_plain s :
  forallb plain s = true -> forallb (fun c => negb (is_space c)) s = true.
Proof.
  induction s as [|c s IH]; simpl; [done|].
  intros [Hc Hs]%andb_true_iff. by rewrite (plain_not_space c Hc), IH.
Qed.

(** X1. The [blur] listener of an e-mail field never changes the value and
    leaves an empty field untouched.  On a non-empty value it sets exactly
    one of the classes, 'valid' exactly when the value reads
    [a@b.c] with [a], [b], [c] non-empty and free of white space and of
    [@]; such a value holds exactly one [@] and no white space at all. *)
Theorem email_blur_accepts_shape (f : Fields.Field) :
  value (onEmailBlur f) = value f
  /\ (value f = [] -> onEmailBlur f = f)
  /\ (value f <> [] ->
      invalid (onEmailBlur f) = negb (valid (onEmailBlur f))
      /\ (valid (onEmailBlur f) = true <->
          exists a b c,
            value f = a ++ [64%N] ++ b ++ [46%N] ++ c
            /\ a <> [] /\ b <> [] /\ c <> []
            /\ forallb plain a = true /\ forallb plain b = true
            /\ forallb plain c = true)
      /\ (valid (onEmailBlur f) = true ->
          length (List.filter (N.eqb 64) (value f)) = 1%nat
          /\ forallb (fun c => negb (is_space c)) (value f) = true)).
Proof.
  assert (Hv : value f <> [] ->
     valid (onEmailBlur f) = matchb emailPattern (value f)
     /\ invalid (onEmailBlur f) = negb (matchb emailPattern (value f))).
  { intros Hne. unfold onEmailBlur, nonEmpty.
    assert (streq (value f) [] = false) as -> by (by apply streq_false).
    by destruct (matchb emailPattern (value f)). }
  split; [|split].
  - unfold onEmailBlur. by repeat case_match.
  - intros E. unfold onEmailBlur, nonEmpty. rewrite E.
    by destruct (matchb emailPattern []).
  - intros Hne. destruct (Hv Hne) as [Hval Hinv]. rewrite Hval, Hinv.
    split; [done|]. split; [apply emailPattern_shape|].
    intros (a & b & c & -> & _ & _ & _ & Fa & Fb & Fc)%emailPattern_shape.
    split.
    + rewrite !List.filter_app, (count_at_plain a Fa), (count_at_plain b Fb),
        (count_at_plain c Fc). reflexivity.
    + rewrite !forallb_app, (no_space_plain a Fa), (no_space_plain b Fb),
        (no_space_plain c Fc). reflexivity.
Qed.

(** *** White space in text inputs *)

Lemma collapseFrom_true_head s : startsWithSpace (collapseFrom true s) = false.
Proof.
  induction s as [|c s IH]; [done|]. cbn [collapseFrom].
  destruct (is_space c) eqn:E; [exact IH|]. simpl. exact E.
Qed.

Lemma adjacentSpaces_cons c s :
  adjacentSpaces (c :: s) = (is_space c && startsWithSpace s) || adjacentSpaces s.
Proof. destruct s as [|d s]; [by rewrite andb_false_r|done]. Qed.

Lemma collapseFrom_no_adjacent b s : adjacentSpaces (collapseFrom b s) = false.
Proof.
  revert b. induction s as [|c s IH]; intros b; [done|]. cbn [collapseFrom].
  destruct (is_space c) eqn:E.
  - destruct b; [apply IH|].
    rewrite adjacentSpaces_cons, collapseFrom_true_head, IH.
    by rewrite andb_false_r.
  - rewrite adjacentSpaces_cons, E, IH. done.
Qed.

Lemma collapseFrom_plain_spaces b s : onlyPlainSpaces (collapseFrom b s) = true.
Proof.
  revert b. induction s as [|c s IH]; intros b; [done|]. cbn [collapseFrom].
  unfold onlyPlainSpaces in *.
  destruct (is_space c) eqn:E.
  - destruct b; [apply IH|]. cbn [forallb]. rewrite IH. done.
  - cbn [forallb]. rewrite E, IH. done.
Qed.

(** A string in normal form is left as it is. *)
Lemma collapseFrom_fixed s :
  onlyPlainSpaces s = true -> adjacentSpaces s = false ->
  collapseFrom false s = s
  /\ (startsWithSpace s = false -> collapseFrom true s = s).
Proof.
  induction s as [|c s IH]; [done|].
  unfold onlyPlainSpaces. cbn [forallb]. fold (onlyPlainSpaces s).
  rewrite adjacentSpaces_cons.
  intros [Hc Hs]%andb_true_iff [Hh Ha]%orb_false_iff.
  destruct (IH Hs Ha) as [IH1 IH2]. cbn [collapseFrom startsWithSpace].
  destruct (is_space c) eqn:E.
  - simpl in Hc, Hh. apply N.eqb_eq in Hc as ->.
    split; [|done]. by rewrite IH2.
  - split; [by rewrite IH1|]. intros _. by rewrite IH1.
Qed.

Lemma collapseFrom_keeps_text b s :
  withoutSpaces (collapseFrom b s) = withoutSpaces s.
Proof.
  revert b. induction s as [|c s IH]; intros b; [done|].
  unfold withoutSpaces in *. cbn [collapseFrom List.filter].
  destruct (is_space c) eqn:E; cbn [negb].
  - destruct b; [apply IH|]. cbn [List.filter].
    assert (is_space 32 = true) as -> by reflexivity. apply IH.
  - cbn [List.filter]. rewrite E. cbn [negb]. by rewrite IH.
Qed.

Lemma collapseFrom_length b s : (length (collapseFrom b s) <= length s)%nat.
Proof.
  revert b. induction s as [|c s IH]; intros b; [done|]. cbn [collapseFrom].
  destruct (is_space c); [destruct b|]; simpl;
    [pose proof (IH true)|pose proof (IH true)|pose proof (IH false)]; lia.
Qed.

Lemma collapseFrom_spaces w :
  forallb is_space w = true ->
  collapseFrom true w = [] /\ (w <> [] -> collapseFrom false w = [32%N]).
Proof.
  induction w as [|c w IH]; [done|]. cbn [forallb collapseFrom].
  intros [-> Hw]%andb_true_iff. destruct (IH Hw) as [IH1 _].
  split; [done|]. intros _. by rewrite IH1.
Qed.

Lemma collapseFrom_split b a c t :
  is_space c = false ->
  collapseFrom b (a ++ c :: t) = collapseFrom b a ++ c :: collapseFrom false t.
Proof.
  intros Hc. revert b. induction a as [|d a IH]; intros b.
  - cbn [app collapseFrom]. by rewrite Hc.
  - cbn [app collapseFrom]. destruct (is_space d); [destruct b|];
      cbn [app]; by rewrite IH.
Qed.

(** X2. The white-space listener of text and e-mail inputs replaces
    every run of white space by one plain space and keeps the rest: a
    non-empty run alone becomes one space, and around a character that is
    not white space the two sides are treated on their own.  So the result
    has no two white-space units side by side, none but plain spaces, the
    other characters in their order, is never longer than the value, and
    is left unchanged when the listener runs again. *)
Theorem collapse_normal_form (s : Js.jsstring) :
  (forallb is_space s = true -> s <> [] -> collapse s = [32%N])
  /\ (forall a c b, s = a ++ c :: b -> is_space c = false ->
         collapse s = collapse a ++ c :: collapse b)
  /\ adjacentSpaces (collapse s) = false
  /\ onlyPlainSpaces (collapse s) = true
  /\ withoutSpaces (collapse s) = withoutSpaces s
  /\ (length (collapse s) <= length s)%nat
  /\ (adjacentSpaces s = false -> onlyPlainSpaces s = true -> collapse s = s)
  /\ value (onTextInput (onTextInput (setValue s emptyField)))
     = value (onTextInput (setValue s emptyField)).
Proof.
  unfold collapse.
  pose proof (collapseFrom_no_adjacent false s) as H1.
  pose proof (collapseFrom_plain_spaces false s) as H2.
  destruct (collapseFrom_fixed _ H2 H1) as [H3 _].
  split; [intros Hw Hne; by apply collapseFrom_spaces|].
  split; [intros a c b -> Hc; by apply collapseFrom_split|].
  split; [done|]. split; [done|].
  split; [apply collapseFrom_keeps_text|].
  split; [apply collapseFrom_length|].
  split; [|exact H3].
  intros Ha Hp. by apply collapseFrom_fixed.
Qed.

(** *** Telephone *)

Lemma digit_not_space c : is_digit c = true -> is_space c = false.
Proof.
  unfold is_digit, is_space, in_range. intros H.
  apply andb_true_iff in H as [H1%N.leb_le H2%N.leb_le].
  repeat (apply orb_false_intro); try (apply N.eqb_neq; lia).
  - apply andb_false_iff. right. apply N.leb_gt. lia.
  - apply andb_false_iff. left. apply N.leb_gt. lia.
Qed.

Lemma is789_digit c : is789 c = true -> is_digit c = true.
Proof.
  unfold is789, is_digit, in_range.
  intros [H1%N.leb_le H2%N.leb_le]%andb_true_iff.
  apply andb_true_iff. split; apply N.leb_le; lia.
Qed.

Lemma is01_digit c : is01 c = true -> is_digit c = true.
Proof.
  unfold is01, is_digit, in_range.
  intros [H1%N.leb_le H2%N.leb_le]%andb_true_iff.
  apply andb_true_iff. split; apply N.leb_le; lia.
Qed.

Lemma digitsOf_digits v : forallb is_digit (digitsOf v) = true.
Proof.
  unfold digitsOf. apply forallb_forall. intros c Hc.
  by apply List.filter_In in Hc as [_ Hc].
Qed.

Lemma digitsOf_fixed s : forallb is_digit s = true -> digitsOf s = s.
Proof.
  unfold digitsOf. induction s as [|c s IH]; [done|]. cbn [forallb List.filter].
  intros [-> Hs]%andb_true_iff. by rewrite IH.
Qed.

Lemma withoutSpaces_digits s : forallb is_digit s = true -> withoutSpaces s = s.
Proof.
  unfold withoutSpaces. induction s as [|c s IH]; [done|]. cbn [forallb List.filter].
  intros [Hc Hs]%andb_true_iff. by rewrite (digit_not_space c Hc), IH.
Qed.

Lemma digitsOf_withoutSpaces v : digitsOf (withoutSpaces v) = digitsOf v.
Proof.
  unfold digitsOf, withoutSpaces. induction v as [|c v IH]; [done|].
  cbn [List.filter]. destruct (is_space c) eqn:E; cbn [negb List.filter].
  - destruct (is_digit c) eqn:D; [|done].
    apply digit_not_space in D. congruence.
  - by rewrite IH.
Qed.

Lemma digitsOf_app s t : digitsOf (s ++ t) = digitsOf s ++ digitsOf t.
Proof. apply List.filter_app. Qed.

Lemma withoutSpaces_app s t : withoutSpaces (s ++ t) = withoutSpaces s ++ withoutSpaces t.
Proof. apply List.filter_app. Qed.

(** What the telephone pattern accepts. *)
Lemma phonePattern_shape s :
  matchb phonePattern s = true <->
  exists d1 d2 rest,
    (s = lit "+234" ++ [d1; d2] ++ rest \/ s = lit "0" ++ [d1; d2] ++ rest)
    /\ is789 d1 = true /\ is01 d2 = true
    /\ length rest = 8%nat /\ forallb is_digit rest = true.
Proof.
  rewrite matchb_spec. unfold phonePattern. rewrite matches_seq. split.
  - intros (p & t1 & -> & Hp%matches_alt & H).
    apply matches_seq in H as (x & t2 & -> & (d1 & -> & H1)%matches_class & H).
    apply matches_seq in H as (y & rest & -> & (d2 & -> & H2)%matches_class & H).
    apply matches_times_class in H as [Hl Hr].
    exists d1, d2, rest. split; [|done].
    destruct Hp as [->%matches_lit | ->%matches_lit]; [by left|by right].
  - intros (d1 & d2 & rest & Hs & H1 & H2 & Hl & Hr).
    assert (Htail : Matches (Seq (Class is789) (Seq (Class is01) (Times 8 (Class is_digit))))
                      ([d1; d2] ++ rest)).
    { apply matches_seq. exists [d1], ([d2] ++ rest). split; [done|].
      split; [by constructor|]. apply matches_seq. exists [d2], rest.
      split; [done|]. split; [by constructor|]. by apply matches_times_class. }
    destruct Hs as [-> | ->]; eexists _, _; (split; [reflexivity|]);
      (split; [|exact Htail]); apply matches_alt;
      [left|right]; by apply matches_lit.
Qed.

(** The blur formatter on the digits of a full number, local or with the
    country code. *)
Lemma blurValue_full v d1 d2 rest :
  digitsOf v = [48%N; d1; d2] ++ rest \/ digitsOf v = lit "234" ++ [d1; d2] ++ rest ->
  length rest = 8%nat ->
  blurValue v = canonical d1 d2 rest.
Proof.
  intros H Hl. unfold blurValue.
  do 9 (destruct rest as [|? rest]; try discriminate Hl). clear Hl.
  destruct H as [-> | ->]; reflexivity.
Qed.

Lemma canonical_nonempty d1 d2 rest : canonical d1 d2 rest <> [].
Proof. done. Qed.

Lemma withoutSpaces_canonical d1 d2 rest :
  is_digit d1 = true -> is_digit d2 = true -> forallb is_digit rest = true ->
  withoutSpaces (canonical d1 d2 rest) = lit "+234" ++ [d1; d2] ++ rest.
Proof.
  intros H1 H2 Hr. unfold canonical, slice, sliceFrom.
  assert (Ha : forallb is_digit (take 1 rest) = true).
  { apply forallb_forall. intros c Hc%list_elem_of_In%elem_of_take.
    destruct Hc as (i & Hc & _). rewrite forallb_forall in Hr. apply Hr.
    apply list_elem_of_In. by eapply list_elem_of_lookup_2. }
  assert (Hb : forallb is_digit (take (4 - 1) (drop 1 rest)) = true).
  { apply forallb_forall. intros c Hc%list_elem_of_In%elem_of_take.
    destruct Hc as (i & Hc & _). rewrite lookup_drop in Hc.
    rewrite forallb_forall in Hr. apply Hr.
    apply list_elem_of_In. by eapply list_elem_of_lookup_2. }
  assert (Hc : forallb is_digit (drop 4 rest) = true).
  { apply forallb_forall. intros c Hc%list_elem_of_In%list_elem_of_lookup.
    destruct Hc as (i & Hc). rewrite lookup_drop in Hc.
    rewrite forallb_forall in Hr. apply Hr.
    apply list_elem_of_In. by eapply list_elem_of_lookup_2. }
  rewrite !withoutSpaces_app.
  rewrite (withoutSpaces_digits _ Ha), (withoutSpaces_digits _ Hb),
    (withoutSpaces_digits _ Hc).
  assert (withoutSpaces [d1; d2] = [d1; d2]) as ->.
  { apply withoutSpaces_digits. simpl. by rewrite H1, H2. }
  assert (take 1 rest ++ take (4 - 1) (drop 1 rest) ++ drop 4 rest = rest) as E.
  { rewrite <- (take_drop 1 rest) at 4. f_equal.
    rewrite <- (take_drop 3 (drop 1 rest)) at 2. f_equal.
    by rewrite drop_drop. }
  change (withoutSpaces (lit "+234 ")) with (lit "+234").
  change (withoutSpaces (lit " ")) with (@nil N).
  rewrite !app_nil_l. by rewrite E.
Qed.

Lemma digitsOf_canonical d1 d2 rest :
  is_digit d1 = true -> is_digit d2 = true -> forallb is_digit rest = true ->
  digitsOf (canonical d1 d2 rest) = lit "234" ++ [d1; d2] ++ rest.
Proof.
  intros H1 H2 Hr.
  rewrite <- digitsOf_withoutSpaces, withoutSpaces_canonical by done.
  change (lit "+234") with ([43%N] ++ lit "234").
  rewrite <- app_assoc, digitsOf_app. change (digitsOf [43%N]) with (@nil N).
  rewrite app_nil_l. apply digitsOf_fixed.
  rewrite !forallb_app. simpl. by rewrite H1, H2, Hr.
Qed.

(** The three digit facts carried by the digits of a value. *)
Lemma full_digits v d1 d2 rest :
  digitsOf v = [48%N; d1; d2] ++ rest \/ digitsOf v = lit "234" ++ [d1; d2] ++ rest ->
  is_digit d1 = true /\ is_digit d2 = true /\ forallb is_digit rest = true.
Proof.
  intros H. pose proof (digitsOf_digits v) as Hd.
  destruct H as [H|H]; rewrite H in Hd; simpl in Hd;
    repeat (apply andb_true_iff in Hd as [? Hd]); done.
Qed.

(** The outcome of the blur listener in terms of its test. *)
Lemma onPhoneBlur_marks f :
  value (onPhoneBlur f) = blurValue (value f)
  /\ (blurValue (value f) <> [] ->
      valid (onPhoneBlur f) = matchb phonePattern (withoutSpaces (blurValue (value f)))
      /\ invalid (onPhoneBlur f)
         = negb (matchb phonePattern (withoutSpaces (blurValue (value f))))).
Proof.
  unfold onPhoneBlur. cbn [value setValue].
  destruct (blurValue (value f)) as [|c t] eqn:E.
  - split; [|done]. by vm_compute.
  - unfold nonEmpty.
    assert (streq (c :: t) [] = false) as -> by (by apply streq_false).
    cbn [negb andb]. rewrite andb_true_r.
    destruct (matchb phonePattern (withoutSpaces (c :: t))); cbn; by rewrite ?E.
Qed.

Lemma canonical_matches d1 d2 rest :
  length rest = 8%nat -> forallb is_digit rest = true ->
  matchb phonePattern (lit "+234" ++ [d1; d2] ++ rest) = is789 d1 && is01 d2.
Proof.
  intros Hl Hr. apply eq_true_iff_eq. rewrite phonePattern_shape, andb_true_iff.
  split.
  - intros (e1 & e2 & rest' & [E|E] & H1 & H2 & _); [|discriminate E].
    injection E as <- <- _. done.
  - intros [H1 H2]. exists d1, d2, rest. split; [by left|done].
Qed.

(** X3. Leaving a telephone field whose digits are a full number (eleven
    digits from 0, or thirteen from 234) rewrites it as +234 XXX XXX XXXX,
    whatever else was typed between the digits, and marks it valid exactly
    when the first digit after the prefix is 7-9 and the next one 0-1. *)
Theorem phone_blur_formats_full_number (f : Fields.Field) (d1 d2 : N) (rest : jsstring) :
  digitsOf (value f) = [48%N; d1; d2] ++ rest
  \/ digitsOf (value f) = lit "234" ++ [d1; d2] ++ rest ->
  length rest = 8%nat ->
  value (onPhoneBlur f) = canonical d1 d2 rest
  /\ valid (onPhoneBlur f) = is789 d1 && is01 d2
  /\ invalid (onPhoneBlur f) = negb (is789 d1 && is01 d2).
Proof.
  intros H Hl. destruct (onPhoneBlur_marks f) as [Hv Hm].
  destruct (full_digits _ _ _ _ H) as (D1 & D2 & Dr).
  rewrite (blurValue_full _ _ _ _ H Hl) in Hv, Hm.
  destruct (Hm (canonical_nonempty _ _ _)) as [Hvalid Hinvalid].
  rewrite withoutSpaces_canonical, canonical_matches in Hvalid, Hinvalid by done.
  done.
Qed.

Lemma phone_blur_formats_full_number_witness :
  value (onPhoneBlur (setValue (lit "0801-234 5678") emptyField))
  = lit "+234 801 234 5678"
  /\ valid (onPhoneBlur (setValue (lit "0801-234 5678") emptyField)) = true
  /\ invalid (onPhoneBlur (setValue (lit "0801-234 5678") emptyField)) = false.
Proof.
  exact (phone_blur_formats_full_number (setValue (lit "0801-234 5678") emptyField)
           56%N 48%N (lit "12345678") (or_introl eq_refl) eq_refl).
Defined.

Lemma blurValue_nonempty v : v <> [] -> blurValue v <> [].
Proof.
  intros Hv. unfold blurValue.
  destruct (_ && _); [discriminate|done].
Qed.

(** The blur formatter either found a full number or left the value. *)
Lemma blurValue_cases v :
  (exists d1 d2 rest,
      (digitsOf v = [48%N; d1; d2] ++ rest \/ digitsOf v = lit "234" ++ [d1; d2] ++ rest)
      /\ length rest = 8%nat)
  \/ (blurValue v = v
      /\ ~ (exists d1 d2 rest,
              (digitsOf v = [48%N; d1; d2] ++ rest
               \/ digitsOf v = lit "234" ++ [d1; d2] ++ rest)
              /\ length rest = 8%nat)).
Proof.
  destruct (decide (length (digitsOf v) = 11%nat /\ startsWith (lit "0") (digitsOf v) = true))
    as [[Hl Hs]|Hno0].
  { left. destruct (digitsOf v) as [|c0 [|d1 [|d2 rest]]]; try discriminate Hl.
    exists d1, d2, rest. split; [|simpl in Hl; lia].
    left. unfold startsWith in Hs. cbn in Hs.
    apply streq_true in Hs. by injection Hs as ->. }
  destruct (decide (length (digitsOf v) = 13%nat
                    /\ startsWith (lit "234") (digitsOf v) = true)) as [[Hl Hs]|Hno234].
  { left. destruct (digitsOf v) as [|c0 [|c1 [|c2 [|d1 [|d2 rest]]]]]; try discriminate Hl.
    exists d1, d2, rest. split; [|simpl in Hl; lia].
    right. unfold startsWith in Hs. cbn in Hs.
    apply streq_true in Hs. by injection Hs as -> -> ->. }
  right. split.
  - unfold blurValue.
    destruct (startsWith (lit "0") (digitsOf v)) eqn:S0;
      destruct (bool_decide (length (digitsOf v) = 11%nat)) eqn:L0;
      try (apply bool_decide_eq_true in L0; by destruct Hno0).
    all: cbn [andb].
    all: destruct (startsWith (lit "234") (digitsOf v)) eqn:S2;
      destruct (bool_decide (length (digitsOf v) = 13%nat)) eqn:L2;
      try (apply bool_decide_eq_true in L2; by destruct Hno234); done.
  - intros (d1 & d2 & rest & [E|E] & Hl).
    + apply Hno0. rewrite E. split; [simpl; lia|done].
    + apply Hno234. rewrite E. split; [simpl; lia|done].
Qed.

(** X4. After leaving a telephone field that is not empty, the field is
    marked valid exactly when its value now has the shape +234 XXX XXX XXXX
    with digits the pattern accepts; otherwise it is marked invalid.  So
    no other way of writing a number survives as valid. *)
Theorem phone_blur_valid_iff_canonical (f : Fields.Field) :
  value f <> [] ->
  (valid (onPhoneBlur f) = true <-> canonicalNumber (value (onPhoneBlur f)))
  /\ invalid (onPhoneBlur f) = negb (valid (onPhoneBlur f)).
Proof.
  intros Hne. destruct (onPhoneBlur_marks f) as [Hv Hm].
  destruct (Hm (blurValue_nonempty _ Hne)) as [Hvalid Hinvalid].
  split; [|by rewrite Hinvalid, Hvalid].
  rewrite Hvalid, Hv. split.
  - intros Hmatch. apply phonePattern_shape in Hmatch
      as (d1 & d2 & rest & Hs & H1 & H2 & Hl & Hr).
    assert (Hd : digitsOf (blurValue (value f)) = [48%N; d1; d2] ++ rest
                 \/ digitsOf (blurValue (value f)) = lit "234" ++ [d1; d2] ++ rest).
    { rewrite <- digitsOf_withoutSpaces.
      assert (Hds : digitsOf ([d1; d2] ++ rest) = [d1; d2] ++ rest).
      { apply digitsOf_fixed. simpl.
        by rewrite (is789_digit _ H1), (is01_digit _ H2), Hr. }
      destruct Hs as [-> | ->].
      - right. change (lit "+234") with ([43%N] ++ lit "234").
        rewrite <- app_assoc, digitsOf_app, digitsOf_app, Hds. done.
      - left. rewrite digitsOf_app, Hds. done. }
    exists d1, d2, rest. split; [|done].
    destruct (blurValue_cases (value f)) as [(e1 & e2 & rest' & He & Hl')|[Hsame _]].
    + rewrite (blurValue_full _ _ _ _ He Hl') in Hd |- *.
      destruct (full_digits _ _ _ _ He) as (E1 & E2 & Er).
      rewrite digitsOf_canonical in Hd by done.
      destruct Hd as [Hd|Hd]; [discriminate Hd|].
      injection Hd as -> -> ->. done.
    + rewrite Hsame in Hd |- *. rewrite <- Hsame.
      by apply blurValue_full.
  - intros (d1 & d2 & rest & -> & H1 & H2 & Hl & Hr).
    rewrite withoutSpaces_canonical, canonical_matches
      by auto using is789_digit, is01_digit.
    by rewrite H1, H2.
Qed.

Lemma phone_blur_valid_iff_canonical_witness :
  (valid (onPhoneBlur (setValue (lit "08012345678") emptyField)) = true
   <-> canonicalNumber (value (onPhoneBlur (setValue (lit "08012345678") emptyField))))
  /\ invalid (onPhoneBlur (setValue (lit "08012345678") emptyField))
     = negb (valid (onPhoneBlur (setValue (lit "08012345678") emptyField))).
Proof.
  apply (phone_blur_valid_iff_canonical (setValue (lit "08012345678") emptyField)).
  discriminate.
Defined.

Lemma setValue_same f : setValue (value f) f = f.
Proof. by destruct f. Qed.

Lemma blurValue_idem v : blurValue (blurValue v) = blurValue v.
Proof.
  destruct (blurValue_cases v) as [(d1 & d2 & rest & He & Hl)|[Hsame _]].
  - destruct (full_digits _ _ _ _ He) as (E1 & E2 & Er).
    rewrite (blurValue_full _ _ _ _ He Hl).
    apply blurValue_full; [|done]. right. by apply digitsOf_canonical.
  - by rewrite Hsame.
Qed.

(** X5. Leaving a telephone field a second time changes nothing: the
    value written by the first blur is a fixed point of the formatter and
    receives the same marks. *)
Theorem phone_blur_idempotent (f : Fields.Field) :
  onPhoneBlur (onPhoneBlur f) = onPhoneBlur f.
Proof.
  assert (Hstep : forall g, value g = blurValue (value f) ->
            onPhoneBlur g =
            (if negb (matchb phonePattern (withoutSpaces (value g))) && nonEmpty (value g)
             then markInvalid g else if nonEmpty (value g) then markValid g else g)).
  { intros g Hg. unfold onPhoneBlur. cbn [value setValue].
    rewrite Hg, blurValue_idem, <- Hg, setValue_same. done. }
  rewrite Hstep by apply onPhoneBlur_marks.
  unfold onPhoneBlur. cbn [value setValue].
  destruct (matchb phonePattern (withoutSpaces (blurValue (value f)))) eqn:C;
    destruct (nonEmpty (blurValue (value f))) eqn:E;
    cbn [negb andb value markValid markInvalid setValue]; by rewrite C, E.
Qed.

Lemma forallb_take {A} (P : A -> bool) n (s : list A) :
  forallb P s = true -> forallb P (take n s) = true.
Proof.
  revert n. induction s as [|c s IH]; intros [|n]; try done.
  cbn [take forallb]. intros [-> Hs]%andb_true_iff. by apply IH.
Qed.

Lemma forallb_drop {A} (P : A -> bool) n (s : list A) :
  forallb P s = true -> forallb P (drop n s) = true.
Proof.
  revert n. induction s as [|c s IH]; intros [|n]; try done.
  cbn [drop forallb]. intros [_ Hs]%andb_true_iff. by apply IH.
Qed.

Lemma digits_phoneUnit s : forallb is_digit s = true -> forallb phoneUnit s = true.
Proof.
  induction s as [|c s IH]; [done|]. cbn [forallb].
  intros [Hc Hs]%andb_true_iff. unfold phoneUnit at 1. by rewrite Hc, IH.
Qed.

(** The two space insertions of the input formatter, on any string. *)
Lemma group_steps (w : jsstring) :
  (let w1 := if bool_decide (8 < length w)%nat
             then slice 0 8 w ++ lit " " ++ sliceFrom 8 w else w in
   if bool_decide (12 < length w1)%nat
   then slice 0 12 w1 ++ lit " " ++ sliceFrom 12 w1 else w1)
  = grouped 8 w.
Proof.
  cbv zeta. unfold grouped, slice, sliceFrom. rewrite !drop_0.
  change (lit " ") with [32%N].
  destruct (decide (length w <= 8)%nat) as [H8|H8].
  { rewrite (bool_decide_eq_false_2 (8 < length w)%nat) by lia.
    rewrite (bool_decide_eq_false_2 (12 < length w)%nat) by lia.
    by rewrite (bool_decide_eq_true_2 (length w <= 8)%nat). }
  rewrite (bool_decide_eq_true_2 (8 < length w)%nat) by lia.
  rewrite (bool_decide_eq_false_2 (length w <= 8)%nat) by done.
  assert (Hl : length (take (8 - 0) w ++ [32%N] ++ drop 8 w) = S (length w)).
  { rewrite !length_app, length_take, length_drop. cbn [length]. lia. }
  rewrite Hl.
  destruct (decide (length w <= 8 + 3)%nat) as [H11|H11].
  { rewrite (bool_decide_eq_false_2 (12 < S (length w))%nat) by lia.
    by rewrite (bool_decide_eq_true_2 (length w <= 8 + 3)%nat). }
  rewrite (bool_decide_eq_true_2 (12 < S (length w))%nat) by lia.
  rewrite (bool_decide_eq_false_2 (length w <= 8 + 3)%nat) by done.
  assert (Ht : length (take (8 - 0) w) = 8%nat) by (rewrite length_take; lia).
  change (12 - 0)%nat with (8 + 4)%nat.
  change (drop 12) with (@drop N (8 + 4)).
  rewrite (take_app_add' _ _ 8 4 (eq_sym Ht)), (drop_app_add' _ _ 8 4 (eq_sym Ht)).
  change (take 4 ([32%N] ++ drop 8 w)) with (32%N :: take 3 (drop 8 w)).
  change (drop 4 ([32%N] ++ drop 8 w)) with (drop 3 (drop 8 w)).
  rewrite drop_drop. change (8 - 0)%nat with 8%nat.
  by rewrite <- app_assoc.
Qed.

Lemma grouped_prefixed (ds : jsstring) :
  grouped 8 (lit "+234 " ++ ds) = lit "+234 " ++ grouped 3 ds.
Proof.
  unfold grouped. change (length (lit "+234 " ++ ds)) with (5 + length ds)%nat.
  destruct (decide (length ds <= 3)%nat) as [H3|H3].
  { rewrite (bool_decide_eq_true_2 (5 + length ds <= 8)%nat) by lia.
    by rewrite (bool_decide_eq_true_2 (length ds <= 3)%nat). }
  rewrite (bool_decide_eq_false_2 (5 + length ds <= 8)%nat) by lia.
  rewrite (bool_decide_eq_false_2 (length ds <= 3)%nat) by done.
  destruct (decide (length ds <= 3 + 3)%nat) as [H6|H6].
  { rewrite (bool_decide_eq_true_2 (5 + length ds <= 8 + 3)%nat) by lia.
    by rewrite (bool_decide_eq_true_2 (length ds <= 3 + 3)%nat). }
  rewrite (bool_decide_eq_false_2 (5 + length ds <= 8 + 3)%nat) by lia.
  by rewrite (bool_decide_eq_false_2 (length ds <= 3 + 3)%nat).
Qed.

Lemma typedValue_grouped (v : jsstring) :
  digitsOf v <> [] ->
  typedValue v
  = take 18 (grouped 8 (if startsWith (lit "234") (digitsOf v)
                        then lit "+234 " ++ sliceFrom 3 (digitsOf v)
                        else if startsWith (lit "0") (digitsOf v)
                             then lit "+234 " ++ sliceFrom 1 (digitsOf v)
                             else digitsOf v)).
Proof.
  intros Hne. unfold typedValue. cbv zeta.
  rewrite bool_decide_eq_true_2 by (destruct (digitsOf v); [done|simpl; lia]).
  unfold slice at 1. rewrite drop_0. f_equal. apply group_steps.
Qed.

(** X6. While the user types in a telephone field, a value without any
    digit is left as typed.  Otherwise the digits are written back, with
    a leading 0 or 234 replaced by "+234 ", in groups separated by one
    space (after the prefix three, three and the rest; without a prefix
    eight, three and the rest) and cut to 18 units, all of them digits, +
    or the plain space.  As soon as the digits are a full number the value
    is the same +234 XXX XXX XXXX that the blur listener writes, so
    leaving the field afterwards changes no character. *)
Theorem phone_input_formats (v : jsstring) :
  (digitsOf v = [] -> typedValue v = v)
  /\ (digitsOf v <> [] ->
      (length (typedValue v) <= 18)%nat /\ forallb phoneUnit (typedValue v) = true)
  /\ (forall ds,
        digitsOf v = [48%N] ++ ds \/ digitsOf v = lit "234" ++ ds ->
        typedValue v = take 18 (lit "+234 " ++ grouped 3 ds))
  /\ (digitsOf v <> [] ->
      startsWith (lit "0") (digitsOf v) = false ->
      startsWith (lit "234") (digitsOf v) = false ->
      typedValue v = take 18 (grouped 8 (digitsOf v)))
  /\ (forall d1 d2 rest,
        digitsOf v = [48%N; d1; d2] ++ rest
        \/ digitsOf v = lit "234" ++ [d1; d2] ++ rest ->
        length rest = 8%nat ->
        typedValue v = canonical d1 d2 rest
        /\ blurValue (typedValue v) = typedValue v
        /\ typedValue (typedValue v) = typedValue v).
Proof.
  split; [|split; [|split; [|split]]].
  - intros E. unfold typedValue. by rewrite E.
  - intros Hne. unfold typedValue.
    pose proof (digits_phoneUnit _ (digitsOf_digits v)) as Hd.
    destruct (digitsOf v) as [|c d] eqn:E; [done|]. clear Hne.
    rewrite bool_decide_eq_true_2 by (simpl; lia).
    unfold slice at 1. split; [rewrite length_take; lia|].
    apply forallb_take. rewrite drop_0.
    set (w1 := if startsWith (lit "234") (c :: d) then _ else _).
    assert (H1 : forallb phoneUnit w1 = true).
    { subst w1. destruct (startsWith (lit "234") (c :: d));
        [|destruct (startsWith (lit "0") (c :: d))]; [| |done].
      all: rewrite forallb_app; apply andb_true_iff; split; [done|].
      all: by apply forallb_drop. }
    clearbody w1.
    set (w2 := if bool_decide (8 < length w1)%nat then _ else _).
    assert (H2 : forallb phoneUnit w2 = true).
    { subst w2. destruct (bool_decide (8 < length w1)%nat); [|done].
      rewrite !forallb_app, !andb_true_iff. unfold slice, sliceFrom.
      split; [by apply forallb_take, forallb_drop|].
      split; [done|by apply forallb_drop]. }
    clearbody w2.
    destruct (bool_decide (12 < length w2)%nat); [|done].
    rewrite !forallb_app, !andb_true_iff. unfold slice, sliceFrom.
    split; [by apply forallb_take, forallb_drop|].
    split; [done|by apply forallb_drop].
  - intros ds Hd. rewrite typedValue_grouped by (destruct Hd as [-> | ->]; done).
    destruct Hd as [-> | ->].
    + assert (startsWith (lit "234") ([48%N] ++ ds) = false) as ->.
      { unfold startsWith, streq. apply bool_decide_eq_false_2. by intros [=]. }
      assert (startsWith (lit "0") ([48%N] ++ ds) = true) as -> by reflexivity.
      by rewrite grouped_prefixed.
    + assert (startsWith (lit "234") (lit "234" ++ ds) = true) as -> by reflexivity.
      by rewrite grouped_prefixed.
  - intros Hne H0 H2. rewrite typedValue_grouped by done. by rewrite H0, H2.
  - intros d1 d2 rest H Hl.
    assert (Ht : forall w, (digitsOf w = [48%N; d1; d2] ++ rest
                            \/ digitsOf w = lit "234" ++ [d1; d2] ++ rest) ->
                           typedValue w = canonical d1 d2 rest).
    { intros w Hw. unfold typedValue.
      do 9 (destruct rest as [|? rest]; try discriminate Hl).
      destruct Hw as [-> | ->]; reflexivity. }
    destruct (full_digits _ _ _ _ H) as (E1 & E2 & Er).
    rewrite (Ht v H). split; [done|]. split.
    + apply blurValue_full; [|done]. right. by apply digitsOf_canonical.
    + apply Ht. right. by apply digitsOf_canonical.
Qed.

(** *** The two password fields *)

Lemma onRequiredInput_keeps f :
  value (onRequiredInput f) = value f
  /\ invalid (onRequiredInput f) = invalid f
  /\ customValidity (onRequiredInput f) = customValidity f
  /\ valid (onRequiredInput f) = negb (blank (value f)).
Proof. unfold onRequiredInput. by destruct (blank (value f)). Qed.

Lemma commonInput_other c :
  kind c = KOther ->
  kind (commonInput c) = KOther
  /\ required (commonInput c) = required c
  /\ value (field (commonInput c)) = value (field c)
  /\ invalid (field (commonInput c)) = invalid (field c)
  /\ customValidity (field (commonInput c)) = customValidity (field c)
  /\ valid (field (commonInput c))
     = (if required c then negb (blank (value (field c))) else valid (field c)).
Proof.
  intros K. unfold commonInput. rewrite K. cbn [kind required field withField].
  destruct (required c); [|done].
  destruct (onRequiredInput_keeps (field c)) as (V & I & C & B).
  destruct (onRequiredInput_keeps (onRequiredInput (field c))) as (V' & I' & C' & B').
  rewrite V', I', C', B', V, I, C. done.
Qed.

(** The confirmation control after its [input] event, field by field. *)
Lemma confirmInput_fields p :
  kind (confirmPasswordField p) = KOther ->
  let pw := value (field (passwordField p)) in
  let cf := field (confirmPasswordField p) in
  let cf' := field (confirmPasswordField (confirmInput p)) in
  passwordField (confirmInput p) = passwordField p
  /\ kind (confirmPasswordField (confirmInput p)) = KOther
  /\ required (confirmPasswordField (confirmInput p)) = required (confirmPasswordField p)
  /\ value cf' = value cf
  /\ invalid cf' = negb (streq (value cf) pw)
  /\ customValidity cf'
     = (if streq (value cf) pw then "" else "Passwords do not match")%string
  /\ valid cf' = (if required (confirmPasswordField p) then negb (blank (value cf))
                 else streq (value cf) pw).
Proof.
  intros K pw cf cf'. subst cf'. unfold confirmInput.
  cbn [passwordField confirmPasswordField].
  set (c := withField _ _).
  assert (Kc : kind c = KOther) by done.
  destruct (commonInput_other c Kc) as (K' & R & V & I & C & B).
  rewrite K', R, V, I, C, B. subst c. cbn [required field withField].
  unfold onConfirmInput. fold cf pw.
  by destruct (streq (value cf) pw).
Qed.

Lemma passwordInput_fields p :
  passwordControls p ->
  passwordControls (passwordInput p)
  /\ value (field (passwordField (passwordInput p))) = value (field (passwordField p))
  /\ confirmPasswordField (passwordInput p)
     = (if nonEmpty (value (field (confirmPasswordField p)))
        then confirmPasswordField (confirmInput p) else confirmPasswordField p).
Proof.
  intros [Kp Kc]. unfold passwordInput.
  destruct (confirmInput_fields p Kc) as (P & K' & _).
  destruct (nonEmpty (value (field (confirmPasswordField p))));
    cbn [passwordField confirmPasswordField]; rewrite ?P;
    destruct (commonInput_other _ Kp) as (Kp' & _ & V & _); done.
Qed.

Lemma edit_controls p e : passwordControls p -> passwordControls (edit p e).
Proof.
  intros [Kp Kc]. destruct e as [s|s]; cbn [edit].
  - by apply passwordInput_fields.
  - set (q := Build_Passwords _ _).
    destruct (confirmInput_fields q Kc) as (P & K' & _).
    split; [by rewrite P|done].
Qed.

Lemma edits_controls p es : passwordControls p -> passwordControls (edits p es).
Proof.
  unfold edits. revert p. induction es as [|e es IH]; intros p Hp; [done|].
  cbn [foldl]. by apply IH, edit_controls.
Qed.

Lemma confirmInput_agrees p :
  kind (confirmPasswordField p) = KOther -> confirmAgrees (confirmInput p).
Proof.
  intros Kc. destruct (confirmInput_fields p Kc) as (P & _ & _ & V & I & C & _).
  unfold confirmAgrees, differs. rewrite P, V, I, C.
  by destruct (streq _ _).
Qed.

Lemma edit_agrees p e :
  passwordControls p ->
  nonEmpty (value (field (confirmPasswordField (edit p e)))) = true ->
  confirmAgrees (edit p e).
Proof.
  intros [Kp Kc] Hne. destruct e as [s|s]; cbn [edit] in *.
  - set (q := Build_Passwords _ _) in *.
    assert (Hq : passwordControls q) by done.
    destruct (passwordInput_fields q Hq) as (_ & V & C).
    destruct (confirmInput_fields q Kc) as (P & _ & _ & V' & _).
    pose proof (confirmInput_agrees q Kc) as Ha.
    unfold confirmAgrees, differs in *. rewrite C in Hne |- *. rewrite V.
    destruct (nonEmpty (value (field (confirmPasswordField q)))) eqn:E.
    + by rewrite P in Ha.
    + congruence.
  - by apply confirmInput_agrees.
Qed.

(** X7. On the counselor form, after any run of edits of the two
    password inputs, a confirmation that holds something carries the class
    'invalid' and the message 'Passwords do not match' exactly when it
    differs from the password, and no message when it agrees; editing
    either field keeps the two in step. *)
Theorem confirm_tracks_password (p : Fields.Passwords) (es : list Fields.Edit)
    (e : Fields.Edit) :
  passwordControls p ->
  nonEmpty (value (field (confirmPasswordField (edits p (es ++ [e]))))) = true ->
  confirmAgrees (edits p (es ++ [e])).
Proof.
  intros Hp. unfold edits. rewrite foldl_app. cbn [foldl].
  apply edit_agrees. by apply edits_controls.
Qed.

Lemma confirm_tracks_password_witness :
  confirmAgrees (edits passwordPair
                   ([TypePassword (lit "Secret12"); TypeConfirm (lit "Secret12")]
                    ++ [TypePassword (lit "Secret123")])).
Proof.
  apply (confirm_tracks_password passwordPair
           [TypePassword (lit "Secret12"); TypeConfirm (lit "Secret12")]
           (TypePassword (lit "Secret123"))).
  - split; reflexivity.
  - reflexivity.
Defined.

(** X8. A required confirmation that is not blank and differs from the
    password ends with both classes, 'invalid' and 'valid': the
    required-field listener runs after the comparison and adds 'valid'
    again. *)
Theorem mismatched_confirm_gets_both_classes (p : Fields.Passwords) (s : jsstring) :
  passwordControls p ->
  required (confirmPasswordField p) = true ->
  blank s = false ->
  s <> value (field (passwordField p)) ->
  invalid (field (confirmPasswordField (edit p (TypeConfirm s)))) = true
  /\ valid (field (confirmPasswordField (edit p (TypeConfirm s)))) = true.
Proof.
  intros [Kp Kc] R B D. cbn [edit]. set (q := Build_Passwords _ _).
  destruct (confirmInput_fields q Kc) as (_ & _ & _ & _ & I & _ & Vd).
  rewrite I, Vd. subst q. cbn [passwordField confirmPasswordField field withField
    required value setValue]. rewrite R, B.
  by apply streq_false in D as ->.
Qed.

Lemma mismatched_confirm_gets_both_classes_witness :
  invalid (field (confirmPasswordField (edit passwordPair (TypeConfirm (lit "abc")))))
  = true
  /\ valid (field (confirmPasswordField (edit passwordPair (TypeConfirm (lit "abc")))))
     = true.
Proof.
  apply (mismatched_confirm_gets_both_classes passwordPair (lit "abc")).
  - split; reflexivity.
  - reflexivity.
  - reflexivity.
  - discriminate.
Defined.

(** X9. Emptying the confirmation and then the password leaves the
    confirmation marked 'invalid' with the message 'Passwords do not match'
    although the two fields are equal again: the password listener skips a
    confirmation that is empty. *)
Theorem emptied_confirm_stays_invalid (p : Fields.Passwords) :
  passwordControls p ->
  value (field (passwordField p)) <> [] ->
  value (field (confirmPasswordField (emptied p)))
  = value (field (passwordField (emptied p)))
  /\ invalid (field (confirmPasswordField (emptied p))) = true
  /\ customValidity (field (confirmPasswordField (emptied p)))
     = "Passwords do not match"%string.
Proof.
  intros [Kp Kc] Hne. unfold emptied, edits. cbn [foldl].
  set (q1 := edit p (TypeConfirm [])).
  assert (H1 : passwordControls q1) by (by apply edit_controls).
  assert (F1 : value (field (confirmPasswordField q1)) = []
               /\ invalid (field (confirmPasswordField q1)) = true
               /\ customValidity (field (confirmPasswordField q1))
                  = "Passwords do not match"%string).
  { subst q1. cbn [edit]. set (q := Build_Passwords _ _).
    destruct (confirmInput_fields q Kc) as (_ & _ & _ & V & I & C & _).
    rewrite V, I, C. subst q.
    cbn [passwordField confirmPasswordField field withField value setValue].
    assert (streq [] (value (field (passwordField p))) = false) as ->; [|done].
    apply streq_false. congruence. }
  clearbody q1. destruct F1 as (V1 & I1 & C1). cbn [edit].
  set (q2 := Build_Passwords _ _).
  assert (H2 : passwordControls q2) by (destruct H1; done).
  destruct (passwordInput_fields q2 H2) as (_ & V & C).
  subst q2.
  cbn [passwordField confirmPasswordField field withField value setValue] in V, C.
  rewrite V1 in C. change (nonEmpty []) with false in C. cbv iota in C.
  by rewrite V, C, V1, I1, C1.
Qed.

Lemma emptied_confirm_stays_invalid_witness :
  value (field (confirmPasswordField (emptied matchingPair)))
  = value (field (passwordField (emptied matchingPair)))
  /\ invalid (field (confirmPasswordField (emptied matchingPair))) = true
  /\ customValidity (field (confirmPasswordField (emptied matchingPair)))
     = "Passwords do not match"%string.
Proof.
  apply (emptied_confirm_stays_invalid matchingPair).
  - split; reflexivity.
  - discriminate.
Defined.

End FieldsFacts.

(** ** Whole exercise sessions *)
Module SessionsFacts.
Import Script Exercise ExerciseFacts Sessions.

(** *** Stretching *)

Lemma one_stretch_timer v :
  TimersOk v -> (length (running isStretching v) <= 1)%nat.
Proof.
  intros Hok.
  assert (Hnd : NoDup (running isStretching v)).
  { unfold running. apply NoDup_fst_map_to_list. }
  destruct (running isStretching v) as [|h1 [|h2 l]] eqn:E; simpl; [lia..|].
  exfalso.
  assert (H1 : stretchingInterval v = Some h1).
  { apply running_stretch_owned; [done|]. rewrite E. apply list_elem_of_here. }
  assert (H2 : stretchingInterval v = Some h2).
  { apply running_stretch_owned; [done|]. rewrite E.
    apply list_elem_of_further, list_elem_of_here. }
  rewrite H1 in H2. injection H2 as ->.
  apply NoDup_cons in Hnd as [Hn _]. apply Hn, list_elem_of_here.
Qed.

Lemma stretch_running v h :
  intervals v !! h = Some StretchTick -> h ∈ running isStretching v.
Proof.
  intros H. unfold running. apply list_elem_of_fmap. exists (h, StretchTick).
  split; [done|]. apply elem_of_map_to_list, map_lookup_filter_Some. done.
Qed.

Lemma no_stretch_timer v :
  TimersOk v -> stretchingInterval v = None -> running isStretching v = [].
Proof.
  intros Hok Hn. destruct (running isStretching v) as [|h l] eqn:E; [done|].
  assert (H : stretchingInterval v = Some h).
  { apply running_stretch_owned; [done|]. rewrite E. apply list_elem_of_here. }
  congruence.
Qed.

Lemma tick_stretch v h :
  intervals v !! h = Some StretchTick ->
  vars_of (dispatch (Tick h) v) = vars_of (stretchTick v)
  /\ effects_of (dispatch (Tick h) v) = effects_of (stretchTick v).
Proof.
  intros H. unfold dispatch, bind, gets. rewrite H.
  by destruct (stretchTick v) as [[o v1] effs].
Qed.

Lemma underway_start type v :
  TimersOk v ->
  Underway (stretchSteps type) 0 30 (advance v (ClickStretching type)).
Proof.
  intros Hok. pose proof (ok_startStretching type v Hok) as Hok'.
  unfold advance, dispatch. split; try done.
  1-3: by destruct v as [m n hb [hs|] i sq cd].
  exists (nextHandle v). destruct v as [m n hb [hs|] i sq cd]; cbn;
    by rewrite lookup_insert_eq.
Qed.

Lemma underway_mid sq i c v :
  1 < c -> Underway sq i c v -> Underway sq i (c - 1) (stretchSecond v).
Proof.
  intros Hc [Hok Hs Hi Hcd (h & Hh & Hl)]. unfold stretchSecond, advance.
  rewrite Hh. destruct (tick_stretch v h Hl) as [-> _].
  pose proof (ok_stretchTick v Hok) as Hok'.
  destruct v as [m n hb hs j sq' cd]. cbn in Hs, Hi, Hcd, Hh, Hl. subst.
  assert (E : (c - 1 <=? 0) = false) by lia.
  assert (vars_of (stretchTick (Build_Vars m n hb (Some h) i sq c))
          = Build_Vars m n hb (Some h) i sq (c - 1)) as Hv.
  { unfold stretchTick, bind, gets, vars_of. cbn. by rewrite E. }
  rewrite Hv in Hok' |- *. split; try done. by exists h.
Qed.

Lemma underway_next sq i v :
  (i + 1 < length sq)%nat -> Underway sq i 1 v ->
  Underway sq (i + 1) 30 (stretchSecond v).
Proof.
  intros Hi' [Hok Hs Hi Hcd (h & Hh & Hl)]. unfold stretchSecond, advance.
  rewrite Hh. destruct (tick_stretch v h Hl) as [-> _].
  pose proof (ok_stretchTick v Hok) as Hok'.
  destruct v as [m n hb hs j sq' cd]. cbn in Hs, Hi, Hcd, Hh, Hl. subst.
  assert (E : bool_decide (i + 1 < length sq)%nat = true)
    by by apply bool_decide_eq_true.
  assert (vars_of (stretchTick (Build_Vars m n hb (Some h) i sq 1))
          = Build_Vars (<[n := StretchTick]> (delete h (delete h m))) (n + 1) hb
                       (Some n) (i + 1) sq 30) as Hv.
  { unfold stretchTick, nextStretch, bind, gets, vars_of. cbn.
    change (1 - 1 <=? 0) with true. cbn. by rewrite E. }
  rewrite Hv in Hok' |- *. split; try done.
  exists n. split; [done|]. cbn. by rewrite lookup_insert_eq.
Qed.

Lemma underway_last sq i v :
  (i + 1 = length sq)%nat -> Underway sq i 1 v ->
  TimersOk (stretchSecond v)
  /\ stretchingInterval (stretchSecond v) = None
  /\ stretchWrites v
     = [ Text "stretch-timer" "0s"; Display "stretching-modal" "none";
         Alert "Great job! Stretching session complete! 🎉" ].
Proof.
  intros Hi' [Hok Hs Hi Hcd (h & Hh & Hl)]. unfold stretchSecond, stretchWrites, advance.
  rewrite Hh. destruct (tick_stretch v h Hl) as [-> ->].
  pose proof (ok_stretchTick v Hok) as Hok'.
  destruct v as [m n hb hs j sq' cd]. cbn in Hs, Hi, Hcd, Hh, Hl. subst.
  assert (E : bool_decide (i + 1 < length sq)%nat = false)
    by (apply bool_decide_eq_false; lia).
  assert (stretchTick (Build_Vars m n hb (Some h) i sq 1)
          = (Returned tt,
             Build_Vars (delete h (delete h m)) n hb None (i + 1) sq 0,
             [ Text "stretch-timer" "0s"; Display "stretching-modal" "none";
               Alert "Great job! Stretching session complete! 🎉" ])) as Hv.
  { unfold stretchTick, nextStretch, bind, gets. cbn.
    change (1 - 1 <=? 0) with true. cbn. by rewrite E. }
  rewrite Hv in Hok' |- *. done.
Qed.

Lemma underway_seconds sq v k :
  Underway sq 0 30 v -> (k < 30 * length sq)%nat ->
  Underway sq (k / 30) (30 - Z.of_nat (k mod 30)) (stretchSeconds k v).
Proof.
  intros H0. induction k as [|k IH]; intros Hk.
  { by rewrite Nat.Div0.div_0_l, Nat.Div0.mod_0_l. }
  specialize (IH ltac:(lia)). unfold stretchSeconds in *. cbn [Nat.iter].
  pose proof (Nat.div_mod_eq k 30) as Ek.
  pose proof (Nat.mod_upper_bound k 30 ltac:(lia)) as Bk.
  destruct (decide (k mod 30 = 29)%nat) as [E29|N29].
  - assert (S k / 30 = k / 30 + 1)%nat as ->.
    { symmetry. apply (Nat.div_unique (S k) 30 _ 0); lia. }
    assert (S k mod 30 = 0)%nat as ->.
    { symmetry. apply (Nat.mod_unique (S k) 30 (k / 30 + 1) 0); lia. }
    rewrite E29 in IH. apply underway_next; [lia|exact IH].
  - assert (S k / 30 = k / 30)%nat as ->.
    { symmetry. apply (Nat.div_unique (S k) 30 _ (k mod 30 + 1)); lia. }
    assert (S k mod 30 = k mod 30 + 1)%nat as ->.
    { symmetry. apply (Nat.mod_unique (S k) 30 (k / 30) (k mod 30 + 1)); lia. }
    replace (30 - Z.of_nat (k mod 30 + 1)) with (30 - Z.of_nat (k mod 30) - 1) by lia.
    apply underway_mid; [lia|exact IH].
Qed.

(** X10. A stretching session takes 30 seconds per step.  Started from
    any state the page can reach and left alone, after [k] seconds it shows
    step [k / 30] with [30 - k mod 30] seconds on the clock and exactly one
    stretching interval runs; the last second of the last step writes
    [0s], hides the modal and raises the closing alert, and no stretching
    interval is left running. *)
Theorem stretching_session_runs (evs : list Exercise.Stimulus) (type : string) (k : nat) :
  ((k < 30 * length (stretchSteps type))%nat ->
   currentStretchIndex (stretchSeconds k (stretchStart evs type)) = (k / 30)%nat
   /\ stretchCountdown (stretchSeconds k (stretchStart evs type))
      = 30 - Z.of_nat (k mod 30)
   /\ length (running isStretching (stretchSeconds k (stretchStart evs type))) = 1%nat)
  /\ stretchWrites (stretchSeconds (30 * length (stretchSteps type) - 1)
                                   (stretchStart evs type))
     = [ Text "stretch-timer" "0s"; Display "stretching-modal" "none";
         Alert "Great job! Stretching session complete! 🎉" ]
  /\ stretchingInterval (stretchSeconds (30 * length (stretchSteps type))
                                        (stretchStart evs type)) = None
  /\ running isStretching (stretchSeconds (30 * length (stretchSteps type))
                                          (stretchStart evs type)) = [].
Proof.
  set (n := length (stretchSteps type)). set (v0 := stretchStart evs type).
  assert (H0 : Underway (stretchSteps type) 0 30 v0).
  { apply underway_start, ok_run, ok_initial. }
  assert (Hn : (0 < n)%nat).
  { subst n. unfold stretchSteps. repeat case_bool_decide; simpl; lia. }
  split.
  - intros Hk. destruct (underway_seconds _ _ k H0 Hk) as [Hok _ Hi Hc (h & Hh & Hl)].
    split; [done|]. split; [done|].
    pose proof (one_stretch_timer _ Hok) as Hle.
    pose proof (stretch_running _ _ Hl) as Hin.
    destruct (running isStretching (stretchSeconds k v0)); [|simpl in *; lia].
    by apply elem_of_nil in Hin.
  - assert (Hlast : Underway (stretchSteps type) (n - 1) 1 (stretchSeconds (30 * n - 1) v0)).
    { pose proof (underway_seconds _ _ (30 * n - 1) H0 ltac:(fold n; lia)) as H.
      assert ((30 * n - 1) / 30 = n - 1)%nat as E1.
      { symmetry. apply (Nat.div_unique _ 30 _ 29); lia. }
      assert ((30 * n - 1) mod 30 = 29)%nat as E2.
      { symmetry. apply (Nat.mod_unique _ 30 (n - 1) 29); lia. }
      by rewrite E1, E2 in H. }
    assert (Hlen : (n - 1 + 1 = length (stretchSteps type))%nat) by (subst n; lia).
    destruct (underway_last _ _ _ Hlen Hlast) as (Hok & Hnone & Hw).
    assert (Hs : stretchSeconds (30 * n) v0 = stretchSecond (stretchSeconds (30 * n - 1) v0)).
    { unfold stretchSeconds. destruct (30 * n)%nat as [|j] eqn:Ej; [lia|].
      by replace (S j - 1)%nat with j by lia. }
    rewrite Hs. split; [done|]. split; [done|]. by apply no_stretch_timer.
Qed.

(** *** Breathing *)

(** The closure reads and writes no variable of the page. *)
Lemma updateBreathing_pure phases i c v :
  updateBreathing phases i c v
  = (outcome_of (updateBreathing phases i c initial), v,
     effects_of (updateBreathing phases i c initial)).
Proof.
  unfold updateBreathing, phaseAt, bind, emit, ret, throw, outcome_of, effects_of.
  destruct (phases !! i); [|done]. cbn.
  destruct (c - 1 <? 0); [|done].
  by destruct (phases !! _).
Qed.

Lemma updateBreathing_display phases i c ph :
  phases !! i = Some ph ->
  effects_of (updateBreathing phases i c initial) = display phases (i, c).
Proof.
  intros H. unfold display, updateBreathing, phaseAt, bind, emit, ret, throw, effects_of.
  cbn [fst snd]. rewrite H. cbn.
  destruct (c - 1 <? 0); [|done].
  by destruct (phases !! ((i + 1) mod length phases)%nat).
Qed.

Lemma returns_display phases st :
  returns phases st = true -> shownBy phases st = display phases st.
Proof.
  destruct st as [i c]. unfold returns, shownBy. cbn [fst snd].
  destruct (phases !! i) as [ph|] eqn:E.
  - intros _. by apply updateBreathing_display with ph.
  - unfold updateBreathing, phaseAt, bind, throw, outcome_of. by rewrite E.
Qed.

(** One tick of a breathing interval whose closure returns. *)
Lemma tick_breathing phases st h v :
  intervals v !! h = Some (UpdateBreathing phases st.1 st.2) ->
  returns phases st = true ->
  intervals (advance v (Tick h)) !! h
  = Some (UpdateBreathing phases (callClosure phases st).1 (callClosure phases st).2)
  /\ effects_of (dispatch (Tick h) v) = display phases st.
Proof.
  intros Hl Hr. rewrite <- (returns_display _ _ Hr).
  unfold advance, dispatch, bind, gets. rewrite Hl.
  rewrite updateBreathing_pure. unfold returns, callClosure, shownBy in *.
  destruct (outcome_of (updateBreathing phases st.1 st.2 initial)) as [st'|e];
    [|discriminate Hr].
  unfold keepClosure, modify, vars_of, effects_of. cbn.
  rewrite lookup_insert_eq, app_nil_r. done.
Qed.

Section Schedule.
Variable phases : list Phase.
Hypothesis Hfollows : followsSchedule phases = true.

Lemma schedule_nonempty : (0 < length (schedule phases))%nat.
Proof.
  unfold followsSchedule in Hfollows.
  apply andb_true_iff in Hfollows as [H _]. by apply bool_decide_eq_true in H.
Qed.

Lemma callAt_mod t : callAt phases (t mod length (schedule phases)) = callAt phases t.
Proof.
  unfold callAt. rewrite Nat.Div0.mod_mod. done.
Qed.

Lemma callAt_succ_mod t :
  callAt phases (S (t mod length (schedule phases))) = callAt phases (S t).
Proof.
  unfold callAt. generalize (length (schedule phases)). intros P.
  pose proof (Nat.Div0.add_mod_idemp_l t 1 P) as E.
  rewrite !Nat.add_1_r in E. by rewrite E.
Qed.

Lemma callAt_step t :
  returns phases (callAt phases t) = true
  /\ callClosure phases (callAt phases t) = callAt phases (S t).
Proof.
  pose proof schedule_nonempty as Hp.
  pose proof (callAt_mod t) as E1. pose proof (callAt_succ_mod t) as E2.
  assert (Hr : (t mod length (schedule phases) < length (schedule phases))%nat)
    by (apply Nat.mod_upper_bound; lia).
  revert E1 E2 Hr. generalize (t mod length (schedule phases))%nat. intros r E1 E2 Hr.
  assert (H : returns phases (callAt phases r)
              && bool_decide (callClosure phases (callAt phases r) = callAt phases (S r))
              = true).
  { unfold followsSchedule in Hfollows.
    apply andb_true_iff in Hfollows as [_ H].
    rewrite forallb_forall in H. apply H. apply in_seq. lia. }
  apply andb_true_iff in H as [H1 H2]. apply bool_decide_eq_true in H2.
  rewrite E1 in H1. rewrite E1, E2 in H2. done.
Qed.

Lemma schedule_seconds h v t :
  intervals v !! h = Some (UpdateBreathing phases (callAt phases 1).1 (callAt phases 1).2) ->
  intervals (breathSeconds h t v) !! h
  = Some (UpdateBreathing phases (callAt phases (S t)).1 (callAt phases (S t)).2)
  /\ effects_of (dispatch (Tick h) (breathSeconds h t v)) = display phases (callAt phases (S t)).
Proof.
  intros H0.
  assert (Hl : intervals (breathSeconds h t v) !! h
               = Some (UpdateBreathing phases (callAt phases (S t)).1
                                       (callAt phases (S t)).2)).
  { induction t as [|t IH]; [done|].
    unfold breathSeconds in *. cbn [Nat.iter].
    destruct (callAt_step (S t)) as [Hr Hc].
    destruct (tick_breathing _ _ _ _ IH Hr) as [E _]. rewrite Hc in E. exact E. }
  split; [done|].
  destruct (callAt_step (S t)) as [Hr _].
  by destruct (tick_breathing _ _ _ _ Hl Hr) as [_ ->].
Qed.

End Schedule.

Lemma breathing_follows type : followsSchedule (breathingPhases type) = true.
Proof. unfold breathingPhases. repeat case_bool_decide; by vm_compute. Qed.

Lemma breathing_first type :
  exists first st,
    breathingPhases type !! 0%nat = Some first
    /\ outcome_of (updateBreathing (breathingPhases type) 0 (duration first) initial)
       = Returned st
    /\ callAt (breathingPhases type) 0 = (0%nat, duration first)
    /\ callAt (breathingPhases type) 1 = st.
Proof.
  unfold breathingPhases.
  repeat case_bool_decide; eexists _, _; (split; [reflexivity|]);
    (split; [vm_compute; reflexivity|]); split; vm_compute; reflexivity.
Qed.

Lemma startBreathing_run type v first st :
  breathingPhases type !! 0%nat = Some first ->
  outcome_of (updateBreathing (breathingPhases type) 0 (duration first) initial)
  = Returned st ->
  intervals (advance v (ClickBreathing type)) !! nextHandle v
  = Some (UpdateBreathing (breathingPhases type) st.1 st.2)
  /\ effects_of (dispatch (ClickBreathing type) v)
     = [ Display "breathing-modal" "flex"; Text "exercise-title" (breathingTitle type) ]
       ++ display (breathingPhases type) (0%nat, duration first).
Proof.
  intros Hf Ho. rewrite <- (updateBreathing_display _ _ _ _ Hf).
  unfold advance, dispatch, startBreathingExercise.
  revert Hf Ho. generalize (breathingPhases type). intros phases Hf Ho.
  unfold bind, emit, phaseAt. rewrite Hf. unfold ret.
  rewrite updateBreathing_pure, Ho.
  destruct v as [m n hb hs i sq cd]. cbn. rewrite lookup_insert_eq, app_nil_r. done.
Qed.

Lemma breathing_start type v :
  intervals (advance v (ClickBreathing type)) !! nextHandle v
  = Some (UpdateBreathing (breathingPhases type)
            (callAt (breathingPhases type) 1).1 (callAt (breathingPhases type) 1).2)
  /\ effects_of (dispatch (ClickBreathing type) v)
     = [ Display "breathing-modal" "flex"; Text "exercise-title" (breathingTitle type) ]
       ++ display (breathingPhases type) (callAt (breathingPhases type) 0).
Proof.
  destruct (breathing_first type) as (first & st & Hf & Ho & E0 & E1).
  rewrite E0, E1. by apply startBreathing_run.
Qed.

(** X11. A breathing exercise left alone follows a fixed schedule: the
    call made at the click and the calls made each second afterwards show,
    in turn, every phase with its count going from the duration down to 0.
    A phase announced as [d] seconds therefore stays [d + 1] seconds, and a
    cycle takes one second per phase more than the durations add up to (20
    seconds for box breathing, not 16). *)
Theorem breathing_follows_schedule (type : string) (v : Exercise.Vars) (t : nat) :
  effects_of (dispatch (ClickBreathing type) v)
  = [ Display "breathing-modal" "flex"; Text "exercise-title" (breathingTitle type) ]
    ++ display (breathingPhases type) (callAt (breathingPhases type) 0)
  /\ effects_of (dispatch (Tick (nextHandle v)) (breathing type v t))
     = display (breathingPhases type) (callAt (breathingPhases type) (S t))
  /\ Z.of_nat (length (schedule (breathingPhases type)))
     = announced (breathingPhases type) + Z.of_nat (length (breathingPhases type)).
Proof.
  destruct (breathing_start type v) as [H0 Hs]. split; [done|]. split.
  - by apply schedule_seconds; [apply breathing_follows|].
  - unfold breathingPhases. repeat case_bool_decide; by vm_compute.
Qed.

End SessionsFacts.

(** ** Toasts and the permission state over whole runs *)
Module ToastsFacts.
Import Script Notify NotifyFacts Toasts.

(** A badge update leaves the toasts alone and only hands out names. *)
Lemma badgeAfter_frame n p :
  container (badgeAfter n p) = container p
  /\ enableButton (badgeAfter n p) = enableButton p
  /\ (nextNode p <= nextNode (badgeAfter n p))%nat.
Proof.
  unfold badgeAfter.
  destruct p as [dash last api perm audio [bs|] tab btn cont nn]; [|done].
  unfold updateNotificationBadge, createElement. run_handler. cbn.
  destruct (0 <? n); cbn; repeat split; lia.
Qed.

(** What a poll can change. *)
Lemma afterPoll_frame r p :
  container (afterPoll r p) = container p
  /\ enableButton (afterPoll r p) = enableButton p
  /\ permission (afterPoll r p) = permission p
  /\ (nextNode p <= nextNode (afterPoll r p))%nat.
Proof.
  unfold afterPoll. destruct r as [| |data]; [by destruct p..|].
  rewrite poll_decoded, checkBody_decoded. cbv zeta.
  destruct (badgeAfter_frame (count data) p) as (Hc & Hb & Hn).
  destruct (badgeAfter_fields (count data) p) as (_ & _ & Hp & _).
  destruct (isNew _ _); [destruct (browserThrows _ _); [|destruct (audioContext p)]|];
    unfold vars_of; cbn [fst snd]; done.
Qed.

Lemma step_poll_page p r :
  (step p (EvPoll r)).1 = if onDashboard p then afterPoll r p else p.
Proof.
  unfold step, handle, afterPoll. run_handler.
  destruct (onDashboard p); cbv beta iota; [|done].
  by destruct (checkForNewNotifications r p) as [[o p'] effs].
Qed.

(** *** The permission state *)

Lemma step_permission ev p :
  permission p <> Default -> permission (step p ev).1 = permission p.
Proof.
  intros H. destruct ev as [r| |k choice|cb now].
  - rewrite step_poll_page. destruct (onDashboard p); [|done]. apply afterPoll_frame.
  - destruct p as [dash last api perm audio link tab [b|] cont nn]; by destruct api.
  - destruct p as [dash last api perm audio link tab btn cont nn].
    cbn in H. destruct k as [title [f|]|], choice, perm; done.
  - destruct p as [dash last api perm audio link tab btn [c|] nn].
    all: destruct cb; try destruct dash; done.
Qed.

Lemma step_hidden ev p :
  enableButton p = Some false -> enableButton (step p ev).1 = Some false.
Proof.
  intros H. destruct ev as [r| |k choice|cb now].
  - rewrite step_poll_page. destruct (onDashboard p); [|done].
    destruct (afterPoll_frame r p) as (_ & -> & _). done.
  - destruct p as [dash last api perm audio link tab [b|] cont nn]; by destruct api.
  - destruct p as [dash last api perm audio link tab btn cont nn].
    cbn in H. destruct k as [title [f|]|], choice, perm; done.
  - destruct p as [dash last api perm audio link tab btn [c|] nn].
    all: destruct cb; try destruct dash; done.
Qed.

Lemma askers_cons ev effs tr :
  askers ((ev, effs) :: tr)
  = (if existsb isPermissionRequest effs then [ev] else []) ++ askers tr.
Proof.
  unfold askers. destruct (existsb isPermissionRequest effs) eqn:E.
  - rewrite filter_cons_True by done. done.
  - rewrite filter_cons_False; [done|]. cbn. by rewrite E.
Qed.

Lemma step_asks_decided ev p :
  permission p <> Default ->
  existsb isPermissionRequest (step p ev).2 = true -> ev = EvClick.
Proof.
  intros Hp H. apply existsb_exists in H as (e & Hin%list_elem_of_In & He).
  destruct e as [| |k| | | |]; try discriminate He.
  apply request_in_step in Hin as [(-> & _)|(d & _ & _ & _ & _ & _ & Hd & _)]; done.
Qed.

(** X12. A permission that is granted or denied stays so through every
    run of the page, the automatic request of the alert is never made
    again (only a click on the enable button asks), and an enable button
    once hidden stays hidden. *)
Theorem decided_permission_is_kept (p : Notify.Page) (evs : list Notify.Event) :
  permission p <> Default ->
  permission (run p evs).1 = permission p
  /\ Forall (fun ev => ev = EvClick) (askers (run p evs).2)
  /\ (enableButton p = Some false -> enableButton (run p evs).1 = Some false).
Proof.
  revert p. induction evs as [|ev evs IH]; intros p Hp.
  { split; [done|]. split; [constructor|done]. }
  cbn [run].
  pose proof (step_permission ev p Hp) as H1.
  pose proof (step_hidden ev p) as H2.
  pose proof (step_asks_decided ev p Hp) as H3.
  destruct (step p ev) as [p1 effs]. cbn [fst snd] in *.
  rewrite <- H1 in Hp. destruct (IH p1 Hp) as (I1 & I2 & I3).
  destruct (run p1 evs) as [p2 tr]. cbn [fst snd] in *.
  split; [congruence|]. split.
  - rewrite askers_cons. apply Forall_app. split; [|done].
    destruct (existsb isPermissionRequest effs); [|constructor].
    constructor; [by apply H3|constructor].
  - intros Hb. by apply I3, H2.
Qed.

Lemma decided_permission_is_kept_witness :
  permission (run (freshPage Granted) (countsZeroThreeFive ++ [EvClick])).1
  = permission (freshPage Granted)
  /\ Forall (fun ev => ev = EvClick)
            (askers (run (freshPage Granted) (countsZeroThreeFive ++ [EvClick])).2)
  /\ (enableButton (freshPage Granted) = Some false ->
      enableButton (run (freshPage Granted) (countsZeroThreeFive ++ [EvClick])).1
      = Some false).
Proof.
  apply (decided_permission_is_kept (freshPage Granted) (countsZeroThreeFive ++ [EvClick])).
  discriminate.
Defined.



(** *** Toasts *)

Lemma fresh_loaded api perm audio link tab button :
  ToastsFresh (loaded api perm audio link tab button).
Proof. constructor. Qed.

Lemma fresh_weaken (ts : list Toast) (n m : nat) :
  (n <= m)%nat ->
  Forall (fun x => (toast_id x < n)%nat) ts -> Forall (fun x => (toast_id x < m)%nat) ts.
Proof. intros Hnm H. eapply Forall_impl; [exact H|]. intros x Hx. cbn in *. lia. Qed.

Lemma fresh_fmap (f : Toast -> Toast) (t n : nat) (ts : list Toast) :
  (forall x, toast_id (f x) = toast_id x) ->
  Forall (fun x => (toast_id x < n)%nat) ts ->
  Forall (fun x => (toast_id x < n)%nat)
         ((fun x => if decide (toast_id x = t) then f x else x) <$> ts).
Proof.
  intros Hf H. apply Forall_fmap. eapply Forall_impl; [exact H|].
  intros x Hx. cbn. destruct (decide _); by rewrite ?Hf.
Qed.

Lemma fresh_step ev p : ToastsFresh p -> ToastsFresh (step p ev).1.
Proof.
  unfold ToastsFresh, toasts. intros H. destruct ev as [r| |k choice|cb now].
  - rewrite step_poll_page. destruct (onDashboard p); [|done].
    destruct (afterPoll_frame r p) as (-> & _ & _ & Hn).
    by apply (fresh_weaken _ _ _ Hn).
  - destruct p as [dash last api perm audio link tab [b|] cont nn]; by destruct api.
  - destruct p as [dash last api perm audio link tab btn cont nn].
    destruct k as [title [f|]|], choice, perm; exact H.
  - destruct p as [dash last api perm audio link tab btn [c|] nn]; cbn in H.
    all: destruct cb; try destruct dash; try exact H; cbn.
    all: try (apply Forall_app; split;
              [by apply (fresh_weaken _ nn); [lia|]|by repeat constructor; cbn; lia]).
    all: try by repeat constructor.
    all: try by apply fresh_fmap.
    all: try (apply Forall_forall; intros x [_ Hin]%list_elem_of_filter;
              rewrite Forall_forall in H; by apply H).
Qed.

Lemma fresh_run evs p : ToastsFresh p -> ToastsFresh (run p evs).1.
Proof.
  revert p. induction evs as [|ev evs IH]; intros p H; [done|].
  cbn [run]. pose proof (fresh_step ev p H) as H1.
  destruct (step p ev) as [p1 effs]. specialize (IH p1 H1).
  by destruct (run p1 evs).
Qed.

Lemma fresh_before_new p :
  ToastsFresh p -> Forall (fun x => toast_id x <> freshToast p) (toasts p).
Proof.
  unfold ToastsFresh, freshToast, toasts. intros H.
  eapply Forall_impl; [exact H|]. intros x Hx.
  destruct (container p); cbn in *; lia.
Qed.

Lemma fmap_others (f : Toast -> Toast) (t : nat) (ts : list Toast) :
  Forall (fun x => toast_id x <> t) ts ->
  (fun x => if decide (toast_id x = t) then f x else x) <$> ts = ts.
Proof.
  induction 1 as [|x ts Hx _ IH]; [done|]. cbn. rewrite IH.
  by destruct (decide _).
Qed.

Lemma filter_others (t : nat) (ts : list Toast) :
  Forall (fun x => toast_id x <> t) ts ->
  filter (fun x => toast_id x <> t) ts = ts.
Proof.
  induction 1 as [|x ts Hx _ IH]; [done|].
  by rewrite filter_cons_True, IH.
Qed.

(** The four timers of a toast on a page whose other toasts have other
    names. *)
Lemma lifecycle_run p flag now :
  Forall (fun x => toast_id x <> freshToast p) (toasts p) ->
  (run p (lifecycle flag (freshToast p) now)).2.*2
  = [ [ SetTimeout (CbToastShow (freshToast p)) 100;
        SetTimeout (CbToastHide (freshToast p)) 10000 ];
      [];
      [ SetTimeout (CbToastRemove (freshToast p)) 300 ];
      [] ]
  /\ toasts (run p (take 1 (lifecycle flag (freshToast p) now))).1
     = toasts p ++ [inserted (freshToast p) flag]
  /\ toasts (run p (take 2 (lifecycle flag (freshToast p) now))).1
     = toasts p ++ [visible (freshToast p) flag]
  /\ toasts (run p (take 3 (lifecycle flag (freshToast p) now))).1
     = toasts p ++ [leaving (freshToast p) flag]
  /\ toasts (run p (lifecycle flag (freshToast p) now)).1 = toasts p.
Proof.
  intros H.
  destruct p as [dash last api perm audio link tab btn [c|] nn];
    unfold toasts, freshToast in *; cbn in H |- *.
  - rewrite !fmap_app, !filter_app. cbn.
    rewrite !(fmap_others _ _ _ H).
    rewrite (filter_others _ _ H).
    repeat case_decide; try done; cbn; repeat case_decide; try done.
    by rewrite app_nil_r.
  - repeat case_decide; try done; cbn; repeat case_decide; done.
Qed.

(** X14. The life of a toast, on any page reached from load: its timer
    inserts it at the end of the container (creating the container on
    first use) and starts two timers, one of 100 ms that makes it visible
    and one of 10 s that starts its removal; that one starts a third timer
    of 300 ms, which detaches it.  The other toasts are not touched at any
    stage, and afterwards the container holds what it held before. *)
Theorem toast_lifecycle (api : bool) (perm : Notify.Permission) (audio : bool)
    (link : option (list Notify.Badge)) (tab button : bool)
    (evs : list Notify.Event) (flag : Notify.Flag) (now : string) :
  (run (reached api perm audio link tab button evs)
       (lifecycle flag (freshToast (reached api perm audio link tab button evs)) now)).2.*2
  = [ [ SetTimeout (CbToastShow (freshToast (reached api perm audio link tab button evs))) 100;
        SetTimeout (CbToastHide (freshToast (reached api perm audio link tab button evs)))
                   10000 ];
      [];
      [ SetTimeout (CbToastRemove (freshToast (reached api perm audio link tab button evs)))
                   300 ];
      [] ]
  /\ toasts (run (reached api perm audio link tab button evs)
                 (take 1 (lifecycle flag
                            (freshToast (reached api perm audio link tab button evs)) now))).1
     = toasts (reached api perm audio link tab button evs)
       ++ [inserted (freshToast (reached api perm audio link tab button evs)) flag]
  /\ toasts (run (reached api perm audio link tab button evs)
                 (take 2 (lifecycle flag
                            (freshToast (reached api perm audio link tab button evs)) now))).1
     = toasts (reached api perm audio link tab button evs)
       ++ [visible (freshToast (reached api perm audio link tab button evs)) flag]
  /\ toasts (run (reached api perm audio link tab button evs)
                 (take 3 (lifecycle flag
                            (freshToast (reached api perm audio link tab button evs)) now))).1
     = toasts (reached api perm audio link tab button evs)
       ++ [leaving (freshToast (reached api perm audio link tab button evs)) flag]
  /\ toasts (run (reached api perm audio link tab button evs)
                 (lifecycle flag
                    (freshToast (reached api perm audio link tab button evs)) now)).1
     = toasts (reached api perm audio link tab button evs).
Proof.
  apply lifecycle_run, fresh_before_new. unfold reached.
  apply fresh_run, fresh_loaded.
Qed.

End ToastsFacts.

(** ** Relative times *)
Module TimeLabelsFacts.
Import TimeLabels.

Lemma seconds_lt (e k : Z) : 0 < k -> (e / 1000 <? k) = (e <? 1000 * k).
Proof.
  intros Hk. destruct (Z.ltb_spec e (1000 * k)) as [H|H].
  - apply Z.ltb_lt. apply Z.div_lt_upper_bound; lia.
  - apply Z.ltb_ge. apply Z.div_le_lower_bound; lia.
Qed.

Lemma whole_units (e k : Z) : 0 < k -> e / 1000 / k = e / (1000 * k).
Proof. intros Hk. rewrite Z.div_div by lia. done. Qed.

Lemma units_between (e u lo hi : Z) :
  0 < u -> lo * u <= e < hi * u -> lo <= e / u < hi.
Proof.
  intros Hu [H1 H2]. split.
  - apply Z.div_le_lower_bound; lia.
  - apply Z.div_lt_upper_bound; lia.
Qed.

(** X15. The relative time shown on a toast, by the milliseconds [now - d]
    elapsed since the flag: "Just now" below one minute (also for a time in
    the future), then the whole minutes elapsed (1 to 59), the whole hours
    (1 to 23) and the whole days (1 or more), the unit always in the same
    form ("1 hours ago", "1 days ago"); a time that cannot be read shows
    as "NaN days ago". *)
Theorem getTimeAgo_label (now d : Z) :
  getTimeAgo now None = "NaN days ago"%string
  /\ (now - d < minute -> getTimeAgo now (Some d) = "Just now"%string)
  /\ (minute <= now - d < hour ->
      getTimeAgo now (Some d) = (pretty ((now - d) / minute) +:+ " min ago")%string
      /\ 1 <= (now - d) / minute <= 59)
  /\ (hour <= now - d < day ->
      getTimeAgo now (Some d) = (pretty ((now - d) / hour) +:+ " hours ago")%string
      /\ 1 <= (now - d) / hour <= 23)
  /\ (day <= now - d ->
      getTimeAgo now (Some d) = (pretty ((now - d) / day) +:+ " days ago")%string
      /\ 1 <= (now - d) / day).
Proof.
  unfold getTimeAgo, minute, hour, day. cbv zeta.
  rewrite !seconds_lt, !whole_units by lia.
  change (1000 * 60) with 60000. change (1000 * 3600) with 3600000.
  change (1000 * 86400) with 86400000.
  split; [done|]. split; [|split; [|split]].
  - intros H. by rewrite (proj2 (Z.ltb_lt _ _) H).
  - intros H. rewrite (proj2 (Z.ltb_ge _ _) (proj1 H)), (proj2 (Z.ltb_lt _ _) (proj2 H)).
    split; [done|]. pose proof (units_between (now - d) 60000 1 60 ltac:(lia) ltac:(lia)).
    lia.
  - intros H.
    rewrite (proj2 (Z.ltb_ge (now - d) 60000) ltac:(lia)),
      (proj2 (Z.ltb_ge (now - d) 3600000) ltac:(lia)),
      (proj2 (Z.ltb_lt _ _) (proj2 H)).
    split; [done|]. pose proof (units_between (now - d) 3600000 1 24 ltac:(lia) ltac:(lia)).
    lia.
  - intros H.
    rewrite (proj2 (Z.ltb_ge (now - d) 60000) ltac:(lia)),
      (proj2 (Z.ltb_ge (now - d) 3600000) ltac:(lia)),
      (proj2 (Z.ltb_ge (now - d) 86400000) ltac:(lia)).
    split; [done|]. apply Z.div_le_lower_bound; lia.
Qed.

(** X16. The time shown beside a chat message agrees with the toast's up
    to one hour ("Just now", then whole minutes); from one hour to one day
    it shows the whole hours as "hr ago", and from one day on, or for a
    time that cannot be read, whatever the browser prints for the time of
    day.  A message displayed as it is sent (its time is the clock's) shows
    "Just now". *)
Theorem formatTime_label (toLocaleTimeString : Z -> string) (now d : Z) :
  formatTime toLocaleTimeString now (Some now) = "Just now"%string
  /\ formatTime toLocaleTimeString now None = "Invalid Date"%string
  /\ (now - d < hour ->
      formatTime toLocaleTimeString now (Some d) = getTimeAgo now (Some d))
  /\ (hour <= now - d < day ->
      formatTime toLocaleTimeString now (Some d)
      = (pretty ((now - d) / hour) +:+ " hr ago")%string
      /\ 1 <= (now - d) / hour <= 23)
  /\ (day <= now - d ->
      formatTime toLocaleTimeString now (Some d) = toLocaleTimeString d).
Proof.
  unfold formatTime, getTimeAgo, minute, hour, day. cbv zeta.
  rewrite Z.sub_diag.
  rewrite !seconds_lt, !whole_units by lia.
  change (1000 * 60) with 60000. change (1000 * 3600) with 3600000.
  change (1000 * 86400) with 86400000.
  split; [done|]. split; [done|]. split; [|split].
  - intros H. destruct (now - d <? 60000); [done|].
    by rewrite (proj2 (Z.ltb_lt _ _) H).
  - intros H.
    rewrite (proj2 (Z.ltb_ge (now - d) 60000) ltac:(lia)),
      (proj2 (Z.ltb_ge (now - d) 3600000) ltac:(lia)),
      (proj2 (Z.ltb_lt _ _) (proj2 H)).
    split; [done|]. pose proof (units_between (now - d) 3600000 1 24 ltac:(lia) ltac:(lia)).
    lia.
  - intros H.
    by rewrite (proj2 (Z.ltb_ge (now - d) 60000) ltac:(lia)),
      (proj2 (Z.ltb_ge (now - d) 3600000) ltac:(lia)),
      (proj2 (Z.ltb_ge (now - d) 86400000) ltac:(lia)).
Qed.

End TimeLabelsFacts.

(** ** The chat *)
Module ChatFacts.
Import Js JsFacts Script Chat.

Lemma sendMessage_blank p :
  blank (chatInput p) = true -> sendMessage p = (Returned tt, p, []).
Proof. unfold blank, sendMessage, bind, gets. intros ->. done. Qed.

Lemma sendMessage_run p :
  blank (chatInput p) = false ->
  sendMessage p
  = (Returned tt,
     {| currentSessionId := currentSessionId p; chatHistoryLoaded := chatHistoryLoaded p;
        chatInput := [];
        chatMessages := chatMessages p ++ [UserMessage (trim (chatInput p)) Fresh];
        typingIndicator := true |},
     [PostSend (trim (chatInput p)) (currentSessionId p)]).
Proof. unfold blank, sendMessage, bind, gets. intros ->. by destruct p. Qed.

Lemma sendSettled_run r p :
  exists effs,
    sendSettled r p
    = (Returned tt,
       setTyping false (setMessages (chatMessages p ++ [AIMessage (answerText r) Fresh]) p),
       effs)
    /\ Forall (fun e => exists msg error, e = ChatError msg error) effs.
Proof.
  destruct p as [session loaded input messages typing].
  destruct r as [|ok|ok [|[] [text|]]]; cbn.
  1-3, 6-7: eexists; split; [reflexivity|]; repeat constructor; by eexists _, _.
  - unfold sendSettled, try_catch, bind. cbn.
    destruct (streq text []); eexists; (split; [reflexivity|constructor]).
  - eexists; split; [reflexivity|constructor].
Qed.

Lemma chatRun_cons p ev evs :
  chatRun p (ev :: evs)
  = ((chatRun (chatStep p ev).1 evs).1,
     (chatStep p ev).2 ++ (chatRun (chatStep p ev).1 evs).2).
Proof. cbn [chatRun]. destruct (chatStep p ev). by destruct (chatRun _ evs). Qed.

Lemma step_typed p text : chatStep p (Typed text) = (setInput text p, []).
Proof. reflexivity. Qed.

Lemma step_send p :
  chatStep p SendPressed
  = if blank (chatInput p) then (p, [])
    else ({| currentSessionId := currentSessionId p;
             chatHistoryLoaded := chatHistoryLoaded p;
             chatInput := [];
             chatMessages := chatMessages p ++ [UserMessage (trim (chatInput p)) Fresh];
             typingIndicator := true |},
          [PostSend (trim (chatInput p)) (currentSessionId p)]).
Proof.
  unfold chatStep, chatHandle. destruct (blank (chatInput p)) eqn:E.
  - by rewrite sendMessage_blank.
  - by rewrite sendMessage_run.
Qed.

Lemma step_settled p r :
  (chatStep p (SendSettled r)).1
  = setTyping false (setMessages (chatMessages p ++ [AIMessage (answerText r) Fresh]) p)
  /\ Forall (fun e => exists msg error, e = ChatError msg error)
            (chatStep p (SendSettled r)).2.
Proof.
  unfold chatStep, chatHandle. by destruct (sendSettled_run r p) as (effs & -> & H).
Qed.

(** X17. Sending a chat message.  With nothing but white space typed,
    pressing send does nothing and asks the server nothing.  Otherwise the
    trimmed text is appended as the user's message, the input is emptied,
    the typing indicator shown and one request posted with the text and the
    session id; and when the request settles, in whatever way, exactly one
    answer is appended and the indicator hidden: the server's text when the
    body has a true [success] and a non-empty [ai_response], an apology
    otherwise. *)
Theorem send_message_round (p : Chat.ChatPage) (text : Js.jsstring)
    (r : Chat.Settled Chat.SendBody) :
  (blank text = true -> chatRun p [Typed text; SendPressed] = (setInput text p, []))
  /\ (blank text = false ->
      chatRun p [Typed text; SendPressed]
      = ({| currentSessionId := currentSessionId p;
            chatHistoryLoaded := chatHistoryLoaded p;
            chatInput := [];
            chatMessages := chatMessages p ++ [UserMessage (trim text) Fresh];
            typingIndicator := true |},
         [PostSend (trim text) (currentSessionId p)])
      /\ (chatRun p [Typed text; SendPressed; SendSettled r]).1
         = {| currentSessionId := currentSessionId p;
              chatHistoryLoaded := chatHistoryLoaded p;
              chatInput := [];
              chatMessages := chatMessages p ++ [ UserMessage (trim text) Fresh;
                                                  AIMessage (answerText r) Fresh ];
              typingIndicator := false |})
  /\ (forall ok text', text' <> [] ->
        answerText (Answered ok (SendReply true (Some text'))) = text')
  /\ (forall ok success, answerText (Answered ok (SendReply success None)) = troubleResponding)
  /\ (forall ok text', answerText (Answered ok (SendReply false (Some text'))) = troubleResponding)
  /\ (forall ok, answerText (Answered ok (SendReply true (Some []))) = troubleResponding)
  /\ (forall ok, answerText (Answered ok SendNull) = troubleConnecting)
  /\ (forall ok, answerText (Undecodable ok) = troubleConnecting)
  /\ answerText Rejected = troubleConnecting.
Proof.
  split; [|split].
  - intros Hb. rewrite !chatRun_cons, step_typed. cbn [fst snd chatRun].
    rewrite step_send. cbn [chatInput setInput]. by rewrite Hb.
  - intros Hb. rewrite !chatRun_cons, step_typed. cbn [fst snd chatRun].
    rewrite step_send. cbn [chatInput setInput]. rewrite Hb. cbn [fst snd].
    split; [by destruct p|].
    destruct (step_settled
                {| currentSessionId := currentSessionId (setInput text p);
                   chatHistoryLoaded := chatHistoryLoaded (setInput text p);
                   chatInput := [];
                   chatMessages := chatMessages (setInput text p) ++ [UserMessage (trim text) Fresh];
                   typingIndicator := true |} r) as [-> _].
    destruct p. cbn. by rewrite <- app_assoc.
  - repeat split; try done.
    + intros ok text' H. cbn. by apply streq_false in H as ->.
    + by intros ok [].
Qed.

Lemma run_typed_send p text evs :
  blank text = false ->
  chatRun p (Typed text :: SendPressed :: evs)
  = ((chatRun {| currentSessionId := currentSessionId p;
                 chatHistoryLoaded := chatHistoryLoaded p;
                 chatInput := [];
                 chatMessages := chatMessages p ++ [UserMessage (trim text) Fresh];
                 typingIndicator := true |} evs).1,
     PostSend (trim text) (currentSessionId p)
     :: (chatRun {| currentSessionId := currentSessionId p;
                    chatHistoryLoaded := chatHistoryLoaded p;
                    chatInput := [];
                    chatMessages := chatMessages p ++ [UserMessage (trim text) Fresh];
                    typingIndicator := true |} evs).2).
Proof.
  intros Hb. rewrite (chatRun_cons p), step_typed. cbn [fst snd].
  rewrite (chatRun_cons (setInput text p)), step_send.
  cbn [chatInput setInput]. rewrite Hb. by destruct p.
Qed.

(** X18. The typing indicator does not count requests.  When two
    messages are sent before the first answer arrives, the first request
    to settle hides the indicator although the other is still awaited, and
    its answer is appended below the second message. *)
Theorem typing_indicator_hidden_while_waiting (p : Chat.ChatPage)
    (t1 t2 : Js.jsstring) (r : Chat.Settled Chat.SendBody) :
  blank t1 = false -> blank t2 = false ->
  (chatRun p (twoInFlight t1 t2 r)).1
  = {| currentSessionId := currentSessionId p;
       chatHistoryLoaded := chatHistoryLoaded p;
       chatInput := [];
       chatMessages := chatMessages p ++ [ UserMessage (trim t1) Fresh;
                                           UserMessage (trim t2) Fresh;
                                           AIMessage (answerText r) Fresh ];
       typingIndicator := false |}
  /\ List.filter isPost (chatRun p (twoInFlight t1 t2 r)).2
     = [ PostSend (trim t1) (currentSessionId p); PostSend (trim t2) (currentSessionId p) ].
Proof.
  intros H1 H2. unfold twoInFlight.
  rewrite (run_typed_send _ _ _ H1). cbn [fst snd].
  rewrite (run_typed_send _ _ _ H2). cbn [fst snd chatMessages currentSessionId].
  rewrite chatRun_cons. cbn [fst snd chatRun].
  match goal with
  | |- context [chatStep ?q (SendSettled r)] => destruct (step_settled q r) as [E F]
  end.
  rewrite E. split.
  - cbn. by rewrite <- !app_assoc.
  - rewrite app_nil_r. cbn [List.filter isPost]. do 2 f_equal.
    induction F as [|e effs (msg & error & ->) _ IH]; [done|]. exact IH.
Qed.

Lemma typing_indicator_hidden_while_waiting_witness :
  (chatRun welcome (twoInFlight (lit "hello") (lit "anyone?") Rejected)).1
  = {| currentSessionId := currentSessionId welcome;
       chatHistoryLoaded := chatHistoryLoaded welcome;
       chatInput := [];
       chatMessages := chatMessages welcome
                       ++ [ UserMessage (trim (lit "hello")) Fresh;
                            UserMessage (trim (lit "anyone?")) Fresh;
                            AIMessage (answerText Rejected) Fresh ];
       typingIndicator := false |}
  /\ List.filter isPost (chatRun welcome (twoInFlight (lit "hello") (lit "anyone?") Rejected)).2
     = [ PostSend (trim (lit "hello")) (currentSessionId welcome);
         PostSend (trim (lit "anyone?")) (currentSessionId welcome) ].
Proof.
  apply (typing_indicator_hidden_while_waiting welcome (lit "hello") (lit "anyone?") Rejected);
    reflexivity.
Defined.

(** *** The history *)

Lemma displayHistory_run messages p :
  displayHistory messages p
  = (Returned tt, setMessages (chatMessages p ++ exchanges messages) p, []).
Proof.
  revert p. induction messages as [|msg rest IH]; intros p.
  - cbn. rewrite app_nil_r. by destruct p.
  - cbn [displayHistory]. unfold bind, displayUserMessage, displayAIMessage,
      appendChild, modify. rewrite IH. destruct p. cbn.
    by rewrite <- !app_assoc.
Qed.

Lemma historySettled_run r p :
  (chatStep p (HistorySettled r)).1
  = match brings r with
    | Some messages => setLoaded true (setMessages (exchanges messages) p)
    | None => p
    end
  /\ List.filter isGet (chatStep p (HistorySettled r)).2 = []
  /\ List.filter isPost (chatStep p (HistorySettled r)).2 = [].
Proof.
  unfold chatStep, chatHandle, historySettled, try_catch.
  destruct r as [|[]|[] [|[] [[|msg rest]|]]]; try (by destruct p).
  unfold bind, modify. rewrite displayHistory_run. by destruct p.
Qed.

Lemma step_loaded ev p :
  chatHistoryLoaded p = true ->
  chatHistoryLoaded (chatStep p ev).1 = true
  /\ List.filter isGet (chatStep p ev).2 = [].
Proof.
  intros H. destruct ev as [text| |r| |r].
  - done.
  - rewrite step_send. by destruct (blank (chatInput p)).
  - destruct (step_settled p r) as [-> F]. split; [done|].
    induction F as [|e effs (msg & error & ->) _ IH]; [done|]. exact IH.
  - unfold chatStep, chatHandle, bind, gets. by rewrite H.
  - destruct (historySettled_run r p) as (-> & -> & _).
    split; [|done]. by destruct (brings r).
Qed.

(** X19. Loading the chat history.  When the request brings at least one
    stored exchange (the response is ok and decodes to a body with a true
    [success] and a non-empty [messages]), everything shown in the chat is
    replaced by the stored exchanges, each as the user's message followed
    by the answer, in the order received, and the history counts as
    loaded.  In every other case nothing shown changes and the history
    does not count as loaded, so opening the chat asks the server again;
    once it counts as loaded, no run of the page asks again. *)
Theorem history_replaces_or_keeps (p : Chat.ChatPage)
    (r : Chat.Settled Chat.HistoryBody) (evs : list Chat.ChatEvent) :
  (forall messages, brings r = Some messages ->
     (chatStep p (HistorySettled r)).1
     = {| currentSessionId := currentSessionId p; chatHistoryLoaded := true;
          chatInput := chatInput p; chatMessages := exchanges messages;
          typingIndicator := typingIndicator p |}
     /\ length (exchanges messages) = (2 * length messages)%nat)
  /\ (brings r = None -> (chatStep p (HistorySettled r)).1 = p)
  /\ chatStep p ChatOpened = (p, if chatHistoryLoaded p then [] else [GetHistory])
  /\ (chatHistoryLoaded p = true ->
      chatHistoryLoaded (chatRun p evs).1 = true
      /\ List.filter isGet (chatRun p evs).2 = []).
Proof.
  destruct (historySettled_run r p) as (E & _).
  split; [|split; [|split]].
  - intros messages Hb. rewrite E, Hb. split; [by destruct p|].
    clear. induction messages as [|msg rest IH]; [done|].
    change (exchanges (msg :: rest))
      with ([ UserMessage (content msg) (Stored (timestamp msg));
              AIMessage (ai_response msg) (Stored (timestamp msg)) ] ++ exchanges rest).
    rewrite length_app, IH. simpl. lia.
  - intros Hb. by rewrite E, Hb.
  - unfold chatStep, chatHandle, bind, gets. by destruct (chatHistoryLoaded p).
  - revert p E. induction evs as [|ev evs IH]; intros p _ H; [done|].
    rewrite chatRun_cons. cbn [fst snd].
    destruct (step_loaded ev p H) as [H1 H2].
    destruct (IH (chatStep p ev).1 (proj1 (historySettled_run r _)) H1) as [I1 I2].
    split; [done|]. by rewrite List.filter_app, H2, I2.
Qed.

End ChatFacts.

(** ** The password listeners of the two password pages *)
Module MetersFacts.
Import Js JsFacts Password PasswordFacts Script Meters.

(** *** The reset page *)

Lemma checkMatchReset_fields p :
  newValue (checkMatchReset p) = newValue p
  /\ confirmValue (checkMatchReset p) = confirmValue p
  /\ strength (checkMatchReset p) = strength p
  /\ resetDisabled (checkMatchReset p)
     = negb (streq (confirmValue p) [])
       && negb (streq (newValue p) (confirmValue p))
  /\ matchText (checkMatchReset p)
     = (if streq (confirmValue p) [] then ""
        else if streq (newValue p) (confirmValue p) then "✓ Passwords match"
        else "✗ Passwords do not match")%string.
Proof.
  unfold checkMatchReset. cbv zeta.
  destruct (streq (confirmValue p) []); [done|].
  by destruct (streq (newValue p) (confirmValue p)).
Qed.

(** X20. On the reset page the submit button follows the two inputs:
    after every edit of either field it is disabled exactly when the
    confirmation is not empty and differs from the new password, and the
    message under the confirmation says which of the three cases holds; an
    edit of the new password also redraws the strength meter for the new
    value. *)
Theorem reset_button_tracks_match (p : Meters.ResetPage) (es : list Meters.PwEdit)
    (e : Meters.PwEdit) :
  resetDisabled (resetEdits p (es ++ [e]))
  = negb (streq (confirmValue (resetEdits p (es ++ [e]))) [])
    && negb (streq (newValue (resetEdits p (es ++ [e])))
                   (confirmValue (resetEdits p (es ++ [e]))))
  /\ matchText (resetEdits p (es ++ [e]))
     = (if streq (confirmValue (resetEdits p (es ++ [e]))) [] then ""
        else if streq (newValue (resetEdits p (es ++ [e])))
                      (confirmValue (resetEdits p (es ++ [e])))
             then "✓ Passwords match"
        else "✗ Passwords do not match")%string
  /\ (forall s, newValue (resetEdits p (es ++ [TypedNew s])) = s
               /\ strength (resetEdits p (es ++ [TypedNew s])) = renderStrength s)
  /\ (forall s, confirmValue (resetEdits p (es ++ [TypedConfirm s])) = s).
Proof.
  unfold resetEdits. rewrite !foldl_app. cbn [foldl].
  generalize (foldl resetEdit p es). intros q.
  split; [|split; [|split]].
  - destruct e as [s|s]; cbn [resetEdit];
      match goal with |- context [checkMatchReset ?x] =>
        destruct (checkMatchReset_fields x) as (-> & -> & _ & -> & _) end; done.
  - destruct e as [s|s]; cbn [resetEdit];
      match goal with |- context [checkMatchReset ?x] =>
        destruct (checkMatchReset_fields x) as (-> & -> & _ & _ & ->) end; done.
  - intros s. rewrite foldl_app. cbn [foldl resetEdit].
    match goal with |- context [checkMatchReset ?x] =>
      destruct (checkMatchReset_fields x) as (-> & _ & -> & _) end. done.
  - intros s. rewrite foldl_app. cbn [foldl resetEdit].
    match goal with |- context [checkMatchReset ?x] =>
      destruct (checkMatchReset_fields x) as (_ & -> & _) end. done.
Qed.

(** *** The password-change form *)

Lemma checkPasswordMatch_run f m b :
  matchMessage f = Some m -> submitBtn f = Some b ->
  listener checkPasswordMatch f
  = if streq (confirmPasswordInput f) [] then setMatchMessage (Some (""%string, ""%string)) f
    else if streq (newPasswordInput f) (confirmPasswordInput f)
         then setSubmitBtn (Some false) (setMatchMessage (Some ("âœ“ Passwords match"%string, "#48bb78"%string)) f)
    else setSubmitBtn (Some true) (setMatchMessage (Some ("âœ— Passwords do not match"%string, "#f56565"%string)) f).
Proof.
  intros Hm Hb. unfold listener, checkPasswordMatch, bind, gets. rewrite Hm.
  destruct (streq (confirmPasswordInput f) []); [done|].
  destruct (streq (newPasswordInput f) (confirmPasswordInput f));
    destruct f; cbn in *; by rewrite Hb.
Qed.

(** X21. On the password-change form of the dashboard (match message and
    submit button present), a wrong confirmation disables the submit
    button, and emptying the confirmation afterwards clears the message
    but leaves the button disabled; on the reset page the same edits leave
    the button enabled. *)
Theorem emptied_confirmation_keeps_button_disabled (f : Meters.ChangeForm)
    (p : Meters.ResetPage) (m : string * string) (b : bool) (wrong : Js.jsstring) :
  matchMessage f = Some m -> submitBtn f = Some b ->
  wrong <> [] -> wrong <> newPasswordInput f ->
  submitBtn (changeEdit f (TypedConfirm wrong)) = Some true
  /\ matchMessage (changeEdit f (TypedConfirm wrong))
     = Some ("âœ— Passwords do not match"%string, "#f56565"%string)
  /\ submitBtn (changeEdits f (emptiedAfterMismatch wrong)) = Some true
  /\ matchMessage (changeEdits f (emptiedAfterMismatch wrong)) = Some (""%string, ""%string)
  /\ confirmPasswordInput (changeEdits f (emptiedAfterMismatch wrong)) = []
  /\ resetDisabled (resetEdits p (emptiedAfterMismatch wrong)) = false.
Proof.
  intros Hm Hb Hw Hn.
  assert (E1 : changeEdit f (TypedConfirm wrong)
               = {| newPasswordInput := newPasswordInput f; confirmPasswordInput := wrong;
                    strengthIndicator := strengthIndicator f;
                    matchMessage := Some ("âœ— Passwords do not match"%string, "#f56565"%string);
                    submitBtn := Some true |}).
  { cbn [changeEdit]. unfold onConfirmPassword. cbn [matchMessage]. rewrite Hm.
    rewrite (checkPasswordMatch_run _ m b) by done.
    cbn [confirmPasswordInput newPasswordInput].
    apply streq_false in Hw as ->.
    assert (streq (newPasswordInput f) wrong = false) as ->
      by (apply streq_false; congruence).
    done. }
  unfold changeEdits, resetEdits, emptiedAfterMismatch. cbn [foldl].
  rewrite E1. repeat split.
Qed.

Lemma emptied_confirmation_keeps_button_disabled_witness :
  submitBtn (changeEdit blankChange (TypedConfirm (lit "x"))) = Some true
  /\ matchMessage (changeEdit blankChange (TypedConfirm (lit "x")))
     = Some ("âœ— Passwords do not match"%string, "#f56565"%string)
  /\ submitBtn (changeEdits blankChange (emptiedAfterMismatch (lit "x"))) = Some true
  /\ matchMessage (changeEdits blankChange (emptiedAfterMismatch (lit "x")))
     = Some (""%string, ""%string)
  /\ confirmPasswordInput (changeEdits blankChange (emptiedAfterMismatch (lit "x"))) = []
  /\ resetDisabled (resetEdits blankReset (emptiedAfterMismatch (lit "x"))) = false.
Proof.
  apply (emptied_confirmation_keeps_button_disabled blankChange blankReset
           (""%string, ""%string) false (lit "x")); [reflexivity|reflexivity|discriminate|discriminate].
Defined.

(** *** The strength meters *)

Lemma criteria_cases pw :
  criteria pw = 0 \/ criteria pw = 1 \/ criteria pw = 2 \/ criteria pw = 3
  \/ criteria pw = 4 \/ criteria pw = 5.
Proof. pose proof (criteria_range pw). lia. Qed.

(** X22. Both strength meters light as many of their four bars, from the
    left, as criteria are met (all four from four criteria on), in the
    colour of the caption, and leave the rest grey.  The caption of the
    dashboard meter is the label of the score; that of the reset page is
    the entry of its list of levels at the score, and for an empty password
    the reset page shows nothing at all while the dashboard shows "Weak
    password" over four grey bars. *)
Theorem meters_light_bars (pw : Js.jsstring) :
  bars (renderIndicator pw)
  = lit_bars (Z.min (criteria pw) 4) (captionColor (renderIndicator pw))
  /\ caption (renderIndicator pw) = labelOf (criteria pw)
  /\ captionColor (renderIndicator pw) <> grey
  /\ renderIndicator []
     = {| bars := [grey; grey; grey; grey]; caption := "Weak password";
          captionColor := "#f56565" |}
  /\ renderStrength [] = None
  /\ (pw <> [] ->
      exists m l,
        renderStrength pw = Some m
        /\ levels !! Z.to_nat (criteria pw) = Some l
        /\ bars m = lit_bars (Z.min (criteria pw) 4) (l_color l)
        /\ caption m = l_text l /\ captionColor m = l_color l
        /\ l_color l <> grey).
Proof.
  split; [|split; [|split; [|split; [|split]]]].
  - unfold renderIndicator, checkPasswordStrength. cbv zeta.
    destruct (criteria_cases pw) as [H|[H|[H|[H|[H|H]]]]]; rewrite H;
      vm_compute; reflexivity.
  - unfold renderIndicator, checkPasswordStrength, labelOf. cbv zeta.
    destruct (criteria_cases pw) as [H|[H|[H|[H|[H|H]]]]]; rewrite H;
      vm_compute; reflexivity.
  - unfold renderIndicator, checkPasswordStrength. cbv zeta.
    destruct (criteria_cases pw) as [H|[H|[H|[H|[H|H]]]]]; rewrite H;
      vm_compute; discriminate.
  - vm_compute; reflexivity.
  - vm_compute; reflexivity.
  - intros Hne. unfold renderStrength, getStrength. cbv zeta.
    apply streq_false in Hne as ->. unfold colorOf, textOf. cbn [score s_level].
    destruct (criteria_cases pw) as [H|[H|[H|[H|[H|H]]]]]; rewrite H;
      eexists _, _; (split; [reflexivity|]); (split; [vm_compute; reflexivity|]);
      (split; [vm_compute; reflexivity|]); (split; [reflexivity|]);
      (split; [reflexivity|]); vm_compute; discriminate.
Qed.

End MetersFacts.

(** ** Tabs and the mobile menu *)
Module NavFacts.
Import Nav.













(** *** The mobile menu *)



End NavFacts.
